(** * PyCopasi: model editor, ordering extractor and result aggregators

    A shallow embedding of [copasi.py], [extractFluxConcFromResults.py] and
    [extractMCAOptimizationResults.py].

    Conventions of the embedding
    - a Python [str] is a [list ascii] ([pystr]); documents are ASCII text,
      and so are the strings given as arguments: where a method classifies
      the characters of an argument ([str.isalnum], [int]), the statements
      about it assume an ASCII argument ([ascii_only]);
    - an argument that is spliced into a pattern or into a replacement is
      taken for literal text, which it is for Python when it has none of the
      special characters of [re] ([regex_plain], [repl_plain]); the
      statements about such arguments assume this;
    - a [dict] with string keys is a [gmap pystr _];
    - [re] patterns are sequences of items (literal, one character of a
      class, greedy or lazy repetition of a class, group markers), matched by
      a backtracking matcher with the priorities of Python's [re];
    - [_errorReport] appends to a log; a fatal report is [sys.exit(1)];
      an uncaught Python exception is a separate outcome. *)

From Stdlib Require Import Ascii String List Arith Lia ZArith Bool.
From Stdlib Require Import DecimalString DecimalPos.
From Stdlib Require Import Sorting.Sorted Permutation.
From stdpp Require Import base gmap strings list sorting.
Import ListNotations.

Open Scope list_scope.

(** ** Python strings *)

Abbreviation pystr := (list ascii).

Definition str (s : string) : pystr := list_ascii_of_string s.

Definition dq : ascii := "034"%char.
Definition tab : ascii := "009"%char.
Definition nl : ascii := "010"%char.

Definition code (c : ascii) : nat := nat_of_ascii c.

Definition between (lo hi : nat) (c : ascii) : bool :=
  (lo <=? code c) && (code c <=? hi).

(** [\d] and [[0-9]] on ASCII text. *)
Definition is_digit (c : ascii) : bool := between 48 57 c.

Definition is_alpha (c : ascii) : bool := between 65 90 c || between 97 122 c.

(** [str.isalnum] of a single ASCII character: a letter or a digit.
    (Python also takes the letters and digits beyond ASCII; names with such
    characters are outside the embedding, see [ascii_only].) *)
Definition isalnum (c : ascii) : bool := is_alpha c || is_digit c.

(** A text of ASCII characters. *)
Definition ascii_only (s : pystr) : Prop :=
  forallb (fun c => code c <? 128) s = true.

(** [\s] and [str.isspace]: tab, newline, vertical tab, form feed, carriage
    return, the four separators 0x1c-0x1f and the space. *)
Definition is_space (c : ascii) : bool :=
  between 9 13 c || between 28 31 c || (code c =? 32).

Definition is_char (a c : ascii) : bool := Ascii.eqb c a.
Definition not_char (a c : ascii) : bool := negb (Ascii.eqb c a).
Definition any_char (c : ascii) : bool := true.

Fixpoint starts_with (p s : pystr) : bool :=
  match p with
  | [] => true
  | a :: p' =>
      match s with
      | [] => false
      | c :: s' => Ascii.eqb c a && starts_with p' s'
      end
  end.

(** [sub in s] on strings. *)
Fixpoint contains (sub s : pystr) : bool :=
  starts_with sub s ||
  match s with
  | [] => false
  | _ :: s' => contains sub s'
  end.

(** [sep.join(l)]. *)
Fixpoint join (sep : pystr) (l : list pystr) : pystr :=
  match l with
  | [] => []
  | [x] => x
  | x :: l' => x ++ sep ++ join sep l'
  end.

(** [s.split(c)] for a one-character separator: always at least one field. *)
Fixpoint split_on (c : ascii) (s : pystr) : list pystr :=
  match s with
  | [] => [[]]
  | a :: s' =>
      if Ascii.eqb a c then [] :: split_on c s'
      else match split_on c s' with
           | [] => [[a]]
           | f :: fs => (a :: f) :: fs
           end
  end.

Fixpoint lstrip (cls : ascii -> bool) (s : pystr) : pystr :=
  match s with
  | c :: s' => if cls c then lstrip cls s' else s
  | [] => []
  end.

Definition strip_cls (cls : ascii -> bool) (s : pystr) : pystr :=
  rev (lstrip cls (rev (lstrip cls s))).

(** [s.strip()]. *)
Definition strip (s : pystr) : pystr := strip_cls is_space s.

Definition pystr_eqb (a b : pystr) : bool := bool_decide (a = b).

(** ** Patterns of [re] *)

Inductive item : Type :=
| Lit (c : ascii)                                   (* a literal character *)
| One (cls : ascii -> bool)                         (* one character of a class *)
| Rep (greedy : bool) (cls : ascii -> bool) (min : nat)
                                                    (* cls* , cls+ , cls+? *)
| GOpen                                             (* ( *)
| GClose.                                           (* ) *)

Abbreviation pattern := (list item).

Definition lits (s : string) : pattern := map Lit (str s).

(** Repetition of a class followed by the continuation [k]. A greedy
    repetition first tries to take one more character and falls back on the
    continuation; a lazy one tries the continuation first. *)
Fixpoint rep {R : Type} (greedy : bool) (cls : ascii -> bool)
    (k : pystr -> option R) (min : nat) (s : pystr) : option R :=
  let stop := match min with 0 => k s | S _ => None end in
  match s with
  | c :: s' =>
      if cls c then
        if greedy then
          match rep greedy cls k (pred min) s' with
          | Some r => Some r
          | None => stop
          end
        else
          match stop with
          | Some r => Some r
          | None => rep greedy cls k (pred min) s'
          end
      else stop
  | [] => stop
  end.

(** [match_at p s opened caps]: match [p] at the beginning of [s]. [opened]
    holds the text positions of the groups opened and not yet closed, [caps]
    the groups captured so far. The result is the captured groups and the text
    after the match. *)
Fixpoint match_at (p : pattern) (s : pystr) (opened : list pystr)
    (caps : list pystr) {struct p} : option (list pystr * pystr) :=
  match p with
  | [] => Some (caps, s)
  | Lit a :: p' =>
      match s with
      | c :: s' => if Ascii.eqb c a then match_at p' s' opened caps else None
      | [] => None
      end
  | One cls :: p' =>
      match s with
      | c :: s' => if cls c then match_at p' s' opened caps else None
      | [] => None
      end
  | Rep g cls n :: p' =>
      rep g cls (fun s' => match_at p' s' opened caps) n s
  | GOpen :: p' => match_at p' s (s :: opened) caps
  | GClose :: p' =>
      match opened with
      | start :: opened' =>
          match_at p' s opened'
            (caps ++ [firstn (length start - length s) start])
      | [] => None
      end
  end.

Definition re_match (p : pattern) (s : pystr) : option (list pystr * pystr) :=
  match_at p s [] [].

(** [re.search(p, s)]: the groups of the leftmost match. *)
Fixpoint re_search (p : pattern) (s : pystr) : option (list pystr) :=
  match re_match p s with
  | Some (caps, _) => Some caps
  | None =>
      match s with
      | [] => None
      | _ :: s' => re_search p s'
      end
  end.

(** Replacement templates: text and group references. *)
Inductive tpiece : Type :=
| TText (t : pystr)
| TGroup (n : nat).

Abbreviation template := (list tpiece).

Definition expand (t : template) (caps : list pystr) : pystr :=
  concat (map (fun x => match x with
                        | TText u => u
                        | TGroup n => nth (n - 1) caps []
                        end) t).

(** [re.subn(p, repl, s)] for patterns that match no empty text (every
    pattern of the program begins with a literal or with [\s+]): scan from
    the left, replace each match and resume after it. The fuel is the length
    of the text. *)
Fixpoint subn_aux (fuel : nat) (p : pattern) (t : template) (s : pystr)
    : pystr * nat :=
  match fuel with
  | 0 => (s, 0)
  | S fuel' =>
      match s with
      | [] => ([], 0)
      | c :: s' =>
          match re_match p s with
          | Some (caps, rest) =>
              if length rest <? length s then
                let '(out, n) := subn_aux fuel' p t rest in
                (expand t caps ++ out, S n)
              else
                let '(out, n) := subn_aux fuel' p t s' in (c :: out, n)
          | None =>
              let '(out, n) := subn_aux fuel' p t s' in (c :: out, n)
          end
      end
  end.

Definition subn (p : pattern) (t : template) (s : pystr) : pystr * nat :=
  subn_aux (S (length s)) p t s.

(** In the string constants below an apostrophe stands for the double quote
    of the Python source (no source string contains an apostrophe). *)
Definition qstr (s : string) : pystr :=
  map (fun c => if Ascii.eqb c "'" then dq else c) (str s).

Definition qlits (s : string) : pattern := map Lit (qstr s).

(** The characters with a meaning of their own in a pattern of [re]. *)
Definition regex_special (c : ascii) : bool :=
  existsb (Ascii.eqb c) (str ".^$*+?{}[]\|()").

(** A text without special characters: as a part of a pattern it matches
    itself and nothing else. *)
Definition regex_plain (s : pystr) : Prop :=
  forallb (fun c => negb (regex_special c)) s = true.

Definition regex_plain_opt (s : option pystr) : Prop :=
  match s with
  | Some s => regex_plain s
  | None => True
  end.

(** A text without a backslash: as a part of a replacement it stands for
    itself. (With a backslash it is an escape or a group reference, or
    [re.error] is raised, also when nothing is replaced.) *)
Definition repl_plain (s : pystr) : Prop := forallb (not_char "\") s = true.

(** An argument spliced into a pattern, for an argument that is
    [regex_plain]: Python compiles the concatenated text, and such an
    argument compiles to its own characters. An argument with a special
    character (as [Ca2+], [R.1], [a|b] or [k(1]) is outside the embedding. *)
Definition arg (s : pystr) : pattern := map Lit s.

(** [str(n)] for an [int]. *)
Definition str_of_Z (n : Z) : pystr := str (NilZero.string_of_int (Z.to_int n)).

(** ** Outcomes: log, [sys.exit] and uncaught exceptions *)

Inductive exception : Type :=
| IndexError
| KeyError
| OSError
| UnboundLocalError.

Inductive failure : Type :=
| SysExit (status : Z)
| Raise (e : exception).

(** One line printed by [_errorReport] (the time stamp is left out). *)
Record report : Type := Report {
  r_file : pystr;
  r_text : pystr;
  r_fatal : bool
}.

(** ** The class [Copasi] *)

Record Copasi : Type := MkCopasi {
  filename : pystr;
  content : pystr;
  version : option pystr
}.

(** A method: reads and updates [self], writes to the log, may stop. *)
Definition M (A : Type) : Type :=
  Copasi -> list report * (failure + A * Copasi).

Definition ret {A} (a : A) : M A := fun self => ([], inr (a, self)).

Definition bind {A B} (m : M A) (f : A -> M B) : M B :=
  fun self =>
    match m self with
    | (log, inl e) => (log, inl e)
    | (log, inr (a, self')) =>
        let '(log', r) := f a self' in (log ++ log', r)
    end.

Notation "x <- m ;; f" := (bind m (fun x => f))
  (at level 100, m at next level, right associativity).
Notation "m ;;; f" := (bind m (fun _ => f))
  (at level 100, right associativity).

Definition get_self : M Copasi := fun self => ([], inr (self, self)).

Definition raise {A} (e : exception) : M A := fun _ => ([], inl (Raise e)).

Definition set_content (c : pystr) : M unit :=
  fun self => ([], inr (tt, MkCopasi (filename self) c (version self))).

Definition set_version (v : option pystr) : M unit :=
  fun self => ([], inr (tt, MkCopasi (filename self) (content self) v)).

Definition set_filename (f : pystr) : M unit :=
  fun self => ([], inr (tt, MkCopasi f (content self) (version self))).

Definition when (b : bool) (m : M unit) : M unit := if b then m else ret tt.

Definition testedVersions : list pystr :=
  [str "4.14 (Build 89)"; str "4.15 (Build 95)"].

(* The characters kept are those of an ASCII name, see [isalnum]. *)
Definition _getValidFilename (filename : pystr) : pystr :=
  let keepcharacters := str "._/" in
  List.filter (fun c => isalnum c || existsb (Ascii.eqb c) keepcharacters) filename.

(** [_errorReport(text, fatal)]: print, then [sys.exit(1)] when fatal. *)
Definition _errorReport (text : pystr) (fatal : bool) : M unit :=
  fun self =>
    ([Report (filename self) text fatal],
     if fatal then inl (SysExit 1) else inr (tt, self)).

Definition not_nl (c : ascii) : bool := not_char nl c.

Definition version_re : pattern :=
  lits "<!-- generated with COPASI " ++
  [GOpen; Rep true (fun c => is_digit c || is_char "." c) 1] ++
  lits " (Build " ++ [Rep true is_digit 1; Lit ")"; GClose] ++
  lits " (http://www" ++ [One not_nl] ++ lits "copasi" ++ [One not_nl] ++
  lits "org)".

Definition getVersion : M (option pystr) :=
  self <- get_self ;;
  let reResult := re_search version_re (content self) in
  match reResult with
  | Some caps => ret (Some (nth 0 caps []))
  | None =>
      _errorReport (str "The version of the Copasi file could not be determined.") false ;;;
      ret None
  end.

Definition checkVersion : M bool :=
  self <- get_self ;;
  ret (match version self with
       | Some v => bool_decide (v ∈ testedVersions)
       | None => false
       end).

(** [open(...).read()]: [disk] gives the text of a readable file, [None]
    stands for an [OSError] (the report then also carries the text of the
    exception, which is left out). *)
Definition openCopasiFile (disk : pystr -> option pystr) : M pystr :=
  self <- get_self ;;
  match disk (filename self) with
  | Some text => ret text
  | None =>
      _errorReport (str "An OS Error was raised while reading the input file.") true ;;;
      ret []
  end.

Definition show_version (v : option pystr) : pystr :=
  match v with Some s => s | None => str "None" end.

Definition ends_with (suffix s : pystr) : bool :=
  starts_with (rev suffix) (rev s).

Definition __init__ (disk : pystr -> option pystr) (filename : pystr) : M unit :=
  set_filename filename ;;;
  when (negb (ends_with (str ".cps") filename))
       (set_filename (filename ++ str ".cps")) ;;;
  text <- openCopasiFile disk ;;
  set_content text ;;;
  v <- getVersion ;;
  set_version v ;;;
  ok <- checkVersion ;;
  when (negb ok)
       (_errorReport (str "The Copasi file version (" ++ show_version v ++
                      str ") is not supported.") false).

(** [Copasi(filename)]. *)
Definition new_Copasi (disk : pystr -> option pystr) (filename : pystr)
    : list report * (failure + Copasi) :=
  match __init__ disk filename (MkCopasi [] [] None) with
  | (log, inl e) => (log, inl e)
  | (log, inr (_, self)) => (log, inr self)
  end.

(** *** Name resolution *)

Definition digit_val (c : ascii) : Z := Z.of_nat (code c - 48).

(** The digits of an [int] literal: single underscores may separate digits. *)
Fixpoint int_digits (acc : Z) (after_digit : bool) (s : pystr) : option Z :=
  match s with
  | [] => if after_digit then Some acc else None
  | c :: s' =>
      if is_digit c then int_digits (10 * acc + digit_val c) true s'
      else if Ascii.eqb c "_" && after_digit then
        match s' with
        | d :: _ => if is_digit d then int_digits acc false s' else None
        | [] => None
        end
      else None
  end.

(** The white space [int] passes over in ASCII text: tab, newline, vertical
    tab, form feed, carriage return and the space. *)
Definition is_c_space (c : ascii) : bool := between 9 13 c || (code c =? 32).

(** The bound the interpreter puts on the number of digits of a decimal
    numeral ([sys.int_info.default_max_str_digits]). *)
Definition max_str_digits : nat := 4300.

(** [int(s)] for an ASCII string: [None] stands for [ValueError]. Surrounding
    white space and a sign are accepted; a numeral of more than
    [max_str_digits] digits is refused. *)
Definition py_int (s : pystr) : option Z :=
  let body := strip_cls is_c_space s in
  if max_str_digits <? length (List.filter is_digit body) then None
  else
    match body with
    | "+"%char :: r => int_digits 0 false r
    | "-"%char :: r => Z.opp <$> int_digits 0 false r
    | r => int_digits 0 false r
    end.

(** [l.index(x)] when [x in l]. *)
Fixpoint index_of (x : pystr) (l : list pystr) : option nat :=
  match l with
  | [] => None
  | y :: l' => if pystr_eqb y x then Some 0 else S <$> index_of x l'
  end.

Fixpoint turnToNumbers (mylist referenceList : list pystr) : M (list Z) :=
  match mylist with
  | [] => ret []
  | x :: rest =>
      n <- match py_int x with
           | Some z => ret z
           | None =>
               match index_of x referenceList with
               | Some i => ret (Z.of_nat i)
               | None =>
                   _errorReport (qstr "The element '" ++ x ++
                                 qstr "' was not found.") true ;;;
                   ret 0%Z
               end
           end ;;
      ns <- turnToNumbers rest referenceList ;;
      ret (n :: ns)
  end.

(** *** Read accessors *)

Definition lines (text : pystr) : list pystr := split_on nl text.

Definition compartment_re : pattern :=
  qlits "key='" ++ [GOpen] ++ lits "Compartment_" ++
  [Rep true is_digit 1; GClose] ++ qlits "' name='" ++
  [GOpen; Rep true (not_char dq) 1; GClose; Lit dq].

Definition compartment_step (compartments : gmap pystr pystr) (line : pystr)
    : gmap pystr pystr :=
  if contains (str "<Compartment") line then
    match re_search compartment_re line with
    | Some caps => <[nth 0 caps [] := nth 1 caps []]> compartments
    | None => compartments
    end
  else compartments.

Definition compartments_of (text : pystr) : gmap pystr pystr :=
  foldl compartment_step ∅ (lines text).

Definition getCompartments : M (gmap pystr pystr) :=
  self <- get_self ;;
  ret (compartments_of (content self)).

Definition metabolite_re : pattern :=
  qlits "key='Metabolite_" ++ [GOpen; Rep true is_digit 1; GClose] ++
  qlits "' name='" ++ [GOpen; Rep true (not_char dq) 1; GClose] ++
  qlits "' simulationType='reactions' compartment='" ++
  [GOpen] ++ lits "Compartment_" ++ [Rep true is_digit 1; GClose; Lit dq].

Definition reference_re : pattern :=
  qlits "objectReference='Metabolite_" ++
  [GOpen; Rep true is_digit 1; GClose; Lit dq].

(** The loop state of [getMetabolites]: [metaBuffer] and [metabolites]. *)
Definition metabolite_step (appendComp : bool)
    (compartments : gmap pystr pystr)
    (st : gmap pystr pystr * list pystr) (line : pystr)
    : exception + gmap pystr pystr * list pystr :=
  let '(metaBuffer, metabolites) := st in
  if contains (str "<Metabolite") line then
    match re_search metabolite_re line with
    | Some caps =>
        if appendComp then
          match compartments !! nth 2 caps [] with
          | Some comp =>
              inr (<[nth 0 caps [] := nth 1 caps [] ++ str "_" ++ comp]> metaBuffer,
                   metabolites)
          | None => inl KeyError
          end
        else inr (<[nth 0 caps [] := nth 1 caps []]> metaBuffer, metabolites)
    | None => inr st
    end
  else if contains (str "<StateTemplateVariable") line then
    match re_search reference_re line with
    | Some caps =>
        match metaBuffer !! nth 0 caps [] with
        | Some name => inr (metaBuffer, metabolites ++ [name])
        | None => inr st
        end
    | None => inr st
    end
  else inr st.

(** A [for] loop over lines whose body may raise. *)
Fixpoint for_each {S : Type} (body : S -> pystr -> exception + S) (st : S)
    (ls : list pystr) : exception + S :=
  match ls with
  | [] => inr st
  | l :: ls' =>
      match body st l with
      | inl e => inl e
      | inr st' => for_each body st' ls'
      end
  end.

Definition metabolites_of (text : pystr) : exception + list pystr :=
  let compartments := compartments_of text in
  let appendComp := 1 <? size compartments in
  match for_each (metabolite_step appendComp compartments) (∅, []) (lines text) with
  | inl e => inl e
  | inr (_, metabolites) => inr metabolites
  end.

Definition getMetabolites : M (list pystr) :=
  self <- get_self ;;
  match metabolites_of (content self) with
  | inl e => raise e
  | inr metabolites => ret metabolites
  end.

Definition title_re : pattern :=
  qlits "name='" ++ [GOpen; Rep true (not_char dq) 1; GClose; Lit dq].

(** The loop of [getTitle]: it leaves at the first line with [<Model ];
    when no line has it, [title] was never bound at the [return]. *)
Fixpoint title_loop (ls : list pystr) : M pystr :=
  match ls with
  | [] => raise UnboundLocalError
  | line :: ls' =>
      if contains (str "<Model ") line then
        match re_search title_re line with
        | None =>
            _errorReport (str "I could not find a title.") false ;;;
            ret (str "!No title found!")
        | Some caps => ret (nth 0 caps [])
        end
      else title_loop ls'
  end.

Definition getTitle : M pystr :=
  self <- get_self ;;
  title_loop (lines (content self)).

(** *** Mutators *)

Definition MCAOpti_re : pattern :=
  [Lit "["; Rep true is_digit 0; Lit "]"; Lit "["; Rep true is_digit 0; Lit "]"].

Definition setMCAOptiParameters (objleft objright : Z) : M unit :=
  self <- get_self ;;
  let reBuffer :=
    subn MCAOpti_re
         [TText (str "[" ++ str_of_Z objleft ++ str "][" ++ str_of_Z objright ++ str "]")]
         (content self) in
  (if snd reBuffer =? 0 then
     _errorReport (str "The optimization targets could not be replaced. The Copasi file is probably not configured for MCA optimization. Please see, if you chose the correct Copasi file and if it is configured correctly for MCA.") true
   else if 1 <? snd reBuffer then
     _errorReport (str "There were more than one objectives that were changed.") false
   else ret tt) ;;;
  set_content (fst reBuffer).

Definition OptiMinMax_re : pattern :=
  qlits "<Parameter name='Maximize' type='bool' value='" ++
  [One is_digit] ++ qlits "'/>".

Definition setOptiMinMax (minimize warn : bool) : M unit :=
  self <- get_self ;;
  let reBuffer :=
    subn OptiMinMax_re
         [TText (qstr "<Parameter name='Maximize' type='bool' value='" ++
                 str_of_Z (Z.b2z (negb minimize)) ++ qstr "'/>")]
         (content self) in
  (if snd reBuffer =? 0 then
     _errorReport (str "The setting whether to minimize or maximize the target could not be set.") true
   else if (1 <? snd reBuffer) && warn then
     _errorReport (str "The setting whether to minimize or maximize the target was changed multiple times.") false
   else ret tt) ;;;
  set_content (fst reBuffer).

Definition types : gmap pystr pystr :=
  list_to_map
    [(str "CCC", str "Scaled concentration control coefficients");
     (str "FCC", str "Scaled flux control coefficients");
     (str "E", str "Scaled elasticities");
     (str "uCCC", str "Unscaled concentration control coefficients");
     (str "uFCC", str "Unscaled flux control coefficients");
     (str "uE", str "Unscaled elasticities")].

Definition TargetType_re : pattern :=
  lits "Array=" ++
  [Rep true (not_char "[") 1; Lit "["; GOpen; Rep true is_digit 1; GClose;
   Lit "]"; Lit "["; GOpen; Rep true is_digit 1; GClose; Lit "]"].

Definition setOptimizationTargetType (optiType : pystr) : M unit :=
  self <- get_self ;;
  match types !! optiType with
  | None =>
      _errorReport (qstr "The optimization target type '" ++ optiType ++
                    qstr "' is no valid target type") true
  | Some long =>
      let reBuffer :=
        subn TargetType_re
             [TText (str "Array=" ++ long ++ str "["); TGroup 1; TText (str "][");
              TGroup 2; TText (str "]")]
             (content self) in
      (if snd reBuffer =? 0 then
         _errorReport (str "The optimization target type could not be set. The Copasi file is probably not configured for MCA optimization.") true
       else if 1 <? snd reBuffer then
         _errorReport (str "There were more than one target types that were changed.") false
       else ret tt) ;;;
      set_content (fst reBuffer)
  end.

Definition Method_re : pattern :=
  lits "<Task " ++ [GOpen; Rep true (not_char "n") 1; GClose] ++
  qlits " name='Optimization'" ++ [GOpen; Rep false any_char 1; GClose] ++
  lits "<Method " ++ [Rep false any_char 1] ++ lits "</Method>".

Definition indent (n : nat) : pystr := repeat " "%char n.

Definition method_line (n : nat) (s : string) : pystr := [nl] ++ indent n ++ qstr s.

Definition Method_EP : template :=
  [TText (str "<Task "); TGroup 1; TText (qstr " name='Optimization'"); TGroup 2;
   TText (qstr "<Method name='Evolutionary Programming' type='EvolutionaryProgram'>" ++
          method_line 8 "<Parameter name='Number of Generations' type='unsignedInteger' value='200'/>" ++
          method_line 8 "<Parameter name='Population Size' type='unsignedInteger' value='40'/>" ++
          method_line 8 "<Parameter name='Random Number Generator' type='unsignedInteger' value='1'/>" ++
          method_line 8 "<Parameter name='Seed' type='unsignedInteger' value='0'/>" ++
          method_line 6 "</Method>")].

Definition Method_PS : template :=
  [TText (str "<Task "); TGroup 1; TText (qstr " name='Optimization'"); TGroup 2;
   TText (qstr "<Method name='Particle Swarm' type='ParticleSwarm'>" ++
          method_line 8 "<Parameter name='Iteration Limit' type='unsignedInteger' value='2000'/>" ++
          method_line 8 "<Parameter name='Swarm Size' type='unsignedInteger' value='50'/>" ++
          method_line 8 "<Parameter name='Std. Deviation' type='unsignedFloat' value='1e-06'/>" ++
          method_line 8 "<Parameter name='Random Number Generator' type='unsignedInteger' value='1'/>" ++
          method_line 8 "<Parameter name='Seed' type='unsignedInteger' value='0'/>" ++
          method_line 6 "</Method>")].

Definition setOptimizationMethod (method : pystr) : M unit :=
  self <- get_self ;;
  let toSearch := Method_re in
  toReplace <-
    (if pystr_eqb method (str "EP") then ret Method_EP
     else if pystr_eqb method (str "PS") then ret Method_PS
     else
       _errorReport (str "Optimization method " ++ method ++ str " not implemented") true ;;;
       ret []) ;;
  let reBuffer := subn toSearch toReplace (content self) in
  (if snd reBuffer =? 0 then
     _errorReport (str "The optimization method could not be changed to " ++ method ++
                   str " in " ++ filename self ++ str ".") true
   else if 1 <? snd reBuffer then
     _errorReport (str "The optimization method was changed to " ++ method ++
                   str " more than once in " ++ filename self ++ str ".") true
   else ret tt) ;;;
  set_content (fst reBuffer).

Definition TaskToMCA_re : pattern :=
  qlits "<Parameter name='Subtask' type='cn' value='CN=Root,Vector=TaskList[" ++
  [Rep true (not_char "]") 1; Lit "]"] ++ qlits "'/>".

Definition setTaskToMCA : M unit :=
  self <- get_self ;;
  let reBuffer :=
    subn TaskToMCA_re
         [TText (qstr "<Parameter name='Subtask' type='cn' value='CN=Root,Vector=TaskList[Metabolic Control Analysis]'/>")]
         (content self) in
  (if snd reBuffer =? 0 then
     _errorReport (str "The target could not be set to MCA.") true
   else if 1 <? snd reBuffer then
     _errorReport (str "The optimization target was changed to MCA more than once.") false
   else ret tt) ;;;
  set_content (fst reBuffer).

Definition ReportFileName_re : pattern :=
  qlits "target='" ++ [Rep true (not_char dq) 1; Lit dq].

Definition setReportFileName (reportFile : pystr) (warn : bool) : M unit :=
  self <- get_self ;;
  let reportFile := _getValidFilename reportFile in
  let reBuffer :=
    subn ReportFileName_re
         [TText (qstr "target='" ++ reportFile ++ [dq])]
         (content self) in
  (if snd reBuffer =? 0 then
     _errorReport (str "The output filename could not be changed.") true
   else if (1 <? snd reBuffer) && warn then
     _errorReport (str "The output filename was changed on several occurances.") false
   else ret tt) ;;;
  set_content (fst reBuffer).

Definition spaces1 : item := Rep true is_space 1.
Definition tag : pattern := [Lit "<"; Rep true (not_char ">") 1; Lit ">"].
Definition value_attr : pattern := [Rep true (not_char dq) 1] ++ qlits "'/>".

Definition OptimizationItem_re (name : pystr) (parameter : option pystr) : pattern :=
  qlits "<Parameter name='LowerBound' type='cn' value='" ++ value_attr ++
  [spaces1] ++
  qlits "<Parameter name='ObjectCN' type='cn' value='" ++
  match parameter with
  | None =>
      [GOpen; Rep true not_nl 1; GClose; Lit "["] ++ arg name ++
      [Lit "]"; GOpen; Rep true not_nl 1; GClose]
  | Some parameter =>
      [GOpen; Rep true (not_char "[") 1; GClose; Lit "["] ++ arg name ++
      [Lit "]"; GOpen; Rep true (not_char dq) 1; GClose] ++
      lits "Parameter=" ++ arg parameter ++
      [GOpen; Rep true (not_char dq) 1; GClose]
  end ++
  qlits "'/>" ++ [spaces1] ++
  qlits "<Parameter name='StartValue' type='float' value='" ++ value_attr ++
  [spaces1] ++
  qlits "<Parameter name='UpperBound' type='cn' value='" ++ value_attr.

(** The replacement of [setOptimizationItem]. With a parameter, the piece
    after it is not a raw string in the source: its [\3] is the character
    with code 3, not a group reference. *)
Definition OptimizationItem_repl (name lower start upper : pystr)
    (parameter : option pystr) : template :=
  [TText (qstr "<Parameter name='LowerBound' type='cn' value='" ++ lower ++
          qstr "'/>" ++ [nl] ++ indent 12 ++
          qstr "<Parameter name='ObjectCN' type='cn' value='");
   TGroup 1; TText (str "[" ++ name ++ str "]"); TGroup 2] ++
  match parameter with
  | None => []
  | Some parameter =>
      [TText (str "Parameter=" ++ parameter ++ [ascii_of_nat 3])]
  end ++
  [TText (qstr "'/>" ++ [nl] ++ indent 12 ++
          qstr "<Parameter name='StartValue' type='float' value='" ++ start ++
          qstr "'/>" ++ [nl] ++ indent 12 ++
          qstr "<Parameter name='UpperBound' type='cn' value='" ++ upper ++
          qstr "'/>")].

Definition setOptimizationItem (name lower start upper : pystr)
    (parameter : option pystr) : M unit :=
  self <- get_self ;;
  let toSearch := OptimizationItem_re name parameter in
  let toReplace := OptimizationItem_repl name lower start upper parameter in
  let reBuffer := subn toSearch toReplace (content self) in
  (if snd reBuffer =? 0 then
     _errorReport (str "The item " ++ name ++ str " could not be changed.") true
   else if 1 <? snd reBuffer then
     _errorReport (str "The item " ++ name ++ str " was changed on several occurances.") false
   else ret tt) ;;;
  set_content (fst reBuffer).

Definition delOptimizationItem_re (name : pystr) (parameter : option pystr)
    : pattern :=
  [spaces1] ++ qlits "<ParameterGroup name='OptimizationItem'>" ++
  [spaces1] ++ tag ++ [spaces1] ++
  qlits "<Parameter name='ObjectCN' type='cn' value='" ++
  [Rep true (not_char "[") 1; Lit "["] ++ arg name ++
  [Lit "]"; Rep true (not_char dq) 1] ++
  match parameter with
  | None => []
  | Some parameter =>
      lits "Parameter=" ++ arg parameter ++ [Rep true (not_char dq) 1]
  end ++
  qlits "'/>" ++ [spaces1] ++ tag ++ [spaces1] ++ tag ++ [spaces1] ++
  lits "</ParameterGroup>".

Definition delOptimizationItem (name : pystr) (parameter : option pystr)
    : M unit :=
  self <- get_self ;;
  let toSearch := delOptimizationItem_re name parameter in
  let reBuffer := subn toSearch [] (content self) in
  let p := match parameter with
           | Some parameter => str ":" ++ parameter
           | None => []
           end in
  (if snd reBuffer =? 0 then
     _errorReport (qstr "The item '" ++ name ++ p ++
                   qstr "' to delete could not be found.") true
   else if 1 <? snd reBuffer then
     _errorReport (qstr "The item '" ++ name ++ p ++
                   qstr "' was deleted on several occurances.") true
   else ret tt) ;;;
  set_content (fst reBuffer).

Definition Parameter_re (reaction parameter : pystr) : pattern :=
  lits "Reactions[" ++ arg reaction ++ lits "],ParameterGroup=" ++
  [GOpen; Rep true (not_char ",") 1; GClose] ++ lits ",Parameter=" ++
  arg parameter ++ qlits "' value='" ++ [Rep true (not_char dq) 1; Lit dq].

(** [value] is the text of [str(value)]. *)
Definition setParameter (reaction parameter value : pystr) : M unit :=
  self <- get_self ;;
  let reBuffer :=
    subn (Parameter_re reaction parameter)
         [TText (str "Reactions[" ++ reaction ++ str "],ParameterGroup=");
          TGroup 1;
          TText (str ",Parameter=" ++ parameter ++ qstr "' value='" ++ value ++ [dq])]
         (content self) in
  (if snd reBuffer =? 0 then
     _errorReport (str "The parameter " ++ parameter ++ str " in reaction " ++
                   reaction ++ str " could not be found.") false
   else if 1 <? snd reBuffer then
     _errorReport (str "The parameter " ++ parameter ++ str " in reaction " ++
                   reaction ++ str " was found multiple times. All were replaced.") false
   else ret tt) ;;;
  set_content (fst reBuffer).

(** Running a method on an object. *)
Definition run {A} (m : M A) (self : Copasi) := m self.

Definition is_fatal {A} (r : list report * (failure + A)) : Prop :=
  snd r = inl (SysExit 1).

(** ** [extractFluxConcFromResults.py] *)

(** [conc_dict] and [flux_dict]: entity name, then column name, to value. *)
Abbreviation table := (gmap pystr (gmap pystr pystr)).

(** [if name not in d: d[name] = {}] followed by [d[name][fn] = v]. *)
Definition put (d : table) (name fn v : pystr) : table :=
  <[name := <[fn := v]> (default ∅ (d !! name))]> d.

(** The variable [active]. *)
Inductive mode : Type :=
| Idle      (* '' *)
| Conc      (* 'conc' *)
| Flux.     (* 'flux' *)

Definition steady_marker : pystr :=
  str "A steady state with given resolution was found.".

Definition conc_header : pystr := str "Species" ++ [tab] ++ str "Concentration".
Definition flux_header : pystr := str "Reaction" ++ [tab] ++ str "Flux".

(** The loop of [_get_values_from_single_file] from the state [active]. *)
Fixpoint scan_lines (fn : pystr) (active : mode) (conc_dict flux_dict : table)
    (ls : list pystr) : exception + table * table :=
  match ls with
  | [] => inr (conc_dict, flux_dict)
  | raw :: ls' =>
      let line := strip raw in
      match active with
      | Conc =>
          match line with
          | [] => scan_lines fn Idle conc_dict flux_dict ls'
          | _ =>
              match split_on tab line with
              | name :: conc :: _ =>
                  scan_lines fn Conc (put conc_dict name fn conc) flux_dict ls'
              | _ => inl IndexError
              end
          end
      | Flux =>
          match line with
          | [] => inr (conc_dict, flux_dict)
          | _ =>
              match split_on tab line with
              | name :: flux :: _ =>
                  scan_lines fn Flux conc_dict (put flux_dict name fn flux) ls'
              | _ => inl IndexError
              end
          end
      | Idle =>
          if starts_with conc_header line then
            scan_lines fn Conc conc_dict flux_dict ls'
          else if starts_with flux_header line then
            scan_lines fn Flux conc_dict flux_dict ls'
          else scan_lines fn Idle conc_dict flux_dict ls'
      end
  end.

Definition _get_values_from_single_file (f fn : pystr)
    (conc_dict flux_dict : table) : exception + table * table :=
  if negb (starts_with steady_marker f) then inr (conc_dict, flux_dict)
  else scan_lines fn Idle conc_dict flux_dict (lines f).

(** [os.path.basename]. *)
Definition basename (path : pystr) : pystr :=
  default [] (last (split_on "/" path)).

(** Is there a character other than a dot in [s]? *)
Definition has_non_dot (s : pystr) : bool := existsb (not_char ".") s.

(** [os.path.splitext(p)[0]] of a base name: cut at the last dot, unless
    only dots come before it. *)
Definition splitext_root (p : pystr) : pystr :=
  match rev (split_on "." p) with
  | _ext :: before =>
      let root := join (str ".") (rev before) in
      if has_non_dot root then root else p
  | [] => p
  end.

Definition column_name (fn : pystr) : pystr := splitext_root (basename fn).

(** Python compares strings by code point, a proper prefix being smaller. *)
Fixpoint str_leb (a b : pystr) : bool :=
  match a, b with
  | [], _ => true
  | _ :: _, [] => false
  | x :: a', y :: b' =>
      if code x <? code y then true
      else if code y <? code x then false
      else str_leb a' b'
  end.

Definition str_le (a b : pystr) : Prop := str_leb a b = true.

Global Instance str_le_dec : RelDecision str_le.
Proof. intros a b. unfold str_le. apply _. Defined.

(** [sorted(d.keys())]. *)
Definition sorted_keys {V} (d : gmap pystr V) : list pystr :=
  merge_sort str_le (elements (dom d)).

Definition na : pystr := str "na".

(** [d[entity][name]], or ['na'] on [KeyError]. *)
Definition cell (d : table) (entity name : pystr) : pystr :=
  match d !! entity with
  | Some r => default na (r !! name)
  | None => na
  end.

Definition table_row (d : table) (names : list pystr) (entity : pystr)
    : list pystr :=
  entity :: map (cell d entity) names.

Definition table_list (d : table) (names : list pystr) : list pystr :=
  (tab :: join [tab] names) ::
  map (fun entity => join [tab] (table_row d names entity)) (sorted_keys d).

(** The first loop of [get_tables]: read every file and collect. *)
Fixpoint collect (disk : pystr -> option pystr) (filenames : list pystr)
    (conc_dict flux_dict : table) : exception + table * table :=
  match filenames with
  | [] => inr (conc_dict, flux_dict)
  | fn :: rest =>
      match disk fn with
      | None => inl OSError
      | Some text =>
          match _get_values_from_single_file text (column_name fn)
                  conc_dict flux_dict with
          | inl e => inl e
          | inr (conc_dict', flux_dict') => collect disk rest conc_dict' flux_dict'
          end
      end
  end.

Definition get_tables (disk : pystr -> option pystr) (filenames : list pystr)
    : exception + pystr * pystr :=
  let names := map column_name filenames in
  match collect disk filenames ∅ ∅ with
  | inl e => inl e
  | inr (conc_dict, flux_dict) =>
      inr (join [nl] (table_list conc_dict names),
           join [nl] (table_list flux_dict names))
  end.

(** ** [extractMCAOptimizationResults.py] *)

(** [s.replace(old, new)] for a non-empty [old]; [skip] counts the characters
    of a replaced occurrence still to pass over. *)
Fixpoint replace_from (old new : pystr) (skip : nat) (s : pystr) : pystr :=
  match s with
  | [] => []
  | c :: s' =>
      match skip with
      | S k => replace_from old new k s'
      | 0 =>
          if starts_with old s then new ++ replace_from old new (length old - 1) s'
          else c :: replace_from old new 0 s'
      end
  end.

Definition py_replace (old new s : pystr) : pystr := replace_from old new 0 s.

(** The lines of a text file, each with its newline. *)
Fixpoint file_lines (text : pystr) : list pystr :=
  match text with
  | [] => []
  | c :: text' =>
      if Ascii.eqb c nl then [nl] :: file_lines text'
      else match file_lines text' with
           | [] => [[c]]
           | l :: ls => (c :: l) :: ls
           end
  end.

Definition objective_marker : pystr := str "Objective Function Value:".

(** [results]: scan id to the lines of its summary. *)
Abbreviation results_dict := (gmap pystr (list pystr)).

(** The inner loop over the lines of one file. *)
Fixpoint record_lines (scan row column : pystr) (results : results_dict)
    (ls : list pystr) : exception + results_dict :=
  match ls with
  | [] => inr results
  | line :: ls' =>
      if contains objective_marker line then
        match split_on tab line with
        | _ :: field :: _ =>
            let value := strip field in
            record_lines scan row column
              (<[scan := default [] (results !! scan) ++
                         [join [tab] [row; column; value]]]> results) ls'
        | _ => inl IndexError
        end
      else record_lines scan row column results ls'
  end.

(** The body of the loop over the file names. *)
Definition record_file (disk : pystr -> option pystr) (results : results_dict)
    (filename : pystr) : exception + results_dict :=
  match disk filename with
  | None => inl OSError
  | Some text =>
      let basefile := py_replace (str ".txt") [] filename in
      match rev (split_on "_" basefile) with
      | column :: row :: reactions =>
          let scan := join (str "_") (rev reactions) in
          record_lines scan row column results (file_lines text)
      | _ => inl IndexError
      end
  end.

Fixpoint record_files (disk : pystr -> option pystr) (results : results_dict)
    (filenames : list pystr) : exception + results_dict :=
  match filenames with
  | [] => inr results
  | filename :: rest =>
      match record_file disk results filename with
      | inl e => inl e
      | inr results' => record_files disk results' rest
      end
  end.

(** The files written, in the order they are written: name and text. *)
Definition write_summaries (results : results_dict) : list (pystr * pystr) :=
  map (fun scan => (scan ++ str "_summary.txt",
                    join [nl] (default [] (results !! scan))))
      (sorted_keys results).

(** The script, from [sys.argv[1:]]. *)
Definition extractMCAOptimizationResults (disk : pystr -> option pystr)
    (args : list pystr) : failure + list (pystr * pystr) :=
  match args with
  | [] => inl (SysExit 0)
  | _ =>
      match record_files disk ∅ args with
      | inl e => inl (Raise e)
      | inr results => inr (write_summaries results)
      end
  end.

(** ** Auxiliary notions of the statements *)

(** One step of the scan of [subn]. *)
Definition subn_step (p : pattern) (t : template) (c : ascii) (s : pystr)
    : pystr * nat :=
  match re_match p (c :: s) with
  | Some (caps, rest) =>
      if length rest <? length (c :: s) then
        (expand t caps ++ fst (subn p t rest), S (snd (subn p t rest)))
      else (c :: fst (subn p t s), snd (subn p t s))
  | None => (c :: fst (subn p t s), snd (subn p t s))
  end.

(** The number of matches [subn] finds in a text. *)
Definition count_matches (p : pattern) (s : pystr) : nat := snd (subn p [] s).

(** The name [__init__] opens: [.cps] is appended when it is missing. *)
Definition cps_name (filename : pystr) : pystr :=
  if ends_with (str ".cps") filename then filename else filename ++ str ".cps".

(** The version comment does not occur in a text. *)
Definition version_marker_absent (text : pystr) : Prop :=
  re_search version_re text = None.

(** A disk on which every file is empty. *)
Definition empty_disk (fn : pystr) : option pystr := Some [].

(** A numeric string: [int] accepts it. *)
Definition numeric (x : pystr) : Prop := is_Some (py_int x).

(** [n] is the rank of the first occurrence of [x] in [l]. *)
Definition first_occurrence (l : list pystr) (x : pystr) (n : Z) : Prop :=
  exists i : nat,
    n = Z.of_nat i /\ l !! i = Some x /\ forall j, j < i -> l !! j <> Some x.

(** What [turnToNumbers] makes of one element. *)
Definition resolved (referenceList : list pystr) (x : pystr) (n : Z) : Prop :=
  py_int x = Some n \/ (py_int x = None /\ first_occurrence referenceList x n).

(** The object after a mutator has replaced the content. *)
Definition with_content (self : Copasi) (text : pystr) : Copasi :=
  MkCopasi (filename self) text (version self).

(** A method returns after logging exactly one problem, not fatal, and
    leaves the content [text]. *)
Definition warns_and_sets {A} (r : list report * (failure + A * Copasi))
    (self : Copasi) (text : pystr) : Prop :=
  exists (msg : pystr) (a : A),
    r = ([Report (filename self) msg false], inr (a, with_content self text)).

Definition MCAOpti_repl (objleft objright : Z) : template :=
  [TText (str "[" ++ str_of_Z objleft ++ str "][" ++ str_of_Z objright ++ str "]")].

Definition TargetType_repl (long : pystr) : template :=
  [TText (str "Array=" ++ long ++ str "["); TGroup 1; TText (str "][");
   TGroup 2; TText (str "]")].

(** A document in which the target, the target type and the optimization
    item [k1] each occur twice. *)
Definition item_k1 : pystr :=
  [nl] ++ qstr "  <ParameterGroup name='OptimizationItem'>" ++
  [nl] ++ qstr "    <Parameter name='LowerBound' type='cn' value='0'/>" ++
  [nl] ++ qstr "    <Parameter name='ObjectCN' type='cn' value='CN=Root,Vector=Values[k1],Reference=InitialValue'/>" ++
  [nl] ++ qstr "    <Parameter name='StartValue' type='float' value='1'/>" ++
  [nl] ++ qstr "    <Parameter name='UpperBound' type='cn' value='2'/>" ++
  [nl] ++ qstr "  </ParameterGroup>".

Definition twice_doc : Copasi :=
  MkCopasi (str "model.cps")
    (qstr "<Parameter name='ObjectiveExpression' value='Array=Scaled flux control coefficients[1][2]'/>" ++
     [nl] ++
     qstr "<Parameter name='ObjectiveExpression' value='Array=Scaled elasticities[3][4]'/>" ++
     item_k1 ++ item_k1)
    None.

(** A document without any of the fields the mutators look for. *)
Definition bare_doc : Copasi := MkCopasi (str "model.cps") (str "<COPASI/>") None.

(** The longest prefix of characters of a class, and what follows it. *)
Fixpoint span_cls (cls : ascii -> bool) (s : pystr) : pystr * pystr :=
  match s with
  | c :: s' =>
      if cls c then let '(v, rest) := span_cls cls s' in (c :: v, rest)
      else ([], s)
  | [] => ([], [])
  end.

(** [s] without its prefix [p], when it begins with [p]. *)
Fixpoint strip_prefix (p s : pystr) : option pystr :=
  match p with
  | [] => Some s
  | a :: p' =>
      match s with
      | c :: s' => if Ascii.eqb c a then strip_prefix p' s' else None
      | [] => None
      end
  end.

Definition target_prefix : pystr := qstr "target='".

(** The replacement of [setReportFileName] for a sanitized name. *)
Definition ReportFileName_repl (name : pystr) : template :=
  [TText (qstr "target='" ++ name ++ [dq])].

(** What follows the opening quote of [target=] in a match: a non-empty
    value and the closing quote. *)
Definition target_value (u : pystr) : option pystr :=
  let '(v, rest) := span_cls (not_char dq) u in
  if 1 <=? length v then
    match rest with
    | c :: r => if Ascii.eqb c dq then Some r else None
    | [] => None
    end
  else None.

(** Reading the attribute back: the value of the first [target=] attribute
    of a text, found with the pattern of [setReportFileName] and a group
    around the value. *)
Definition target_attribute_re : pattern :=
  qlits "target='" ++ [GOpen; Rep true (not_char dq) 1; GClose; Lit dq].

Definition target_attribute (text : pystr) : option pystr :=
  match re_search target_attribute_re text with
  | Some caps => Some (nth 0 caps [])
  | None => None
  end.

(** No text that begins with [target=] begins with [q] or with a non-empty
    suffix of [q]. *)
Fixpoint clashes (q : pystr) : Prop :=
  match q with
  | [] => True
  | _ :: q' =>
      (forall x, starts_with q (str "target=" ++ x) = false) /\ clashes q'
  end.

(** The content [setReportFileName] leaves for a report file name. *)
Definition renamed (reportFile text : pystr) : pystr :=
  fst (subn ReportFileName_re (ReportFileName_repl (_getValidFilename reportFile)) text).

(** A document with one report target. *)
Definition report_doc : Copasi :=
  MkCopasi (str "model.cps")
    (qstr "<Report reference='Report_9' target='out.txt' append='1'/>") None.

(** ** The ordering of metabolites, in the words of the specification *)

(** The display name made from the groups of a declaration. *)
Definition display_name (appendComp : bool) (compartments : gmap pystr pystr)
    (caps : list pystr) : pystr :=
  if appendComp then
    nth 1 caps [] ++ str "_" ++ default [] (compartments !! nth 2 caps [])
  else nth 1 caps [].

(** Pass 1, one line: the declaration of a dynamic metabolite enters the map
    from identity key to display name. *)
Definition declare (appendComp : bool) (compartments : gmap pystr pystr)
    (known : gmap pystr pystr) (line : pystr) : gmap pystr pystr :=
  if contains (str "<Metabolite") line then
    match re_search metabolite_re line with
    | Some caps => <[nth 0 caps [] := display_name appendComp compartments caps]> known
    | None => known
    end
  else known.

Definition dynamic_metabolites (text : pystr) : gmap pystr pystr :=
  let compartments := compartments_of text in
  foldl (declare (1 <? size compartments) compartments) ∅ (lines text).

(** Pass 2, one line: the identity key an entry of the state template
    refers to. *)
Definition reference_key (line : pystr) : option pystr :=
  if contains (str "<StateTemplateVariable") line then
    match re_search reference_re line with
    | Some caps => Some (nth 0 caps [])
    | None => None
    end
  else None.

Definition state_template_references (text : pystr) : list pystr :=
  omap reference_key (lines text).

(** The two passes: the display names of the referenced dynamic metabolites
    in the order of the references; a reference that is not in the map is
    passed over. *)
Definition metabolites_two_pass (text : pystr) : list pystr :=
  omap (fun key => dynamic_metabolites text !! key)
       (state_template_references text).

(** When there is more than one compartment, every dynamic metabolite is
    declared in a declared compartment. *)
Definition compartments_known (text : pystr) : Prop :=
  1 < size (compartments_of text) ->
  forall line caps,
    line ∈ lines text ->
    contains (str "<Metabolite") line = true ->
    re_search metabolite_re line = Some caps ->
    is_Some (compartments_of text !! nth 2 caps []).

(** The declarations of the metabolites come before the state template. *)
Definition declarations_first (decls refs : list pystr) : Prop :=
  Forall (fun line => contains (str "<StateTemplateVariable") line = false) decls /\
  Forall (fun line => contains (str "<Metabolite") line = false) refs.

(** A model with two compartments, two dynamic metabolites, a fixed one and
    a state template. *)
Definition model_lines : list pystr :=
  [qstr "<Compartment key='Compartment_0' name='cytosol' simulationType='fixed'>";
   qstr "<Compartment key='Compartment_1' name='mito' simulationType='fixed'>";
   qstr "<Metabolite key='Metabolite_1' name='NAD' simulationType='reactions' compartment='Compartment_0'>";
   qstr "<Metabolite key='Metabolite_2' name='ATP' simulationType='fixed' compartment='Compartment_0'>";
   qstr "<Metabolite key='Metabolite_3' name='NAD' simulationType='reactions' compartment='Compartment_1'>"].

Definition template_lines : list pystr :=
  [qstr "<StateTemplateVariable objectReference='Model_0'/>";
   qstr "<StateTemplateVariable objectReference='Metabolite_3'/>";
   qstr "<StateTemplateVariable objectReference='Metabolite_2'/>";
   qstr "<StateTemplateVariable objectReference='Metabolite_1'/>"].

Definition model_text : pystr := join [nl] (model_lines ++ template_lines).

(** The same entries with the state template before the declarations. *)
Definition template_first_text : pystr := join [nl] (template_lines ++ model_lines).

(** ** What a result file contributes *)

(** The pairs of name and value a result file gives, in the order of its
    lines: the loop of [_get_values_from_single_file] without the two
    dictionaries. *)
Fixpoint scan_values (active : mode) (ls : list pystr)
    : exception + list (pystr * pystr) * list (pystr * pystr) :=
  match ls with
  | [] => inr ([], [])
  | raw :: ls' =>
      let line := strip raw in
      match active with
      | Conc =>
          match line with
          | [] => scan_values Idle ls'
          | _ =>
              match split_on tab line with
              | name :: conc :: _ =>
                  match scan_values Conc ls' with
                  | inl e => inl e
                  | inr (concs, fluxes) => inr ((name, conc) :: concs, fluxes)
                  end
              | _ => inl IndexError
              end
          end
      | Flux =>
          match line with
          | [] => inr ([], [])
          | _ =>
              match split_on tab line with
              | name :: flux :: _ =>
                  match scan_values Flux ls' with
                  | inl e => inl e
                  | inr (concs, fluxes) => inr (concs, (name, flux) :: fluxes)
                  end
              | _ => inl IndexError
              end
          end
      | Idle =>
          if starts_with conc_header line then scan_values Conc ls'
          else if starts_with flux_header line then scan_values Flux ls'
          else scan_values Idle ls'
      end
  end.

(** A file that does not begin with the marker is not activated and gives
    nothing. *)
Definition file_values (f : pystr)
    : exception + list (pystr * pystr) * list (pystr * pystr) :=
  if negb (starts_with steady_marker f) then inr ([], [])
  else scan_values Idle (lines f).

(** The value a file contributes for an entity: that of the last line that
    names it. *)
Fixpoint value_of (values : list (pystr * pystr)) (entity : pystr)
    : option pystr :=
  match values with
  | [] => None
  | (name, v) :: rest =>
      match value_of rest entity with
      | Some x => Some x
      | None => if pystr_eqb name entity then Some v else None
      end
  end.

Definition put_all (fn : pystr) (d : table) (values : list (pystr * pystr))
    : table :=
  foldl (fun d '(name, v) => put d name fn v) d values.

(** The table after the values of several columns have been entered. *)
Definition gather (columns : list (pystr * list (pystr * pystr))) (d : table)
    : table :=
  foldl (fun d '(col, values) => put_all col d values) d columns.

(** [d[entity][col]] when both keys are there. *)
Definition lookup2 (d : table) (entity col : pystr) : option pystr :=
  d !! entity ≫= (fun row => row !! col).

(** Every file can be read and has two fields on every line of its result
    blocks; [contribs] are the values of the files. *)
Definition well_formed_results (disk : pystr -> option pystr)
    (filenames : list pystr)
    (contribs : list (list (pystr * pystr) * list (pystr * pystr))) : Prop :=
  Forall2 (fun fn c => exists text, disk fn = Some text /\ file_values text = inr c)
          filenames contribs.

(** The rows of a table, against the values the files contribute to it. *)
Definition rows_as_contributed (d : table) (filenames : list pystr)
    (values : list (list (pystr * pystr))) : Prop :=
  Sorted str_le (sorted_keys d) /\
  NoDup (sorted_keys d) /\
  (forall entity,
     entity ∈ sorted_keys d <->
     exists vs, vs ∈ values /\ is_Some (value_of vs entity)) /\
  (forall i fn vs entity,
     filenames !! i = Some fn -> values !! i = Some vs ->
     cell d entity (column_name fn) = default na (value_of vs entity)).

(** The text of a table: header, then one line for each row. *)
Definition table_text (d : table) (filenames : list pystr) : pystr :=
  join [nl]
    ((tab :: join [tab] (map column_name filenames)) ::
     map (fun entity =>
            join [tab] (entity :: map (fun fn => cell d entity (column_name fn))
                                      filenames))
         (sorted_keys d)).

(** Two result files: the first with one species and one reaction, the
    second with the species only. *)
Definition result_a : pystr :=
  join [nl]
    [steady_marker; [];
     conc_header ++ str " (mmol/l)";
     str "X" ++ [tab] ++ str "1.0"; [];
     flux_header ++ str " (mmol/s)";
     str "R1" ++ [tab] ++ str "2.0"; []].

Definition result_b : pystr :=
  join [nl]
    [steady_marker; [];
     conc_header ++ str " (mmol/l)";
     str "X" ++ [tab] ++ str "3.0"; []].

Definition disk_ab (fn : pystr) : option pystr :=
  if pystr_eqb fn (str "runs/a.txt") then Some result_a
  else if pystr_eqb fn (str "b.txt") then Some result_b
  else None.

(** Two files of the same base name in two directories; the second one is
    empty. *)
Definition disk_same_name (fn : pystr) : option pystr :=
  if pystr_eqb fn (str "run1/x.txt") then Some result_a
  else if pystr_eqb fn (str "run2/x.txt") then Some []
  else None.

(** ** What a result file of a sweep contributes *)

Definition has_marker (line : pystr) : bool := contains objective_marker line.

(** The summary line of a marked line. *)
Definition triple (row column line : pystr) : pystr :=
  join [tab] [row; column; strip (nth 1 (split_on tab line) [])].

(** [results] with the lines [new] added, in their order, at the end of the
    list of [scan]. *)
Definition append_lines (results : results_dict) (scan : pystr)
    (new : list pystr) : results_dict :=
  match new with
  | [] => results
  | _ => <[scan := default [] (results !! scan) ++ new]> results
  end.

(** Every line with the marker has a field after a tabulator. *)
Definition marked_lines_have_value (text : pystr) : Prop :=
  Forall (fun line => has_marker line = true -> 2 <= length (split_on tab line))
         (file_lines text).

(** The result files of the scenario of the specification, and a third one
    with two marked lines. *)
Definition objective_line (value : string) : pystr :=
  objective_marker ++ [tab] ++ str value ++ [nl].

Definition disk_sweep (fn : pystr) : option pystr :=
  if pystr_eqb fn (str "myscan_4_6.txt") then Some (objective_line "0.123")
  else if pystr_eqb fn (str "myscan_4_7.txt") then Some (objective_line "0.123")
  else if pystr_eqb fn (str "a_long_scan_R1_R2.txt") then
    Some (str "Optimization Result:" ++ [nl] ++
          objective_line "1e-05" ++ objective_line "1e-05")
  else None.

(** ** Further notions: what a substitution changes *)

(** [new] is [old] with one match of [p], the text [m], replaced by the
    expansion of [t]; nothing else differs. *)
Definition replaces_one (p : pattern) (t : template) (old new : pystr) : Prop :=
  exists (pre m post : pystr) (caps : list pystr),
    old = pre ++ m ++ post /\
    m <> [] /\
    re_match p (m ++ post) = Some (caps, post) /\
    new = pre ++ expand t caps ++ post.

(** The replacements of the other mutators, as they are written in them. *)
Definition OptiMinMax_repl (minimize : bool) : template :=
  [TText (qstr "<Parameter name='Maximize' type='bool' value='" ++
          str_of_Z (Z.b2z (negb minimize)) ++ qstr "'/>")].

Definition TaskToMCA_repl : template :=
  [TText (qstr "<Parameter name='Subtask' type='cn' value='CN=Root,Vector=TaskList[Metabolic Control Analysis]'/>")].

Definition Parameter_repl (reaction parameter value : pystr) : template :=
  [TText (str "Reactions[" ++ reaction ++ str "],ParameterGroup=");
   TGroup 1;
   TText (str ",Parameter=" ++ parameter ++ qstr "' value='" ++ value ++ [dq])].

(** A method returns without a report and leaves an object that differs
    from [self] in its content only, by one replaced match. *)
Definition silently_replaces_one (r : list report * (failure + unit * Copasi))
    (self : Copasi) (p : pattern) (t : template) : Prop :=
  exists text : pystr,
    r = ([], inr (tt, with_content self text)) /\
    replaces_one p t (content self) text.

(** A small model file as CopasiUI writes it: one compartment, two
    metabolites, two reactions, and an optimization task on a control
    coefficient with one optimization item. *)
Definition sample_lines : list pystr :=
  [qstr "<?xml version='1.0' encoding='UTF-8'?>";
   qstr "<!-- generated with COPASI 4.14 (Build 89) (http://www.copasi.org) at 2015-06-01 12:00:00 UTC -->";
   qstr "<COPASI xmlns='http://www.copasi.org/static/schema' versionMajor='4' versionMinor='14' versionDevel='89'>";
   qstr "  <Model key='Model_1' name='Glycolysis' simulationType='time' timeUnit='s'>";
   qstr "    <ListOfCompartments>";
   qstr "      <Compartment key='Compartment_0' name='cytosol' simulationType='fixed' dimensionality='3'>";
   qstr "      </Compartment>";
   qstr "    </ListOfCompartments>";
   qstr "    <ListOfMetabolites>";
   qstr "      <Metabolite key='Metabolite_0' name='Glc' simulationType='fixed' compartment='Compartment_0'>";
   qstr "      </Metabolite>";
   qstr "      <Metabolite key='Metabolite_1' name='G6P' simulationType='reactions' compartment='Compartment_0'>";
   qstr "      </Metabolite>";
   qstr "    </ListOfMetabolites>";
   qstr "    <ListOfReactions>";
   qstr "      <Reaction key='Reaction_0' name='HK' reversible='false' fast='false'>";
   qstr "      </Reaction>";
   qstr "      <Reaction key='Reaction_1' name='PGI' reversible='true' fast='false'>";
   qstr "      </Reaction>";
   qstr "    </ListOfReactions>";
   qstr "    <ListOfModelParameterSets activeSet='ModelParameterSet_0'>";
   qstr "      <ModelParameter cn='CN=Root,Model=Glycolysis,Vector=Reactions[HK],ParameterGroup=Parameters,Parameter=Vmax' value='0.1' type='ReactionParameter' simulationType='fixed'/>";
   qstr "    </ListOfModelParameterSets>";
   qstr "    <StateTemplate>";
   qstr "      <StateTemplateVariable objectReference='Model_1'/>";
   qstr "      <StateTemplateVariable objectReference='Metabolite_1'/>";
   qstr "      <StateTemplateVariable objectReference='Metabolite_0'/>";
   qstr "      <StateTemplateVariable objectReference='Compartment_0'/>";
   qstr "    </StateTemplate>";
   qstr "  </Model>";
   qstr "  <ListOfTasks>";
   qstr "    <Task key='Task_1' name='Optimization' type='optimization' scheduled='false' updateModel='false'>";
   qstr "      <Report reference='Report_1' target='result.txt' append='1' confirmOverwrite='0'/>";
   qstr "      <Problem>";
   qstr "        <Parameter name='Subtask' type='cn' value='CN=Root,Vector=TaskList[Steady-State]'/>";
   qstr "        <ParameterText name='ObjectiveExpression' type='expression'>";
   qstr "          &lt;CN=Root,Vector=TaskList[Metabolic Control Analysis],Method=MCA Method (Reder),Array=Scaled flux control coefficients[0][1]&gt;";
   qstr "        </ParameterText>";
   qstr "        <Parameter name='Maximize' type='bool' value='0'/>";
   qstr "        <ParameterGroup name='OptimizationItemList'>";
   qstr "          <ParameterGroup name='OptimizationItem'>";
   qstr "            <Parameter name='LowerBound' type='cn' value='0.01'/>";
   qstr "            <Parameter name='ObjectCN' type='cn' value='CN=Root,Model=Glycolysis,Vector=Values[k1],Reference=InitialValue'/>";
   qstr "            <Parameter name='StartValue' type='float' value='1'/>";
   qstr "            <Parameter name='UpperBound' type='cn' value='100'/>";
   qstr "          </ParameterGroup>";
   qstr "        </ParameterGroup>";
   qstr "      </Problem>";
   qstr "      <Method name='Random Search' type='RandomSearch'>";
   qstr "        <Parameter name='Number of Iterations' type='unsignedInteger' value='100000'/>";
   qstr "      </Method>";
   qstr "    </Task>";
   qstr "  </ListOfTasks>";
   qstr "</COPASI>"].

Definition sample_text : pystr := join [nl] sample_lines.

Definition sample_doc : Copasi :=
  MkCopasi (str "glycolysis.cps") sample_text (Some (str "4.14 (Build 89)")).

(** ** Saving, and the loop of [parallelCopasi.py] *)

(** [saveCopasiFile(filename)]: the file is written under the sanitized
    name, which is returned. [writable] tells whether a file of that name can
    be written ([OSError] otherwise, which is fatal). The embedding returns,
    with the name, the text that is written under it. *)
Definition saveCopasiFile (writable : pystr -> bool) (filename : pystr)
    : M (pystr * pystr) :=
  self <- get_self ;;
  let filename := _getValidFilename filename in
  if writable filename then ret (filename, content self)
  else
    _errorReport (str "An OS Error was raised while writing an output file.") true ;;;
    ret (filename, content self).

(** The loop of [parallelCopasi.py] from the index [m], [n] rounds: the files
    written, in their order ([execList] is the list of their names). *)
Fixpoint copy_loop (writable : pystr -> bool) (basefile : pystr) (m n : nat)
    : M (list (pystr * pystr)) :=
  match n with
  | 0 => ret []
  | S n' =>
      let outfilebase := basefile ++ str "_" ++ str_of_Z (Z.of_nat m + 1) in
      setReportFileName (outfilebase ++ str ".txt") false ;;;
      f <- saveCopasiFile writable (outfilebase ++ str ".cps") ;;
      fs <- copy_loop writable basefile (S m) n' ;;
      ret (f :: fs)
  end.

(** [parallelCopasi.py] up to the start of the copies: [infile] and
    [totNumber] are the two arguments. *)
Definition parallelCopasi_py (disk : pystr -> option pystr)
    (writable : pystr -> bool) (infile : pystr) (totNumber : Z)
    : list report * (failure + list (pystr * pystr) * Copasi) :=
  let basefile := py_replace (str ".cps") [] infile in
  match new_Copasi disk infile with
  | (log, inl e) => (log, inl e)
  | (log, inr copasi) =>
      let '(log', r) := copy_loop writable basefile 0 (Z.to_nat totNumber) copasi in
      (log ++ log', r)
  end.

(** The [k]-th copy of a text: its name and its content. *)
Definition copy_of (basefile text : pystr) (k : nat) : pystr * pystr :=
  let outfilebase := basefile ++ str "_" ++ str_of_Z (Z.of_nat k + 1) in
  (_getValidFilename (outfilebase ++ str ".cps"),
   renamed (outfilebase ++ str ".txt") text).

(** ** The other read accessors *)

Definition reaction_re : pattern :=
  qlits "key='Reaction_" ++ [Rep true is_digit 1] ++ qlits "' name='" ++
  [GOpen; Rep true (not_char dq) 1; GClose; Lit dq].

(** The loop of [getReactions] with the list [reactions] built so far. *)
Fixpoint reactions_loop (ls : list pystr) (reactions : list pystr)
    : M (list pystr) :=
  match ls with
  | [] => ret reactions
  | line :: ls' =>
      if contains (str "<Reaction") line then
        match re_search reaction_re line with
        | Some caps => reactions_loop ls' (reactions ++ [nth 0 caps []])
        | None =>
            _errorReport
              (str "There is a failure in finding reactions. This should never happen!" ++
               [nl] ++ str "'NoneType' object has no attribute 'group'") true ;;;
            reactions_loop ls' reactions
        end
      else reactions_loop ls' reactions
  end.

Definition getReactions : M (list pystr) :=
  self <- get_self ;;
  reactions_loop (lines (content self)) [].

Definition outcomes : gmap pystr pystr :=
  list_to_map
    [(str "concentration control coefficients", str "ccc");
     (str "elasticities", str "e");
     (str "flux control coefficients", str "fcc")].

Definition MCAType_re : pattern :=
  lits "caled " ++ [GOpen; Rep true (not_char "[") 1; GClose; Lit "["].

(** [getMCAType]: the [except] clause catches [AttributeError] (nothing
    found) and [IndexError]; the [KeyError] of a phrase that is not in
    [outcomes] is not caught. *)
Definition getMCAType : M (option pystr) :=
  self <- get_self ;;
  match re_search MCAType_re (content self) with
  | None => ret None
  | Some caps =>
      match outcomes !! nth 0 caps [] with
      | Some result => ret (Some result)
      | None => raise KeyError
      end
  end.

(** The lines that declare a reaction, for [getReactions]. *)
Definition reaction_lines (text : pystr) : list pystr :=
  List.filter (contains (str "<Reaction")) (lines text).

(** The key and the name a line declares a compartment with. *)
Definition compartment_decl (line : pystr) : option (pystr * pystr) :=
  if contains (str "<Compartment") line then
    match re_search compartment_re line with
    | Some caps => Some (nth 0 caps [], nth 1 caps [])
    | None => None
    end
  else None.

Definition compartment_decls (text : pystr) : list (pystr * pystr) :=
  omap compartment_decl (lines text).

(** ** [get_units] of [extractFluxConcFromResults.py] *)

Definition conc_unit_re : pattern :=
  map Lit conc_header ++ lits " (" ++
  [GOpen; Rep true (not_char ")") 1; GClose; Lit ")"].

Definition flux_unit_re : pattern :=
  map Lit flux_header ++ lits " (" ++
  [GOpen; Rep true (not_char ")") 1; GClose; Lit ")"].

(** The headings of the two tables, with the unit when the file gives
    one. *)
Definition get_units (f : pystr) : pystr * pystr :=
  let conc_unit :=
    match re_search conc_unit_re f with
    | Some caps => str "Concentration (" ++ nth 0 caps [] ++ str ")"
    | None => str "Concentration"
    end in
  let flux_unit :=
    match re_search flux_unit_re f with
    | Some caps => str "Flux (" ++ nth 0 caps [] ++ str ")"
    | None => str "Flux"
    end in
  (conc_unit, flux_unit).

(** A pattern of literals followed by one group, a non-empty run of a
    class, and a closing character: a quoted attribute value and its like. *)
Definition quoted_group (l : pystr) (cls : ascii -> bool) (c : ascii) : pattern :=
  map Lit l ++ [GOpen; Rep true cls 1; GClose; Lit c].

(** The value such a pattern finds at the beginning of a text, and what
    follows the match. *)
Definition group_value (l : pystr) (cls : ascii -> bool) (c : ascii) (s : pystr)
    : option (pystr * pystr) :=
  match strip_prefix l s with
  | Some u =>
      let '(v, r) := span_cls cls u in
      if 1 <=? length v then
        match r with
        | c' :: r' => if Ascii.eqb c' c then Some (v, r') else None
        | [] => None
        end
      else None
  | None => None
  end.

(** A line declares a reaction of the name [name]: it has a key
    [Reaction_] with a number, followed by the non-empty name in quotes. *)
Definition declares_reaction (line name : pystr) : Prop :=
  exists a digits b,
    line = a ++ qstr "key='Reaction_" ++ digits ++ qstr "' name='" ++ name ++ dq :: b /\
    digits <> [] /\ forallb is_digit digits = true /\
    name <> [] /\ forallb (not_char dq) name = true.

(** What [read] gives for a text that was written: a file opened in text
    mode is read with every carriage return, alone or before a newline,
    turned into a newline. *)
Fixpoint universal_newlines (text : pystr) : pystr :=
  match text with
  | [] => []
  | c :: rest =>
      if Ascii.eqb c "013" then
        match rest with
        | c' :: rest' =>
            if Ascii.eqb c' nl then nl :: universal_newlines rest'
            else nl :: universal_newlines rest
        | [] => [nl]
        end
      else c :: universal_newlines rest
  end.

(** The files after [text] was written under [name]: [disk] gives the text
    a file is read as. *)
Definition write_file (disk : pystr -> option pystr) (name text : pystr)
    : pystr -> option pystr :=
  fun f => if bool_decide (f = name) then Some (universal_newlines text) else disk f.

(** The two tables share their code: [flux] chooses the table of the fluxes,
    and with it the flux values of a file. *)
Definition side {A : Type} (flux : bool) (p : A * A) : A :=
  if flux then p.2 else p.1.

(** The same experiment run twice: two files of the same base name that
    both give a value for [X]. *)
Definition disk_rerun (fn : pystr) : option pystr :=
  if pystr_eqb fn (str "run1/x.txt") then Some result_a
  else if pystr_eqb fn (str "run2/x.txt") then Some result_b
  else None.

(** The text [f] has the heading [header] of a table with the unit [unit]
    in brackets after it. *)
Definition has_unit (header f unit : pystr) : Prop :=
  exists pre rest,
    f = pre ++ header ++ str " (" ++ unit ++ ")"%char :: rest /\
    unit <> [] /\ forallb (not_char ")") unit = true.

(** ** A whole run of the sweep summarizer *)

(** A result file of a sweep: its name and text, with the scan id, the row
    and the column its name stands for. *)
Record sweep_file : Type := SweepFile {
  sf_name : pystr;
  sf_text : pystr;
  sf_scan : pystr;
  sf_row : pystr;
  sf_column : pystr
}.

(** The file is there, its name without [.txt] is [scan_row_column] with
    [row] and [column] free of underscores, and its marked lines have a
    value. *)
Definition follows_convention (disk : pystr -> option pystr) (f : sweep_file)
    : Prop :=
  disk (sf_name f) = Some (sf_text f) /\
  py_replace (str ".txt") [] (sf_name f) =
    sf_scan f ++ str "_" ++ sf_row f ++ str "_" ++ sf_column f /\
  ("_"%char ∉ sf_row f) /\ ("_"%char ∉ sf_column f) /\
  marked_lines_have_value (sf_text f).

(** The summary lines a file gives, and those it gives to the scan [s]. *)
Definition lines_of_file (f : sweep_file) : list pystr :=
  map (triple (sf_row f) (sf_column f))
      (List.filter has_marker (file_lines (sf_text f))).

Definition lines_for (s : pystr) (f : sweep_file) : list pystr :=
  if bool_decide (sf_scan f = s) then lines_of_file f else [].

(** The lines of the scan [s]: file after file, in the order of the files. *)
Definition summary_lines (s : pystr) (files : list sweep_file) : list pystr :=
  concat (map (lines_for s) files).

Definition sweep_4_6 : sweep_file :=
  SweepFile (str "myscan_4_6.txt") (objective_line "0.123")
            (str "myscan") (str "4") (str "6").

Definition sweep_4_7 : sweep_file :=
  SweepFile (str "myscan_4_7.txt") (objective_line "0.123")
            (str "myscan") (str "4") (str "7").

(** The comment COPASI writes at the head of a file, with [version] in it:
    digits and dots, then the build number in brackets. The two dots of the
    address are written unescaped in the pattern and stand for any character
    but a newline. *)
Definition version_comment (text version : pystr) : Prop :=
  exists pre v b x y rest,
    text = pre ++ str "<!-- generated with COPASI " ++ version ++
           str " (http://www" ++ x :: str "copasi" ++ y :: str "org)" ++ rest /\
    version = v ++ str " (Build " ++ b ++ str ")" /\
    v <> [] /\ forallb (fun c => is_digit c || is_char "." c) v = true /\
    b <> [] /\ forallb is_digit b = true /\
    not_nl x = true /\ not_nl y = true.

(** ** The pattern of the targets *)

(** A number in square brackets at the beginning of a text, no digit
    allowed to be missing: what follows it. *)
Definition bracketed (s : pystr) : option pystr :=
  match s with
  | c :: u =>
      if Ascii.eqb c "[" then
        let '(d, r) := span_cls is_digit u in
        match r with
        | c' :: r' => if Ascii.eqb c' "]" then Some r' else None
        | [] => None
        end
      else None
  | [] => None
  end.

(** The content [setMCAOptiParameters] leaves. *)
Definition retargeted (objleft objright : Z) (text : pystr) : pystr :=
  fst (subn MCAOpti_re (MCAOpti_repl objleft objright) text).

(** ** Patterns of a literal, a delimited value and a literal *)

(** The pattern [l] [[^c]+] [c] [sfx], as those of [setTaskToMCA] and
    [setReportFileName] are. *)
Definition delimited_re (l : pystr) (c : ascii) (sfx : pystr) : pattern :=
  map Lit l ++ [Rep true (not_char c) 1; Lit c] ++ map Lit sfx.

(** What follows a match of such a pattern at the beginning of a text. *)
Definition delimited (l : pystr) (c : ascii) (sfx : pystr) (s : pystr)
    : option pystr :=
  match strip_prefix l s with
  | Some u =>
      let '(v, r) := span_cls (not_char c) u in
      if 1 <=? length v then
        match r with
        | c' :: r' => if Ascii.eqb c' c then strip_prefix sfx r' else None
        | [] => None
        end
      else None
  | None => None
  end.

(** ** The sanitized form of a name, in the words of the specification *)

(** The characters a sanitized name is made of. *)
Definition kept_characters : pystr :=
  str "ABCDEFGHIJKLMNOPQRSTUVWXYZabcdefghijklmnopqrstuvwxyz0123456789._/".

(** The name without the characters that are not kept. *)
Definition sanitized (name : pystr) : pystr :=
  List.filter (fun c => bool_decide (c ∈ kept_characters)) name.

(** The convention of the names, in the words of the specification: the
    name is [scan_row_column.txt], with [row] and [column] free of
    underscores; the one amendment is that [.txt] occurs at the end of the
    name only. *)
Definition named_by_convention (f : sweep_file) : Prop :=
  sf_name f =
    sf_scan f ++ str "_" ++ sf_row f ++ str "_" ++ sf_column f ++ str ".txt" /\
  contains (str ".txt")
    (sf_scan f ++ str "_" ++ sf_row f ++ str "_" ++ sf_column f) = false /\
  ("_"%char ∉ sf_row f) /\ ("_"%char ∉ sf_column f).

(** A result file that is there, is named by the convention and has a value
    on each of its marked lines. *)
Definition well_formed_sweep (disk : pystr -> option pystr) (f : sweep_file)
    : Prop :=
  disk (sf_name f) = Some (sf_text f) /\
  named_by_convention f /\
  marked_lines_have_value (sf_text f).

(** The text of a file from its lines: each of [ls] ends with a newline,
    [last], when it is not empty, is a last line without one. *)
Definition text_of_lines (ls : list pystr) (last : pystr) : pystr :=
  concat (map (fun l => l ++ [nl]) ls) ++ last.

Definition sweep_R1_R2 : sweep_file :=
  SweepFile (str "a_long_scan_R1_R2.txt")
            (str "Optimization Result:" ++ [nl] ++
             objective_line "1e-05" ++ objective_line "1e-05")
            (str "a_long_scan") (str "R1") (str "R2").
(** * Properties *)

(** ** The scan of [re.subn] *)

Section Subn.
Variables (p : pattern) (t : template).

Lemma subn_aux_fuel (n m : nat) (s : pystr) :
  length s < n -> length s < m -> subn_aux n p t s = subn_aux m p t s.
Proof.
  revert m s. induction n as [|n IH]; intros m s Hn Hm; [lia|].
  destruct m as [|m]; [lia|].
  destruct s as [|c s]; [reflexivity|]. simpl in Hn, Hm. simpl.
  destruct (re_match p (c :: s)) as [[caps rest]|].
  - destruct (Nat.ltb_spec (length rest) (S (length s))) as [Hlt|Hge].
    + rewrite (IH m rest) by lia. reflexivity.
    + rewrite (IH m s) by lia. reflexivity.
  - rewrite (IH m s) by lia. reflexivity.
Qed.

Lemma subn_nil : subn p t [] = ([], 0).
Proof. reflexivity. Qed.

Lemma subn_aux_S (n : nat) (c : ascii) (s : pystr) :
  subn_aux (S n) p t (c :: s) =
  match re_match p (c :: s) with
  | Some (caps, rest) =>
      if length rest <? length (c :: s) then
        let '(out, k) := subn_aux n p t rest in (expand t caps ++ out, S k)
      else let '(out, k) := subn_aux n p t s in (c :: out, k)
  | None => let '(out, k) := subn_aux n p t s in (c :: out, k)
  end.
Proof. reflexivity. Qed.

Lemma subn_cons (c : ascii) (s : pystr) : subn p t (c :: s) = subn_step p t c s.
Proof.
  unfold subn_step, subn. rewrite subn_aux_S.
  destruct (re_match p (c :: s)) as [[caps rest]|].
  - destruct (Nat.ltb_spec (length rest) (length (c :: s))) as [Hlt|Hge].
    + rewrite (subn_aux_fuel (length (c :: s)) (S (length rest)))
        by (simpl in *; lia).
      destruct (subn_aux (S (length rest)) p t rest). reflexivity.
    + simpl length. destruct (subn_aux (S (length s)) p t s). reflexivity.
  - simpl length. destruct (subn_aux (S (length s)) p t s). reflexivity.
Qed.

(** Without a match the text is unchanged. *)
Lemma subn_zero (s : pystr) : snd (subn p t s) = 0 -> fst (subn p t s) = s.
Proof.
  induction s as [|c s IH]; [reflexivity|].
  rewrite subn_cons. unfold subn_step.
  destruct (re_match p (c :: s)) as [[caps rest]|].
  - destruct (length rest <? length (c :: s)); simpl; [discriminate|].
    intros H. rewrite IH by exact H. reflexivity.
  - simpl. intros H. rewrite IH by exact H. reflexivity.
Qed.
End Subn.

(** The number of matches does not depend on the replacement. *)
Lemma subn_count (p : pattern) (t t' : template) (s : pystr) :
  snd (subn p t s) = snd (subn p t' s).
Proof.
  remember (length s) as n eqn:Hn. revert s Hn.
  induction n as [n IH] using lt_wf_ind. intros s Hn.
  destruct s as [|c s]; [reflexivity|].
  rewrite !subn_cons. unfold subn_step.
  destruct (re_match p (c :: s)) as [[caps rest]|].
  - destruct (Nat.ltb_spec (length rest) (length (c :: s))) as [Hlt|Hge]; simpl.
    + f_equal. apply (IH (length rest)); [lia|reflexivity].
    + apply (IH (length s)); [simpl in Hn; lia|reflexivity].
  - simpl. apply (IH (length s)); [simpl in Hn; lia|reflexivity].
Qed.

(** ** Loading a document *)

Ltac run_monad :=
  unfold run, bind, ret, when, get_self, set_content, set_version,
    set_filename, raise, _errorReport in *; simpl in *.

Lemma init_without_version (disk : pystr -> option pystr) (filename text : pystr) :
  disk (cps_name filename) = Some text ->
  version_marker_absent text ->
  new_Copasi disk filename =
    ([Report (cps_name filename)
        (str "The version of the Copasi file could not be determined.") false;
      Report (cps_name filename)
        (str "The Copasi file version (None) is not supported.") false],
     inr (MkCopasi (cps_name filename) text None)).
Proof.
  intros Hdisk Habs. unfold version_marker_absent in Habs.
  unfold new_Copasi, __init__, openCopasiFile, getVersion, checkVersion.
  unfold cps_name in *.
  destruct (ends_with (str ".cps") filename); run_monad;
    rewrite Hdisk; simpl; rewrite Habs; reflexivity.
Qed.

(** C6, as amended: a document without the version comment loads. Exactly
    two problems are logged, in this order and none of them fatal: the
    version could not be determined, and the version [None] is not supported.
    The constructor returns the object with the text of the file and the
    version [None]. *)
Theorem C6_missing_version_is_not_fatal
    (disk : pystr -> option pystr) (filename text : pystr) :
  disk (cps_name filename) = Some text ->
  version_marker_absent text ->
  exists (log : list report) (self : Copasi),
    new_Copasi disk filename = (log, inr self) /\
    log =
      [Report (cps_name filename)
         (str "The version of the Copasi file could not be determined.") false;
       Report (cps_name filename)
         (str "The Copasi file version (None) is not supported.") false] /\
    Forall (fun r => r_fatal r = false) log /\
    self = MkCopasi (cps_name filename) text None /\
    content self = text /\ version self = None.
Proof.
  intros Hdisk Habs.
  eexists _, _. split; [apply init_without_version; eassumption|].
  split; [reflexivity|]. split; [repeat constructor|].
  split; [reflexivity|]. split; reflexivity.
Qed.

Lemma C6_missing_version_is_not_fatal_witness :
  exists (log : list report) (self : Copasi),
    new_Copasi empty_disk (str "model.cps") = (log, inr self) /\
    log =
      [Report (cps_name (str "model.cps"))
         (str "The version of the Copasi file could not be determined.") false;
       Report (cps_name (str "model.cps"))
         (str "The Copasi file version (None) is not supported.") false] /\
    Forall (fun r => r_fatal r = false) log /\
    self = MkCopasi (cps_name (str "model.cps")) [] None /\
    content self = [] /\ version self = None.
Proof.
  apply (C6_missing_version_is_not_fatal empty_disk (str "model.cps") []);
    reflexivity.
Defined.

(** C6, as stated, fails on an empty document: the version comment is
    absent and the constructor returns an object. *)
Lemma C6_counterexample :
  ~ (version_marker_absent [] ->
     is_fatal (new_Copasi empty_disk (str "model.cps"))).
Proof.
  intros H. specialize (H eq_refl). unfold is_fatal in H.
  vm_compute in H. discriminate H.
Qed.

(** ** The title *)

Lemma title_loop_no_model (ls : list pystr) (self : Copasi) :
  Forall (fun line => contains (str "<Model ") line = false) ls ->
  title_loop ls self = ([], inl (Raise UnboundLocalError)).
Proof.
  induction 1 as [|line ls Hline _ IH]; [reflexivity|].
  cbn [title_loop]. rewrite Hline. exact IH.
Qed.

(** C9: on a document without a line containing [<Model ], [getTitle] logs
    nothing and returns no placeholder: the read of the unbound [title]
    raises. *)
Theorem C9_getTitle_without_model_line (self : Copasi) :
  Forall (fun line => contains (str "<Model ") line = false)
         (lines (content self)) ->
  run getTitle self = ([], inl (Raise UnboundLocalError)).
Proof.
  intros H. unfold run, getTitle, bind, get_self.
  rewrite (title_loop_no_model _ self H). reflexivity.
Qed.

Lemma C9_getTitle_without_model_line_witness :
  run getTitle (MkCopasi (str "model.cps") (str "<COPASI>") None) =
    ([], inl (Raise UnboundLocalError)).
Proof.
  apply C9_getTitle_without_model_line. vm_compute.
  repeat constructor.
Defined.

(** ** Name resolution *)

Lemma index_of_Some (x : pystr) (l : list pystr) (i : nat) :
  index_of x l = Some i ->
  l !! i = Some x /\ forall j, j < i -> l !! j <> Some x.
Proof.
  revert i. induction l as [|y l IH]; intros i; simpl; [discriminate|].
  unfold pystr_eqb. case_bool_decide as Hy.
  - intros [= <-]. subst y. split; [reflexivity|]. intros j Hj. lia.
  - destruct (index_of x l) as [k|]; simpl; [|discriminate].
    intros [= <-]. destruct (IH k eq_refl) as [Hk Hmin].
    split; [exact Hk|]. intros [|j] Hj; simpl.
    + intros [= ->]. apply Hy. reflexivity.
    + apply Hmin. lia.
Qed.

Lemma index_of_None (x : pystr) (l : list pystr) :
  index_of x l = None <-> x ∉ l.
Proof.
  induction l as [|y l IH]; simpl.
  - split; [intros _; apply not_elem_of_nil|reflexivity].
  - unfold pystr_eqb. case_bool_decide as Hy.
    + subst y. split; [discriminate|]. intros H. exfalso. apply H. left.
    + destruct (index_of x l) as [k|]; simpl.
      * split; [discriminate|]. intros H. exfalso.
        assert (Hx : x ∉ l) by (intros Hin; apply H; right; exact Hin).
        apply IH in Hx. discriminate Hx.
      * split; [|reflexivity]. intros _ Hin.
        apply elem_of_cons in Hin as [->|Hin]; [apply Hy; reflexivity|].
        revert Hin. apply IH. reflexivity.
Qed.

Lemma index_of_first (x : pystr) (l : list pystr) (i : nat) :
  l !! i = Some x -> (forall j, j < i -> l !! j <> Some x) ->
  index_of x l = Some i.
Proof.
  intros Hi Hmin. destruct (index_of x l) as [k|] eqn:Hk.
  - destruct (index_of_Some _ _ _ Hk) as [Hk1 Hk2].
    destruct (Nat.lt_trichotomy k i) as [Hlt|[->|Hgt]]; [|reflexivity|].
    + exfalso. exact (Hmin k Hlt Hk1).
    + exfalso. exact (Hk2 i Hgt Hi).
  - apply index_of_None in Hk. exfalso. apply Hk.
    apply list_elem_of_lookup. exists i. exact Hi.
Qed.

Lemma turnToNumbers_cons (x : pystr) (rest refs : list pystr) (self : Copasi) :
  run (turnToNumbers (x :: rest) refs) self =
  match py_int x, index_of x refs with
  | Some z, _ =>
      match run (turnToNumbers rest refs) self with
      | (log, inr (ns, self')) => (log, inr (z :: ns, self'))
      | (log, inl e) => (log, inl e)
      end
  | None, Some i =>
      match run (turnToNumbers rest refs) self with
      | (log, inr (ns, self')) => (log, inr (Z.of_nat i :: ns, self'))
      | (log, inl e) => (log, inl e)
      end
  | None, None =>
      ([Report (filename self)
          (qstr "The element '" ++ x ++ qstr "' was not found.") true],
       inl (SysExit 1))
  end.
Proof.
  cbn [turnToNumbers]. unfold run, bind, ret.
  destruct (py_int x) as [z|]; [|destruct (index_of x refs) as [i|]].
  - destruct (turnToNumbers rest refs self) as [log [e|[ns self']]];
      simpl; rewrite ?app_nil_r; reflexivity.
  - destruct (turnToNumbers rest refs self) as [log [e|[ns self']]];
      simpl; rewrite ?app_nil_r; reflexivity.
  - reflexivity.
Qed.

(** Every element numeric or found: the list of ranks, nothing logged. *)
Lemma turnToNumbers_ok (mylist refs : list pystr) (self : Copasi) :
  Forall (fun x => numeric x \/ x ∈ refs) mylist ->
  exists ns : list Z,
    run (turnToNumbers mylist refs) self = ([], inr (ns, self)) /\
    Forall2 (resolved refs) mylist ns.
Proof.
  induction 1 as [|x rest Hx _ IH].
  - exists []. split; [reflexivity|constructor].
  - destruct IH as (ns & Hrun & Hns). rewrite turnToNumbers_cons, Hrun.
    destruct (py_int x) as [z|] eqn:Hint.
    + exists (z :: ns). split; [reflexivity|].
      constructor; [left; exact Hint|exact Hns].
    + destruct Hx as [[z Hz]|Hin]; [unfold numeric in *; congruence|].
      destruct (index_of x refs) as [i|] eqn:Hidx.
      * exists (Z.of_nat i :: ns). split; [reflexivity|].
        constructor; [|exact Hns]. right. split; [exact Hint|].
        exists i. destruct (index_of_Some _ _ _ Hidx). auto.
      * apply index_of_None in Hidx. contradiction.
Qed.

(** An element neither numeric nor found stops the program. *)
Lemma turnToNumbers_fatal (mylist refs : list pystr) (self : Copasi) :
  Exists (fun x => ~ numeric x /\ x ∉ refs) mylist ->
  is_fatal (run (turnToNumbers mylist refs) self).
Proof.
  unfold is_fatal. induction mylist as [|x rest IH]; intros Hex.
  - inversion Hex.
  - rewrite turnToNumbers_cons.
    destruct (py_int x) as [z|] eqn:Hint;
      [|destruct (index_of x refs) as [i|] eqn:Hidx].
    + apply Exists_cons in Hex as [[Hnum _]|Hex].
      { exfalso. apply Hnum. exists z. exact Hint. }
      specialize (IH Hex).
      destruct (run (turnToNumbers rest refs) self) as [log [e|[ns self']]];
        simpl in *; [exact IH|discriminate IH].
    + apply Exists_cons in Hex as [[_ Hnot]|Hex].
      { exfalso. apply Hnot. apply list_elem_of_lookup. exists i.
        apply (index_of_Some _ _ _ Hidx). }
      specialize (IH Hex).
      destruct (run (turnToNumbers rest refs) self) as [log [e|[ns self']]];
        simpl in *; [exact IH|discriminate IH].
    + reflexivity.
Qed.

(** *** The value of a decimal numeral *)

Lemma int_digits_acc (d : Decimal.uint) (acc : positive) :
  int_digits (Z.pos acc) true (str (NilEmpty.string_of_uint d)) =
  Some (Z.pos (Pos.of_uint_acc d acc)).
Proof.
  unfold str. revert acc. induction d; intros acc;
    cbn [NilEmpty.string_of_uint list_ascii_of_string Pos.of_uint_acc];
    [reflexivity|..];
    (change (int_digits (Z.pos acc) true (?c :: ?r))
       with (int_digits (10 * Z.pos acc + digit_val c) true r));
    match goal with
    | |- int_digits ?v true _ = Some (Z.pos (Pos.of_uint_acc _ ?a)) =>
        replace v with (Z.pos a)
          by (match goal with
              | |- context [digit_val ?c] =>
                  let k := eval vm_compute in (digit_val c) in
                  change (digit_val c) with k
              end; lia)
    end; apply IHd.
Qed.

Lemma int_digits_of_uint (d : Decimal.uint) :
  int_digits 0 true (str (NilEmpty.string_of_uint d)) =
  Some (Z.of_N (Pos.of_uint d)).
Proof.
  unfold str. induction d;
    cbn [NilEmpty.string_of_uint list_ascii_of_string Pos.of_uint];
    [reflexivity|exact IHd|..];
    (change (int_digits 0 true (?c :: ?r))
       with (int_digits (10 * 0 + digit_val c) true r));
    apply (int_digits_acc d).
Qed.

Lemma int_digits_first (d : Decimal.uint) :
  d <> Decimal.Nil ->
  int_digits 0 false (str (NilEmpty.string_of_uint d)) =
  int_digits 0 true (str (NilEmpty.string_of_uint d)).
Proof. destruct d; [congruence|reflexivity..]. Qed.

Lemma string_of_uint_all_digits (d : Decimal.uint) :
  forallb is_digit (str (NilEmpty.string_of_uint d)) = true.
Proof.
  unfold str.
  induction d; [reflexivity|cbn [NilEmpty.string_of_uint list_ascii_of_string forallb];
                  rewrite IHd; reflexivity..].
Qed.

Lemma lstrip_none (cls : ascii -> bool) (s : pystr) :
  forallb (fun c => negb (cls c)) s = true -> lstrip cls s = s.
Proof.
  destruct s as [|c s]; [reflexivity|]. cbn [forallb lstrip].
  intros H. apply andb_true_iff in H as [Hc _]. apply negb_true_iff in Hc.
  rewrite Hc. reflexivity.
Qed.

Lemma strip_cls_none (cls : ascii -> bool) (s : pystr) :
  forallb (fun c => negb (cls c)) s = true -> strip_cls cls s = s.
Proof.
  intros H. unfold strip_cls. rewrite (lstrip_none _ _ H), lstrip_none.
  - apply rev_involutive.
  - rewrite forallb_forall in H |- *. intros c Hc. apply H.
    apply in_rev. exact Hc.
Qed.

Lemma digits_not_c_space (s : pystr) :
  forallb is_digit s = true ->
  forallb (fun c => negb (is_c_space c)) s = true.
Proof.
  rewrite !forallb_forall. intros H c Hc. specialize (H c Hc).
  destruct c as [[] [] [] [] [] [] [] []]; try discriminate H; reflexivity.
Qed.

Lemma filter_length_le {A : Type} (f : A -> bool) (l : list A) :
  length (List.filter f l) <= length l.
Proof.
  induction l as [|a l IH]; [reflexivity|]. cbn [List.filter].
  destruct (f a); simpl; lia.
Qed.

(** [int] reads the decimal numeral of a positive number as that number. *)
Lemma py_int_numeral (p : positive) :
  length (str (NilEmpty.string_of_uint (Pos.to_uint p))) <= max_str_digits ->
  py_int (str (NilEmpty.string_of_uint (Pos.to_uint p))) = Some (Z.pos p).
Proof.
  intros Hlen. unfold py_int.
  pose proof (string_of_uint_all_digits (Pos.to_uint p)) as Hdig.
  rewrite (strip_cls_none _ _ (digits_not_c_space _ Hdig)).
  cbv zeta.
  destruct (Nat.ltb_spec max_str_digits
              (length (List.filter is_digit
                         (str (NilEmpty.string_of_uint (Pos.to_uint p))))))
    as [Hlt|_].
  { pose proof (filter_length_le is_digit
                  (str (NilEmpty.string_of_uint (Pos.to_uint p)))). lia. }
  pose proof (DecimalPos.Unsigned.to_uint_nonnil p) as Hnil.
  pose proof (int_digits_of_uint (Pos.to_uint p)) as Hval.
  rewrite DecimalPos.Unsigned.of_to in Hval.
  rewrite <- (int_digits_first _ Hnil) in Hval.
  destruct (Pos.to_uint p); [congruence|exact Hval..].
Qed.

Lemma py_int_str_of_Z (n : Z) :
  length (str_of_Z n) <= max_str_digits -> py_int (str_of_Z n) = Some n.
Proof.
  unfold str_of_Z. destruct n as [|p|p]; cbn [Z.to_int NilZero.string_of_int].
  - intros _. reflexivity.
  - assert (E : NilZero.string_of_uint (Pos.to_uint p) =
                NilEmpty.string_of_uint (Pos.to_uint p)).
    { pose proof (DecimalPos.Unsigned.to_uint_nonnil p).
      destruct (Pos.to_uint p); [congruence|reflexivity..]. }
    rewrite E. apply py_int_numeral.
  - assert (E : NilZero.string_of_uint (Pos.to_uint p) =
                NilEmpty.string_of_uint (Pos.to_uint p)).
    { pose proof (DecimalPos.Unsigned.to_uint_nonnil p).
      destruct (Pos.to_uint p); [congruence|reflexivity..]. }
    rewrite E. intros Hlen.
    change (str (String "-" ?x)) with ("-"%char :: str x) in Hlen |- *.
    cbn [length] in Hlen.
    pose proof (py_int_numeral p ltac:(lia)) as Hp. revert Hp.
    unfold py_int.
    pose proof (string_of_uint_all_digits (Pos.to_uint p)) as Hdig.
    rewrite (strip_cls_none _ _ (digits_not_c_space _ Hdig)).
    rewrite (strip_cls_none is_c_space ("-"%char :: _))
      by (cbn [forallb]; rewrite (digits_not_c_space _ Hdig); reflexivity).
    cbv zeta. cbn [List.filter is_digit]. 
    change (is_digit "-") with false. cbv iota.
    destruct (max_str_digits <? _); [discriminate|].
    pose proof (DecimalPos.Unsigned.to_uint_nonnil p) as Hnil.
    destruct (Pos.to_uint p); [congruence|..];
      intros Hp; cbn [str list_ascii_of_string NilEmpty.string_of_uint] in Hp |- *;
      cbv iota beta in Hp |- *; rewrite Hp; reflexivity.
Qed.

(** A numeral of more digits than the interpreter takes is no number. *)
Lemma py_int_too_long (x : pystr) :
  forallb is_digit x = true -> max_str_digits < length x -> py_int x = None.
Proof.
  intros Hdig Hlen. unfold py_int.
  rewrite (strip_cls_none _ _ (digits_not_c_space _ Hdig)). cbv zeta.
  replace (List.filter is_digit x) with x.
  - apply Nat.ltb_lt in Hlen. rewrite Hlen. reflexivity.
  - clear Hlen. induction x as [|c x IH]; [reflexivity|].
    cbn [forallb] in Hdig. apply andb_true_iff in Hdig as [Hc Hx].
    cbn [List.filter]. rewrite Hc, <- (IH Hx). reflexivity.
Qed.

(** C7, as amended, for lists of ASCII strings. A string that [int]
    accepts becomes its value, any other string the rank of its first
    occurrence in the reference list, and a string that is neither stops the
    program. The decimal numeral of a number [n] is a numeric string and
    becomes [n], whatever the reference list is, as long as it has no more
    digits than the interpreter takes; a longer one is not numeric. The
    example holds when rank 2 is the first occurrence of [ReactA]; [nope]
    is not in the reference list. *)
Theorem C7_turnToNumbers (mylist refs : list pystr) (self : Copasi) :
  Forall ascii_only mylist ->
  (Forall (fun x => numeric x \/ x ∈ refs) mylist ->
   exists ns : list Z,
     run (turnToNumbers mylist refs) self = ([], inr (ns, self)) /\
     Forall2 (resolved refs) mylist ns) /\
  (Exists (fun x => ~ numeric x /\ x ∉ refs) mylist ->
   is_fatal (run (turnToNumbers mylist refs) self)) /\
  (forall n : Z,
     length (str_of_Z n) <= max_str_digits ->
     py_int (str_of_Z n) = Some n /\
     run (turnToNumbers [str_of_Z n] refs) self = ([], inr ([n], self))) /\
  (forall x : pystr,
     forallb is_digit x = true -> max_str_digits < length x -> ~ numeric x) /\
  (first_occurrence refs (str "ReactA") 2 ->
   run (turnToNumbers [str "2"; str "ReactA"] refs) self =
     ([], inr ([2%Z; 2%Z], self))) /\
  (str "nope" ∉ refs ->
   is_fatal (run (turnToNumbers [str "nope"] refs) self)).
Proof.
  intros _.
  split; [apply turnToNumbers_ok|]. split; [apply turnToNumbers_fatal|].
  split; [|split; [|split]].
  - intros n Hn. pose proof (py_int_str_of_Z n Hn) as Hint.
    split; [exact Hint|]. rewrite turnToNumbers_cons, Hint. reflexivity.
  - intros x Hdig Hlen [z Hz]. rewrite (py_int_too_long x Hdig Hlen) in Hz.
    discriminate Hz.
  - intros (i & Hi & Hlook & Hmin).
    assert (i = 2) as -> by lia.
    rewrite !turnToNumbers_cons.
    rewrite (index_of_first _ _ _ Hlook Hmin). reflexivity.
  - intros Hnope. rewrite turnToNumbers_cons.
    apply index_of_None in Hnope. rewrite Hnope. reflexivity.
Qed.

Lemma C7_turnToNumbers_witness :
  let refs := [str "ReactX"; str "ReactY"; str "ReactA"] in
  let self := MkCopasi (str "model.cps") [] None in
  (exists ns : list Z,
     run (turnToNumbers [str "2"; str "ReactA"] refs) self = ([], inr (ns, self)) /\
     Forall2 (resolved refs) [str "2"; str "ReactA"] ns) /\
  (py_int (str_of_Z 4711) = Some 4711%Z /\
   run (turnToNumbers [str_of_Z 4711] refs) self = ([], inr ([4711%Z], self))) /\
  run (turnToNumbers [str "2"; str "ReactA"] refs) self =
    ([], inr ([2%Z; 2%Z], self)) /\
  is_fatal (run (turnToNumbers [str "nope"] refs) self) /\
  is_fatal (run (turnToNumbers [str "1"; str "nope"; str "ReactA"] refs) self).
Proof.
  intros refs self.
  assert (Ha1 : Forall ascii_only [str "2"; str "ReactA"]).
  { apply List.Forall_cons; [reflexivity|].
    apply List.Forall_cons; [reflexivity|]. apply List.Forall_nil. }
  assert (Ha2 : Forall ascii_only [str "1"; str "nope"; str "ReactA"]).
  { apply List.Forall_cons; [reflexivity|].
    apply List.Forall_cons; [reflexivity|].
    apply List.Forall_cons; [reflexivity|]. apply List.Forall_nil. }
  pose proof (C7_turnToNumbers [str "2"; str "ReactA"] refs self Ha1)
    as (H1 & _ & Hn & _ & H3 & H4).
  pose proof (C7_turnToNumbers [str "1"; str "nope"; str "ReactA"] refs self Ha2)
    as (_ & H2 & _).
  split; [|split; [|split; [|split]]].
  - apply H1. constructor; [|constructor; [|constructor]].
    + left. exists 2%Z. reflexivity.
    + right. apply list_elem_of_lookup. exists 2. reflexivity.
  - apply (Hn 4711%Z). vm_compute. lia.
  - apply H3. exists 2. split; [reflexivity|]. split; [reflexivity|].
    intros [|[|j]] Hj; [discriminate|discriminate|lia].
  - apply H4. vm_compute. intros H.
    repeat (apply elem_of_cons in H as [H|H]; [discriminate H|]).
    inversion H.
  - apply H2. right. left. split.
    + intros [z Hz]. discriminate Hz.
    + intros H. repeat (apply elem_of_cons in H as [H|H]; [discriminate H|]).
      inversion H.
Defined.

(** C7, as stated, fails for its example: with [ReactA] at the ranks 0 and
    2 the reference list has [ReactA] at rank 2, as the claim asks, and the
    result is [2, 0], since the first occurrence wins. *)
Lemma C7_counterexample :
  let refs := [str "ReactA"; str "ReactB"; str "ReactA"] in
  refs !! 2 = Some (str "ReactA") /\
  run (turnToNumbers [str "2"; str "ReactA"] refs) bare_doc =
    ([], inr ([2%Z; 0%Z], bare_doc)) /\
  run (turnToNumbers [str "2"; str "ReactA"] refs) bare_doc <>
    ([], inr ([2%Z; 2%Z], bare_doc)).
Proof.
  split; [reflexivity|]. split; [vm_compute; reflexivity|].
  intros H. vm_compute in H. discriminate H.
Qed.

(** ** Mutators: no match and several matches *)

Lemma subn_count_matches (p : pattern) (t : template) (s : pystr) :
  snd (subn p t s) = count_matches p s.
Proof. apply subn_count. Qed.


Ltac count_cases H :=
  rewrite ?subn_count_matches;
  match type of H with
  | ?n = 0 => rewrite H; simpl
  | 1 < ?n =>
      destruct (Nat.eqb_spec n 0) as [?|_]; [lia|];
      destruct (Nat.ltb_spec 1 n) as [_|?]; [|lia]; simpl
  end.

Lemma delOptimizationItem_several (self : Copasi) (name : pystr)
    (parameter : option pystr) :
  1 < count_matches (delOptimizationItem_re name parameter) (content self) ->
  is_fatal (run (delOptimizationItem name parameter) self).
Proof.
  intros H. unfold is_fatal, delOptimizationItem, run, bind, get_self.
  cbn beta iota. count_cases H. reflexivity.
Qed.

Lemma setMCAOptiParameters_several (self : Copasi) (objleft objright : Z) :
  1 < count_matches MCAOpti_re (content self) ->
  warns_and_sets (run (setMCAOptiParameters objleft objright) self) self
    (fst (subn MCAOpti_re (MCAOpti_repl objleft objright) (content self))).
Proof.
  intros H. unfold warns_and_sets, setMCAOptiParameters, run, bind, get_self.
  cbn beta iota. count_cases H. eexists _, tt. reflexivity.
Qed.

Lemma setOptimizationTargetType_several (self : Copasi) (optiType long : pystr) :
  types !! optiType = Some long ->
  1 < count_matches TargetType_re (content self) ->
  warns_and_sets (run (setOptimizationTargetType optiType) self) self
    (fst (subn TargetType_re (TargetType_repl long) (content self))).
Proof.
  intros Hty H.
  unfold warns_and_sets, setOptimizationTargetType, run, bind, get_self.
  cbn beta iota. rewrite Hty. count_cases H. eexists _, tt. reflexivity.
Qed.




Ltac zero_is_fatal H :=
  unfold is_fatal, run, bind, get_self; cbn beta iota;
  count_cases H; reflexivity.

Lemma setMCAOptiParameters_none (self : Copasi) (objleft objright : Z) :
  count_matches MCAOpti_re (content self) = 0 ->
  is_fatal (run (setMCAOptiParameters objleft objright) self).
Proof. intros H. unfold setMCAOptiParameters. zero_is_fatal H. Qed.

Lemma setOptiMinMax_none (self : Copasi) (minimize warn : bool) :
  count_matches OptiMinMax_re (content self) = 0 ->
  is_fatal (run (setOptiMinMax minimize warn) self).
Proof. intros H. unfold setOptiMinMax. zero_is_fatal H. Qed.

Lemma setOptimizationTargetType_none (self : Copasi) (optiType : pystr) :
  count_matches TargetType_re (content self) = 0 ->
  is_fatal (run (setOptimizationTargetType optiType) self).
Proof.
  intros H. unfold setOptimizationTargetType, is_fatal, run, bind, get_self.
  cbn beta iota. destruct (types !! optiType); [|reflexivity].
  count_cases H. reflexivity.
Qed.

Lemma setOptimizationMethod_none (self : Copasi) (method : pystr) :
  count_matches Method_re (content self) = 0 ->
  is_fatal (run (setOptimizationMethod method) self).
Proof.
  intros H. unfold setOptimizationMethod, is_fatal, run, bind, get_self.
  cbn beta iota.
  destruct (pystr_eqb method (str "EP")); [|destruct (pystr_eqb method (str "PS"))];
    try reflexivity; unfold ret; cbn beta iota; count_cases H; reflexivity.
Qed.

Lemma setTaskToMCA_none (self : Copasi) :
  count_matches TaskToMCA_re (content self) = 0 ->
  is_fatal (run setTaskToMCA self).
Proof. intros H. unfold setTaskToMCA. zero_is_fatal H. Qed.

Lemma setReportFileName_none (self : Copasi) (reportFile : pystr) (warn : bool) :
  count_matches ReportFileName_re (content self) = 0 ->
  is_fatal (run (setReportFileName reportFile warn) self).
Proof. intros H. unfold setReportFileName. zero_is_fatal H. Qed.

Lemma setOptimizationItem_none (self : Copasi) (name lower start upper : pystr)
    (parameter : option pystr) :
  count_matches (OptimizationItem_re name parameter) (content self) = 0 ->
  is_fatal (run (setOptimizationItem name lower start upper parameter) self).
Proof. intros H. unfold setOptimizationItem. zero_is_fatal H. Qed.

Lemma delOptimizationItem_none (self : Copasi) (name : pystr)
    (parameter : option pystr) :
  count_matches (delOptimizationItem_re name parameter) (content self) = 0 ->
  is_fatal (run (delOptimizationItem name parameter) self).
Proof. intros H. unfold delOptimizationItem. zero_is_fatal H. Qed.

(** Without a match [setParameter] logs one problem, not fatal, and the
    document is as before. *)
Lemma setParameter_none (self : Copasi) (reaction parameter value : pystr) :
  count_matches (Parameter_re reaction parameter) (content self) = 0 ->
  warns_and_sets (run (setParameter reaction parameter value) self) self
    (content self).
Proof.
  intros H. unfold warns_and_sets, setParameter, run, bind, get_self.
  cbn beta iota.
  rewrite (subn_zero _ _ _ (eq_trans (subn_count_matches _ _ _) H)).
  count_cases H. eexists _, tt. reflexivity.
Qed.




(** ** Matching: literals and greedy repetitions *)

Lemma strip_prefix_app (p u : pystr) : strip_prefix p (p ++ u) = Some u.
Proof.
  induction p as [|a p IH]; simpl; [reflexivity|].
  rewrite Ascii.eqb_refl. exact IH.
Qed.

Lemma strip_prefix_Some (p s u : pystr) : strip_prefix p s = Some u -> s = p ++ u.
Proof.
  revert s. induction p as [|a p IH]; intros s; simpl.
  - intros [= ->]. reflexivity.
  - destruct s as [|c s]; [discriminate|].
    destruct (Ascii.eqb_spec c a) as [->|]; [|discriminate].
    intros H. rewrite (IH _ H). reflexivity.
Qed.

Lemma strip_prefix_None (p s : pystr) :
  strip_prefix p s = None <-> starts_with p s = false.
Proof.
  revert s. induction p as [|a p IH]; intros s; simpl.
  - split; discriminate.
  - destruct s as [|c s]; [split; reflexivity|].
    destruct (Ascii.eqb c a); simpl; [apply IH|split; reflexivity].
Qed.

(** Literals at the head of a pattern. *)
Lemma match_at_lits (l : pystr) (p : pattern) (s : pystr)
    (opened caps : list pystr) :
  match_at (map Lit l ++ p) s opened caps =
  match strip_prefix l s with
  | Some u => match_at p u opened caps
  | None => None
  end.
Proof.
  revert s. induction l as [|a l IH]; intros s; simpl; [reflexivity|].
  destruct s as [|c s]; [reflexivity|].
  destruct (Ascii.eqb c a); [apply IH|reflexivity].
Qed.

Lemma span_cls_app (cls : ascii -> bool) (s : pystr) :
  s = fst (span_cls cls s) ++ snd (span_cls cls s).
Proof.
  induction s as [|c s IH]; simpl; [reflexivity|].
  destruct (cls c); [|reflexivity].
  destruct (span_cls cls s) as [v rest]. simpl in *. rewrite <- IH. reflexivity.
Qed.

Lemma span_cls_all (cls : ascii -> bool) (s : pystr) :
  forallb cls (fst (span_cls cls s)) = true.
Proof.
  induction s as [|c s IH]; simpl; [reflexivity|].
  destruct (cls c) eqn:Hc; [|reflexivity].
  destruct (span_cls cls s) as [v rest]. simpl in *. rewrite Hc. exact IH.
Qed.

Lemma span_cls_rest (cls : ascii -> bool) (s : pystr) :
  match snd (span_cls cls s) with
  | c :: _ => cls c = false
  | [] => True
  end.
Proof.
  induction s as [|c s IH]; simpl; [exact I|].
  destruct (cls c) eqn:Hc; [|exact Hc].
  destruct (span_cls cls s) as [v rest]. exact IH.
Qed.

Lemma span_cls_stop (cls : ascii -> bool) (v : pystr) (c : ascii) (r : pystr) :
  forallb cls v = true -> cls c = false ->
  span_cls cls (v ++ c :: r) = (v, c :: r).
Proof.
  intros Hv Hc. induction v as [|a v IH]; simpl.
  - rewrite Hc. reflexivity.
  - simpl in Hv. apply andb_true_iff in Hv as [Ha Hv].
    rewrite Ha, (IH Hv). reflexivity.
Qed.


(** A greedy repetition never gives back a character when what follows the
    repetition cannot begin with a character of the class. *)
Lemma rep_greedy_span {R : Type} (cls : ascii -> bool)
    (k : pystr -> option R) (n : nat) (s : pystr) :
  (forall c s', cls c = true -> k (c :: s') = None) ->
  rep true cls k n s =
  let '(v, rest) := span_cls cls s in
  if n <=? length v then k rest else None.
Proof.
  intros Hk. revert n. induction s as [|c s IH]; intros n.
  - simpl. destruct n; reflexivity.
  - simpl. destruct (cls c) eqn:Hc.
    + rewrite IH. destruct (span_cls cls s) as [v rest]. simpl length.
      destruct n as [|n]; simpl.
      * destruct (k rest); [reflexivity|]. apply Hk. exact Hc.
      * destruct (n <=? length v); [|reflexivity].
        destruct (k rest); reflexivity.
    + destruct n; reflexivity.
Qed.

(** ** The pattern of [setReportFileName] *)

Lemma re_match_target (s : pystr) :
  re_match ReportFileName_re s =
  match strip_prefix target_prefix s with
  | Some u =>
      match target_value u with
      | Some r => Some ([], r)
      | None => None
      end
  | None => None
  end.
Proof.
  unfold re_match, ReportFileName_re, qlits. rewrite match_at_lits.
  fold target_prefix. destruct (strip_prefix target_prefix s) as [u|]; [|reflexivity].
  cbn [match_at]. rewrite rep_greedy_span.
  - unfold target_value. destruct (span_cls (not_char dq) u) as [v rest].
    destruct (1 <=? length v); [|reflexivity].
    destruct rest as [|c r]; [reflexivity|].
    destruct (Ascii.eqb c dq); reflexivity.
  - intros c s' Hc. unfold not_char in Hc. apply negb_true_iff in Hc.
    rewrite Hc. reflexivity.
Qed.

Lemma re_match_target_attribute (s : pystr) :
  re_match target_attribute_re s =
  match strip_prefix target_prefix s with
  | Some u =>
      match target_value u with
      | Some r => Some ([fst (span_cls (not_char dq) u)], r)
      | None => None
      end
  | None => None
  end.
Proof.
  unfold re_match, target_attribute_re, qlits. rewrite match_at_lits.
  fold target_prefix. destruct (strip_prefix target_prefix s) as [u|]; [|reflexivity].
  cbn [match_at]. rewrite rep_greedy_span.
  - unfold target_value. pose proof (span_cls_app (not_char dq) u) as Happ.
    destruct (span_cls (not_char dq) u) as [v rest]. simpl in Happ.
    destruct (1 <=? length v); [|reflexivity].
    destruct rest as [|c r]; [reflexivity|].
    destruct (Ascii.eqb c dq); [|reflexivity].
    rewrite Happ at 1 2. rewrite length_app.
    replace (length v + length (c :: r) - length (c :: r)) with (length v) by lia.
    rewrite firstn_app, firstn_all, Nat.sub_diag. simpl. rewrite app_nil_r.
    reflexivity.
  - intros c s' Hc. unfold not_char in Hc. apply negb_true_iff in Hc.
    rewrite Hc. reflexivity.
Qed.

(** A quoted non-empty value is a match. *)
Lemma target_value_quoted (v r : pystr) :
  v <> [] -> forallb (not_char dq) v = true ->
  target_value (v ++ dq :: r) = Some r.
Proof.
  intros Hne Hv. unfold target_value.
  rewrite (span_cls_stop _ _ _ _ Hv) by (unfold not_char; rewrite Ascii.eqb_refl; reflexivity).
  destruct v; [contradiction|]. simpl. reflexivity.
Qed.

(** The shape of a text on which the value fails. *)
Lemma target_value_None (u : pystr) :
  target_value u = None ->
  u = [] \/ (exists u', u = dq :: u') \/ forallb (not_char dq) u = true.
Proof.
  unfold target_value. pose proof (span_cls_app (not_char dq) u) as Happ.
  pose proof (span_cls_all (not_char dq) u) as Hall.
  pose proof (span_cls_rest (not_char dq) u) as Hrest.
  destruct (span_cls (not_char dq) u) as [v rest]. simpl in *.
  destruct v as [|a v]; simpl.
  - intros _. destruct rest as [|c r]; [left; exact Happ|].
    right. left. exists r. unfold not_char in Hrest.
    apply negb_false_iff in Hrest. apply Ascii.eqb_eq in Hrest. subst c.
    exact Happ.
  - destruct rest as [|c r].
    + intros _. right. right. rewrite Happ, app_nil_r. exact Hall.
    + unfold not_char in Hrest. apply negb_false_iff in Hrest.
      rewrite Hrest. discriminate.
Qed.

Lemma target_value_shorter (u r : pystr) :
  target_value u = Some r -> length r < length u.
Proof.
  unfold target_value. pose proof (span_cls_app (not_char dq) u) as Happ.
  destruct (span_cls (not_char dq) u) as [v rest]. simpl in Happ.
  destruct (1 <=? length v); [|discriminate].
  destruct rest as [|c r']; [discriminate|].
  destruct (Ascii.eqb c dq); [|discriminate]. intros [= <-].
  rewrite Happ, length_app. simpl. lia.
Qed.

(** A text without a quote has no match. *)
Lemma no_quote_no_prefix (s : pystr) :
  forallb (not_char dq) s = true -> strip_prefix target_prefix s = None.
Proof.
  intros H. destruct (strip_prefix target_prefix s) as [u|] eqn:Hs; [|reflexivity].
  apply strip_prefix_Some in Hs. subst s. cbn in H. discriminate H.
Qed.

Section ReportFileName.
Variable w : pystr.
Local Abbreviation t := (ReportFileName_repl w).
Local Abbreviation R := ReportFileName_re.

Lemma expand_ReportFileName_repl (caps : list pystr) :
  expand t caps = target_prefix ++ w ++ [dq].
Proof.
  unfold ReportFileName_repl, expand. cbn [map concat].
  rewrite app_nil_r. reflexivity.
Qed.

(** One step of the scan, for this pattern. *)
Lemma subn_target_cons (c : ascii) (s : pystr) :
  subn R t (c :: s) =
  match strip_prefix target_prefix (c :: s) with
  | Some u =>
      match target_value u with
      | Some r =>
          ((target_prefix ++ w ++ [dq]) ++ fst (subn R t r), S (snd (subn R t r)))
      | None => (c :: fst (subn R t s), snd (subn R t s))
      end
  | None => (c :: fst (subn R t s), snd (subn R t s))
  end.
Proof.
  rewrite subn_cons. unfold subn_step. rewrite re_match_target.
  destruct (strip_prefix target_prefix (c :: s)) as [u|] eqn:Hu; [|reflexivity].
  destruct (target_value u) as [r|] eqn:Hr; [|reflexivity].
  apply strip_prefix_Some in Hu. apply target_value_shorter in Hr.
  assert (Hlt : length r < length (c :: s)).
  { rewrite Hu, length_app. lia. }
  apply Nat.ltb_lt in Hlt. rewrite Hlt, expand_ReportFileName_repl.
  reflexivity.
Qed.

Lemma subn_target_skip (u : pystr) :
  subn R t (tail target_prefix ++ u) =
  (tail target_prefix ++ fst (subn R t u), snd (subn R t u)).
Proof.
  change (tail target_prefix) with (str "arget=" ++ [dq]).
  cbn [str list_ascii_of_string app].
  do 7 (rewrite subn_target_cons; cbn [strip_prefix target_prefix qstr str
          list_ascii_of_string map Ascii.eqb Bool.eqb dq fst snd]).
  reflexivity.
Qed.

Lemma subn_target_fail (c : ascii) (s : pystr) :
  re_match R (c :: s) = None ->
  subn R t (c :: s) = (c :: fst (subn R t s), snd (subn R t s)).
Proof. intros H. rewrite subn_cons. unfold subn_step. rewrite H. reflexivity. Qed.

Lemma subn_target_hit (c : ascii) (s : pystr) (caps : list pystr) (r : pystr) :
  re_match R (c :: s) = Some (caps, r) ->
  subn R t (c :: s) =
    (target_prefix ++ w ++ dq :: fst (subn R t r), S (snd (subn R t r))) /\
  length r < length (c :: s).
Proof.
  intros H. rewrite subn_target_cons. rewrite re_match_target in H.
  destruct (strip_prefix target_prefix (c :: s)) as [u|] eqn:Hu; [|discriminate].
  destruct (target_value u) as [r'|] eqn:Hr; [|discriminate].
  injection H as _ ->. split.
  - rewrite <- !app_assoc. reflexivity.
  - apply strip_prefix_Some in Hu. apply target_value_shorter in Hr.
    rewrite Hu, length_app. lia.
Qed.

Lemma subn_target_no_quote (s : pystr) :
  forallb (not_char dq) s = true -> subn R t s = (s, 0).
Proof.
  induction s as [|c s IH]; [reflexivity|]. intros H.
  rewrite subn_target_cons, (no_quote_no_prefix _ H).
  simpl in H. apply andb_true_iff in H as [_ H]. rewrite (IH H). reflexivity.
Qed.

Lemma target_value_subn (u : pystr) :
  target_value u = None -> target_value (fst (subn R t u)) = None.
Proof.
  intros H. destruct (target_value_None _ H) as [->|[[u' ->]|Hnq]].
  - reflexivity.
  - rewrite subn_target_cons. reflexivity.
  - rewrite (subn_target_no_quote _ Hnq). exact H.
Qed.

(** A prefix that clashes with the replacement is not created by it. *)
Lemma starts_with_subn (q s : pystr) :
  clashes q ->
  starts_with q (fst (subn R t s)) = true -> starts_with q s = true.
Proof.
  revert s. induction q as [|a q IH]; intros s Hq; [reflexivity|].
  destruct Hq as [Ha Hq]. destruct s as [|c s]; [intros H; exact H|].
  rewrite subn_target_cons.
  destruct (strip_prefix target_prefix (c :: s)) as [u|];
    [destruct (target_value u) as [r|]|].
  - cbn [fst]. change target_prefix with (str "target=" ++ [dq]).
    rewrite <- !app_assoc, Ha. discriminate.
  - cbn [fst starts_with]. intros H. apply andb_true_iff in H as [-> H].
    apply (IH _ Hq H).
  - cbn [fst starts_with]. intros H. apply andb_true_iff in H as [-> H].
    apply (IH _ Hq H).
Qed.

Lemma clashes_target_prefix : clashes (tail target_prefix).
Proof. cbn. repeat split. Qed.

(** Where the pattern does not match, it does not match after the
    replacement of the later matches either. *)
Lemma target_fail_stable (c : ascii) (s : pystr) :
  re_match R (c :: s) = None -> re_match R (c :: fst (subn R t s)) = None.
Proof.
  rewrite !re_match_target.
  change target_prefix with ("t"%char :: tail target_prefix).
  cbn [strip_prefix]. destruct (Ascii.eqb c "t"); [|reflexivity].
  destruct (strip_prefix (tail target_prefix) s) as [u|] eqn:Hu.
  - destruct (target_value u) as [r|] eqn:Hr; [discriminate|]. intros _.
    apply strip_prefix_Some in Hu. subst s.
    rewrite subn_target_skip. cbn [fst]. rewrite strip_prefix_app.
    rewrite (target_value_subn _ Hr). reflexivity.
  - intros _. apply strip_prefix_None in Hu.
    destruct (strip_prefix (tail target_prefix) (fst (subn R t s))) as [u|] eqn:Hu';
      [|reflexivity].
    assert (Hs : starts_with (tail target_prefix) (fst (subn R t s)) = true).
    { destruct (starts_with (tail target_prefix) (fst (subn R t s))) eqn:E;
        [reflexivity|]. apply strip_prefix_None in E. congruence. }
    apply (starts_with_subn _ _ clashes_target_prefix) in Hs. congruence.
Qed.

(** The scan passes over an attribute with an empty value. *)
Lemma subn_target_empty_value (x : pystr) :
  subn R t (target_prefix ++ dq :: x) =
  (target_prefix ++ dq :: fst (subn R t x), snd (subn R t x)).
Proof.
  change target_prefix with ("t"%char :: tail target_prefix).
  cbn [app]. rewrite subn_target_fail.
  - rewrite subn_target_skip. cbn [fst snd]. rewrite subn_target_fail.
    + reflexivity.
    + reflexivity.
  - rewrite re_match_target.
    change ("t"%char :: tail target_prefix ++ dq :: x)
      with (target_prefix ++ dq :: x).
    rewrite strip_prefix_app. reflexivity.
Qed.

Section NonEmpty.
Hypothesis w_nonempty : w <> [].
Hypothesis w_no_quote : forallb (not_char dq) w = true.

(** The scan replaces a quoted [w] by itself. *)
Lemma subn_target_value (x : pystr) :
  subn R t (target_prefix ++ w ++ dq :: x) =
  (target_prefix ++ w ++ dq :: fst (subn R t x), S (snd (subn R t x))).
Proof.
  change target_prefix with ("t"%char :: tail target_prefix).
  cbn [app]. apply (subn_target_hit _ _ []).
  rewrite re_match_target.
  change ("t"%char :: tail target_prefix ++ w ++ dq :: x)
    with (target_prefix ++ w ++ dq :: x).
  rewrite strip_prefix_app, target_value_quoted by assumption.
  reflexivity.
Qed.

(** After the replacement, the same replacement finds the same matches
    and changes nothing. *)
Lemma subn_target_idempotent (s : pystr) :
  subn R t (fst (subn R t s)) = subn R t s.
Proof.
  remember (length s) as n eqn:Hn. revert s Hn.
  induction n as [n IH] using lt_wf_ind. intros s Hn.
  destruct s as [|c s]; [reflexivity|].
  destruct (re_match R (c :: s)) as [[caps r]|] eqn:Hm.
  - destruct (subn_target_hit _ _ _ _ Hm) as [-> Hlt]. cbn [fst].
    rewrite subn_target_value. rewrite (IH (length r)); [reflexivity|lia|reflexivity].
  - rewrite (subn_target_fail _ _ Hm). cbn [fst].
    rewrite (subn_target_fail _ _ (target_fail_stable _ _ Hm)).
    rewrite (IH (length s)); [reflexivity|simpl in Hn; lia|reflexivity].
Qed.

(** Reading the attribute after the replacement gives [w]. *)
Lemma target_attribute_subn (s : pystr) :
  0 < snd (subn R t s) ->
  target_attribute (fst (subn R t s)) = Some w.
Proof.
  unfold target_attribute.
  remember (length s) as n eqn:Hn. revert s Hn.
  induction n as [n IH] using lt_wf_ind. intros s Hn.
  destruct s as [|c s]; [simpl; lia|].
  destruct (re_match R (c :: s)) as [[caps r]|] eqn:Hm.
  - destruct (subn_target_hit _ _ _ _ Hm) as [-> Hlt]. cbn [fst]. intros _.
    change target_prefix with ("t"%char :: tail target_prefix).
    cbn [app re_search]. rewrite re_match_target_attribute.
    change ("t"%char :: tail target_prefix ++ w ++ dq :: fst (subn R t r))
      with (target_prefix ++ w ++ dq :: fst (subn R t r)).
    rewrite strip_prefix_app, target_value_quoted by assumption.
    rewrite span_cls_stop;
      [reflexivity|assumption|unfold not_char; rewrite Ascii.eqb_refl; reflexivity].
  - rewrite (subn_target_fail _ _ Hm). cbn [fst snd re_search]. intros Hpos.
    pose proof (target_fail_stable _ _ Hm) as Hm'.
    rewrite re_match_target in Hm'. rewrite re_match_target_attribute.
    destruct (strip_prefix target_prefix (c :: fst (subn R t s))) as [u|].
    + destruct (target_value u); [discriminate|].
      apply (IH (length s)); [simpl in Hn; lia|reflexivity|exact Hpos].
    + apply (IH (length s)); [simpl in Hn; lia|reflexivity|exact Hpos].
Qed.
End NonEmpty.
End ReportFileName.

(** After every value has been replaced by the empty one, the pattern has
    no match left. *)
Lemma subn_target_emptied (s : pystr) :
  count_matches ReportFileName_re
    (fst (subn ReportFileName_re (ReportFileName_repl []) s)) = 0.
Proof.
  unfold count_matches.
  rewrite (subn_count _ [] (ReportFileName_repl [])).
  remember (length s) as n eqn:Hn. revert s Hn.
  induction n as [n IH] using lt_wf_ind. intros s Hn.
  destruct s as [|c s]; [reflexivity|].
  destruct (re_match ReportFileName_re (c :: s)) as [[caps r]|] eqn:Hm.
  - destruct (subn_target_hit [] _ _ _ _ Hm) as [-> Hlt]. cbn [fst app].
    rewrite subn_target_empty_value. cbn [snd].
    apply (IH (length r)); [lia|reflexivity].
  - rewrite (subn_target_fail _ _ _ Hm). cbn [fst].
    rewrite (subn_target_fail _ _ _ (target_fail_stable _ _ _ Hm)). cbn [snd].
    apply (IH (length s)); [simpl in Hn; lia|reflexivity].
Qed.

(** ** The report file name *)

Lemma setReportFileName_run (self : Copasi) (reportFile : pystr) (warn : bool) :
  0 < count_matches ReportFileName_re (content self) ->
  exists log : list report,
    run (setReportFileName reportFile warn) self =
      (log, inr (tt, with_content self (renamed reportFile (content self)))) /\
    Forall (fun r => r_fatal r = false) log /\
    (count_matches ReportFileName_re (content self) = 1 -> log = []).
Proof.
  intros Hpos. unfold setReportFileName, run, bind, get_self. cbn beta iota.
  rewrite !subn_count_matches.
  destruct (Nat.eqb_spec (count_matches ReportFileName_re (content self)) 0) as [E|_];
    [lia|].
  destruct (Nat.ltb_spec 1 (count_matches ReportFileName_re (content self)))
    as [Hgt|Hle]; destruct warn; simpl;
    eexists; (split; [reflexivity|]); (split; [repeat constructor|]);
    intros; try reflexivity; lia.
Qed.

Lemma getValidFilename_no_quote (name : pystr) :
  forallb (not_char dq) (_getValidFilename name) = true.
Proof.
  unfold _getValidFilename. induction name as [|c name IH]; [reflexivity|].
  cbn [List.filter].
  destruct (isalnum c || existsb (Ascii.eqb c) (str "._/")) eqn:Hkeep;
    [|exact IH].
  cbn [forallb]. rewrite IH, andb_true_r. unfold not_char.
  destruct (Ascii.eqb_spec c dq) as [->|_]; [|reflexivity].
  vm_compute in Hkeep. discriminate Hkeep.
Qed.

Lemma with_content_twice (self : Copasi) (a b : pystr) :
  with_content (with_content self a) b = with_content self b.
Proof. reflexivity. Qed.

(** The sanitized form of an ASCII name is what [_getValidFilename] makes
    of it. *)
Lemma getValidFilename_sanitized (name : pystr) :
  _getValidFilename name = sanitized name.
Proof.
  unfold _getValidFilename, sanitized. induction name as [|c name IH];
    [reflexivity|].
  cbn [List.filter]. rewrite IH.
  replace (bool_decide (c ∈ kept_characters))
    with (isalnum c || existsb (Ascii.eqb c) (str "._/")); [reflexivity|].
  destruct c as [[] [] [] [] [] [] [] []]; vm_compute; reflexivity.
Qed.

(** C3, as amended: on a document with exactly one report target, and for
    an ASCII name whose sanitized form is not empty, [setReportFileName]
    returns without logging, the attribute read back is the sanitized form
    of the name, and the same call on the result finds exactly one match
    again and leaves the content as it is. *)
Theorem C3_setReportFileName_round_trip (self : Copasi) (name : pystr)
    (warn : bool) :
  count_matches ReportFileName_re (content self) = 1 ->
  ascii_only name ->
  sanitized name <> [] ->
  let self' := with_content self (renamed name (content self)) in
  run (setReportFileName name warn) self = ([], inr (tt, self')) /\
  target_attribute (content self') = Some (sanitized name) /\
  count_matches ReportFileName_re (content self') = 1 /\
  run (setReportFileName name warn) self' = ([], inr (tt, self')).
Proof.
  intros Hone _ Hne self'. rewrite <- getValidFilename_sanitized in Hne |- *.
  pose proof (getValidFilename_no_quote name) as Hnq.
  assert (Hcount : count_matches ReportFileName_re (content self') = 1).
  { unfold self', renamed. cbn [content with_content]. unfold count_matches.
    rewrite (subn_count _ [] (ReportFileName_repl (_getValidFilename name))).
    rewrite (subn_target_idempotent _ Hne Hnq), subn_count_matches. exact Hone. }
  assert (Hrun : forall s : Copasi,
            count_matches ReportFileName_re (content s) = 1 ->
            run (setReportFileName name warn) s =
              ([], inr (tt, with_content s (renamed name (content s))))).
  { intros s Hs. destruct (setReportFileName_run s name warn) as (log & -> & _ & Hlog);
      [lia|]. rewrite (Hlog Hs). reflexivity. }
  split; [apply Hrun; exact Hone|]. split; [|split; [exact Hcount|]].
  - unfold self', renamed. cbn [content with_content].
    apply (target_attribute_subn _ Hne Hnq).
    rewrite subn_count_matches. lia.
  - rewrite (Hrun self' Hcount). unfold self', renamed.
    cbn [content with_content filename version].
    rewrite (subn_target_idempotent _ Hne Hnq). reflexivity.
Qed.

Lemma C3_setReportFileName_round_trip_witness :
  let self' :=
    with_content report_doc (renamed (str "my report.txt") (content report_doc)) in
  run (setReportFileName (str "my report.txt") false) report_doc =
    ([], inr (tt, self')) /\
  target_attribute (content self') = Some (str "myreport.txt") /\
  count_matches ReportFileName_re (content self') = 1 /\
  run (setReportFileName (str "my report.txt") false) self' = ([], inr (tt, self')).
Proof.
  apply (C3_setReportFileName_round_trip report_doc (str "my report.txt") false).
  - reflexivity.
  - reflexivity.
  - discriminate.
Defined.

(** C3, as stated, fails for a name whose sanitized form is empty: after
    [setReportFileName("???")] on a document with one report target the
    attribute has the empty value, reading it back as the mutator reads it
    finds nothing, and the same call a second time has no match and stops
    the program. *)
Lemma C3_counterexample :
  let self' := with_content report_doc (renamed (str "???") (content report_doc)) in
  count_matches ReportFileName_re (content report_doc) = 1 /\
  run (setReportFileName (str "???") false) report_doc = ([], inr (tt, self')) /\
  sanitized (str "???") = [] /\
  target_attribute (content self') = None /\
  target_attribute (content self') <> Some (sanitized (str "???")) /\
  count_matches ReportFileName_re (content self') = 0 /\
  is_fatal (run (setReportFileName (str "???") false) self') /\
  run (setReportFileName (str "???") false) self' <> ([], inr (tt, self')).
Proof.
  vm_compute. repeat split; try reflexivity; intros H; discriminate H.
Qed.

(** The same call on its own result changes nothing, when the sanitized
    name is not empty. *)
Lemma renamed_idempotent (reportFile text : pystr) :
  _getValidFilename reportFile <> [] ->
  renamed reportFile (renamed reportFile text) = renamed reportFile text /\
  count_matches ReportFileName_re (renamed reportFile text) =
    count_matches ReportFileName_re text.
Proof.
  intros Hne. unfold renamed, count_matches.
  rewrite !(subn_count _ [] (ReportFileName_repl (_getValidFilename reportFile))).
  rewrite (subn_target_idempotent _ Hne (getValidFilename_no_quote _)).
  split; reflexivity.
Qed.

(** C10: on a document with a report target the call returns, every target
    value being replaced by the sanitized name. When that name is empty, the
    pattern has no match afterwards, so that every later call of
    [setReportFileName], the same one included, is fatal. When it is not
    empty, the same call on the result returns again and leaves the content
    as it is. The name is an ASCII text. *)
Theorem C10_empty_name_breaks_later_calls (self : Copasi) (reportFile : pystr)
    (warn : bool) :
  0 < count_matches ReportFileName_re (content self) ->
  ascii_only reportFile ->
  exists (log : list report) (self' : Copasi),
    run (setReportFileName reportFile warn) self = (log, inr (tt, self')) /\
    Forall (fun r => r_fatal r = false) log /\
    content self' =
      fst (subn ReportFileName_re
             [TText (target_prefix ++ _getValidFilename reportFile ++ [dq])]
             (content self)) /\
    (_getValidFilename reportFile = [] ->
     count_matches ReportFileName_re (content self') = 0 /\
     forall (reportFile' : pystr) (warn' : bool),
       is_fatal (run (setReportFileName reportFile' warn') self')) /\
    (_getValidFilename reportFile <> [] ->
     count_matches ReportFileName_re (content self') =
       count_matches ReportFileName_re (content self) /\
     exists log' : list report,
       run (setReportFileName reportFile warn) self' = (log', inr (tt, self')) /\
       Forall (fun r => r_fatal r = false) log').
Proof.
  intros Hpos _.
  destruct (setReportFileName_run self reportFile warn Hpos) as (log & Hrun & Hlog & _).
  exists log, (with_content self (renamed reportFile (content self))).
  split; [exact Hrun|]. split; [exact Hlog|]. split; [reflexivity|]. split.
  - intros Hempty.
    assert (Hzero : count_matches ReportFileName_re
                      (content (with_content self (renamed reportFile (content self)))) = 0).
    { unfold renamed. rewrite Hempty. apply subn_target_emptied. }
    split; [exact Hzero|].
    intros reportFile' warn'. apply setReportFileName_none. exact Hzero.
  - intros Hne. destruct (renamed_idempotent reportFile (content self) Hne)
      as [Hsame Hcount].
    split; [exact Hcount|].
    destruct (setReportFileName_run
                (with_content self (renamed reportFile (content self)))
                reportFile warn) as (log' & Hrun' & Hlog' & _).
    { cbn [content with_content]. rewrite Hcount. exact Hpos. }
    exists log'. split; [|exact Hlog']. rewrite Hrun'.
    cbn [content with_content]. rewrite with_content_twice, Hsame. reflexivity.
Qed.

Lemma C10_empty_name_breaks_later_calls_witness :
  exists (log : list report) (self' : Copasi),
    run (setReportFileName (str "???") false) report_doc = (log, inr (tt, self')) /\
    Forall (fun r => r_fatal r = false) log /\
    content self' =
      fst (subn ReportFileName_re [TText (target_prefix ++ [dq])] (content report_doc)) /\
    count_matches ReportFileName_re (content self') = 0 /\
    forall (reportFile' : pystr) (warn' : bool),
      is_fatal (run (setReportFileName reportFile' warn') self').
Proof.
  destruct (C10_empty_name_breaks_later_calls report_doc (str "???") false)
    as (log & self' & Hrun & Hlog & Hcontent & Hempty & _).
  - vm_compute. lia.
  - reflexivity.
  - exists log, self'. destruct (Hempty eq_refl) as [Hzero Hfatal].
    split; [exact Hrun|]. split; [exact Hlog|]. split; [exact Hcontent|].
    split; [exact Hzero|exact Hfatal].
Defined.

(** ** The ordering of metabolites *)

Lemma for_each_app {S : Type} (body : S -> pystr -> exception + S) (st : S)
    (l1 l2 : list pystr) :
  for_each body st (l1 ++ l2) =
  match for_each body st l1 with
  | inl e => inl e
  | inr st' => for_each body st' l2
  end.
Proof.
  revert st. induction l1 as [|l l1 IH]; intros st; simpl; [reflexivity|].
  destruct (body st l); [reflexivity|apply IH].
Qed.

Section Metabolites.
Variables (appendComp : bool) (compartments : gmap pystr pystr).

(** Over the declarations the loop of [getMetabolites] is pass 1. *)
Lemma declarations_pass (ls : list pystr) (known : gmap pystr pystr)
    (acc : list pystr) :
  Forall (fun line => contains (str "<StateTemplateVariable") line = false) ls ->
  (appendComp = true ->
   forall line caps, line ∈ ls ->
     contains (str "<Metabolite") line = true ->
     re_search metabolite_re line = Some caps ->
     is_Some (compartments !! nth 2 caps [])) ->
  for_each (metabolite_step appendComp compartments) (known, acc) ls =
    inr (foldl (declare appendComp compartments) known ls, acc).
Proof.
  intros Hstv. revert known. induction Hstv as [|line ls Hline _ IH];
    intros known Hknown; [reflexivity|].
  cbn [for_each foldl].
  assert (Hstep : metabolite_step appendComp compartments (known, acc) line =
                  inr (declare appendComp compartments known line, acc)).
  { unfold metabolite_step, declare.
    destruct (contains (str "<Metabolite") line) eqn:Hm.
    - destruct (re_search metabolite_re line) as [caps|] eqn:Hre; [|reflexivity].
      unfold display_name. destruct appendComp; [|reflexivity].
      destruct (Hknown eq_refl line caps) as [comp Hcomp];
        [left|exact Hm|exact Hre|].
      rewrite Hcomp. reflexivity.
    - rewrite Hline. reflexivity. }
  rewrite Hstep. apply IH. intros Happ l caps Hl. apply (Hknown Happ).
  right. exact Hl.
Qed.

(** Over the state template it is pass 2. *)
Lemma references_pass (ls : list pystr) (known : gmap pystr pystr)
    (acc : list pystr) :
  Forall (fun line => contains (str "<Metabolite") line = false) ls ->
  for_each (metabolite_step appendComp compartments) (known, acc) ls =
    inr (known, acc ++ omap (fun key => known !! key) (omap reference_key ls)).
Proof.
  intros Hmet. revert acc. induction Hmet as [|line ls Hline _ IH]; intros acc.
  - simpl. rewrite app_nil_r. reflexivity.
  - cbn [for_each].
    change (omap reference_key (line :: ls))
      with (match reference_key line with
            | Some key => key :: omap reference_key ls
            | None => omap reference_key ls
            end).
    unfold metabolite_step at 1, reference_key at 1. rewrite Hline.
    destruct (contains (str "<StateTemplateVariable") line);
      [destruct (re_search reference_re line) as [caps|]|]; try apply IH.
    change (omap (fun key => known !! key) (nth 0 caps [] :: omap reference_key ls))
      with (match known !! nth 0 caps [] with
            | Some name => name :: omap (fun key => known !! key) (omap reference_key ls)
            | None => omap (fun key => known !! key) (omap reference_key ls)
            end).
    destruct (known !! nth 0 caps []) as [name|]; [|apply IH].
    rewrite IH, <- app_assoc. reflexivity.
Qed.

Lemma declare_no_declaration (ls : list pystr) (known : gmap pystr pystr) :
  Forall (fun line => contains (str "<Metabolite") line = false) ls ->
  foldl (declare appendComp compartments) known ls = known.
Proof.
  induction 1 as [|line ls Hline _ IH]; [reflexivity|].
  cbn [foldl]. unfold declare at 2. rewrite Hline. exact IH.
Qed.
End Metabolites.

Lemma reference_key_no_reference (ls : list pystr) :
  Forall (fun line => contains (str "<StateTemplateVariable") line = false) ls ->
  omap reference_key ls = [].
Proof.
  induction 1 as [|line ls Hline _ IH]; [reflexivity|].
  change (omap reference_key (line :: ls))
    with (match reference_key line with
          | Some key => key :: omap reference_key ls
          | None => omap reference_key ls
          end).
  unfold reference_key at 1. rewrite Hline. exact IH.
Qed.

Lemma metabolites_of_two_pass (text : pystr) (decls refs : list pystr) :
  lines text = decls ++ refs ->
  declarations_first decls refs ->
  compartments_known text ->
  metabolites_of text = inr (metabolites_two_pass text).
Proof.
  intros Hlines [Hdecls Hrefs] Hknown.
  unfold metabolites_of, metabolites_two_pass, dynamic_metabolites,
    state_template_references.
  rewrite Hlines, for_each_app, foldl_app, omap_app.
  rewrite declarations_pass.
  - rewrite references_pass by exact Hrefs.
    rewrite (declare_no_declaration _ _ _ _ Hrefs).
    rewrite (reference_key_no_reference _ Hdecls). reflexivity.
  - exact Hdecls.
  - intros Happ line caps Hin. apply Hknown.
    + apply Nat.ltb_lt. exact Happ.
    + rewrite Hlines. apply elem_of_app. left. exact Hin.
Qed.

(** C4, as amended: when the declarations of the metabolites come before
    the state template, and every dynamic metabolite lies in a declared
    compartment, [getMetabolites] returns the result of the two passes: the
    display names of the dynamic metabolites in the order of the references
    to them, a reference to anything else being passed over in silence, with
    the compartment name appended exactly when there is more than one
    compartment. *)
Theorem C4_getMetabolites_two_pass (self : Copasi) (decls refs : list pystr) :
  lines (content self) = decls ++ refs ->
  declarations_first decls refs ->
  compartments_known (content self) ->
  run getMetabolites self = ([], inr (metabolites_two_pass (content self), self)).
Proof.
  intros Hlines Hfirst Hknown. unfold run, getMetabolites, bind, get_self.
  cbn beta iota.
  rewrite (metabolites_of_two_pass _ _ _ Hlines Hfirst Hknown). reflexivity.
Qed.

Lemma C4_getMetabolites_two_pass_witness :
  run getMetabolites (MkCopasi (str "model.cps") model_text None) =
    ([], inr ([str "NAD_mito"; str "NAD_cytosol"],
              MkCopasi (str "model.cps") model_text None)).
Proof.
  apply (C4_getMetabolites_two_pass (MkCopasi (str "model.cps") model_text None)
           model_lines template_lines).
  - reflexivity.
  - split; repeat constructor.
  - intros _ line caps Hin.
    change (lines model_text) with (model_lines ++ template_lines) in Hin.
    unfold model_lines, template_lines in Hin. cbn [app] in Hin.
    repeat (apply elem_of_cons in Hin as [->|Hin]);
      try (intros Hc; discriminate Hc);
      try (intros _ Hre; vm_compute in Hre; discriminate Hre);
      try (intros _ Hre; vm_compute in Hre; injection Hre as <-;
           vm_compute; eexists; reflexivity).
    inversion Hin.
Defined.

(** C4, as stated, fails when the state template comes before the
    declarations: the loop reads the references while its map is empty and
    returns no name, where the two passes give both. *)
Lemma C4_counterexample :
  let self := MkCopasi (str "model.cps") template_first_text None in
  run getMetabolites self = ([], inr ([], self)) /\
  metabolites_two_pass (content self) = [str "NAD_mito"; str "NAD_cytosol"] /\
  run getMetabolites self <> ([], inr (metabolites_two_pass (content self), self)).
Proof.
  split; [|split]; [vm_compute; reflexivity..|].
  intros H. vm_compute in H. discriminate H.
Qed.

(** ** The result aggregator *)

Lemma scan_lines_values (fn : pystr) (ls : list pystr) (active : mode)
    (conc_dict flux_dict : table) :
  scan_lines fn active conc_dict flux_dict ls =
  match scan_values active ls with
  | inl e => inl e
  | inr (concs, fluxes) =>
      inr (put_all fn conc_dict concs, put_all fn flux_dict fluxes)
  end.
Proof.
  revert active conc_dict flux_dict.
  induction ls as [|raw ls IH]; intros active conc_dict flux_dict;
    [reflexivity|].
  cbn [scan_lines scan_values]. destruct active.
  - destruct (starts_with conc_header (strip raw)); [apply IH|].
    destruct (starts_with flux_header (strip raw)); apply IH.
  - destruct (strip raw) as [|c l]; [apply IH|].
    destruct (split_on tab (c :: l)) as [|name [|conc fields]]; try reflexivity.
    rewrite IH. destruct (scan_values Conc ls) as [e|[concs fluxes]]; reflexivity.
  - destruct (strip raw) as [|c l]; [reflexivity|].
    destruct (split_on tab (c :: l)) as [|name [|flux fields]]; try reflexivity.
    rewrite IH. destruct (scan_values Flux ls) as [e|[concs fluxes]]; reflexivity.
Qed.

Lemma single_file_values (f fn : pystr) (conc_dict flux_dict : table) :
  _get_values_from_single_file f fn conc_dict flux_dict =
  match file_values f with
  | inl e => inl e
  | inr (concs, fluxes) =>
      inr (put_all fn conc_dict concs, put_all fn flux_dict fluxes)
  end.
Proof.
  unfold _get_values_from_single_file, file_values.
  destruct (starts_with steady_marker f); [apply scan_lines_values|reflexivity].
Qed.

Lemma lookup2_put (d : table) (name fn v entity col : pystr) :
  lookup2 (put d name fn v) entity col =
  if decide (name = entity /\ fn = col) then Some v else lookup2 d entity col.
Proof.
  unfold lookup2, put. destruct (decide (name = entity)) as [->|Hne].
  - rewrite lookup_insert_eq. cbn [mbind option_bind].
    destruct (decide (fn = col)) as [->|Hcol].
    + rewrite lookup_insert_eq, decide_True by auto. reflexivity.
    + rewrite lookup_insert_ne by exact Hcol.
      rewrite decide_False by (intros [_ ?]; contradiction).
      destruct (d !! entity); [reflexivity|apply lookup_empty].
  - rewrite lookup_insert_ne by exact Hne.
    rewrite decide_False by (intros [? _]; contradiction). reflexivity.
Qed.

Lemma lookup2_put_all (fn : pystr) (values : list (pystr * pystr)) (d : table)
    (entity col : pystr) :
  lookup2 (put_all fn d values) entity col =
  if decide (fn = col) then
    match value_of values entity with
    | Some v => Some v
    | None => lookup2 d entity col
    end
  else lookup2 d entity col.
Proof.
  revert d. induction values as [|[name v] values IH]; intros d.
  - cbn. destruct (decide (fn = col)); reflexivity.
  - change (put_all fn d ((name, v) :: values))
      with (put_all fn (put d name fn v) values).
    rewrite IH, lookup2_put. cbn [value_of].
    destruct (decide (fn = col)) as [->|Hcol].
    + destruct (value_of values entity); [reflexivity|].
      unfold pystr_eqb. case_bool_decide as Hn.
      * rewrite decide_True by auto. reflexivity.
      * rewrite decide_False by (intros [? _]; contradiction). reflexivity.
    + rewrite decide_False by (intros [_ ?]; contradiction). reflexivity.
Qed.

Lemma dom_put (d : table) (name fn v : pystr) :
  dom (put d name fn v) = {[name]} ∪ dom d.
Proof. unfold put. apply dom_insert_L. Qed.

Lemma dom_put_all (fn : pystr) (values : list (pystr * pystr)) (d : table)
    (entity : pystr) :
  entity ∈ dom (put_all fn d values) <->
  entity ∈ dom d \/ is_Some (value_of values entity).
Proof.
  revert d. induction values as [|[name v] values IH]; intros d.
  - cbn. split; [auto|]. intros [H|[x Hx]]; [exact H|discriminate].
  - change (put_all fn d ((name, v) :: values))
      with (put_all fn (put d name fn v) values).
    rewrite IH, dom_put, elem_of_union, elem_of_singleton. cbn [value_of].
    unfold pystr_eqb. destruct (value_of values entity) as [x|].
    + split; intros _; right; eexists; reflexivity.
    + case_bool_decide as Hn.
      * split; intros _; [right; eexists; reflexivity|left; left; auto].
      * split.
        -- intros [[Heq|H]|[x Hx]]; [congruence|left; exact H|discriminate].
        -- intros [H|[x Hx]]; [left; right; exact H|discriminate].
Qed.

Lemma gather_cons (col : pystr) (values : list (pystr * pystr))
    (columns : list (pystr * list (pystr * pystr))) (d : table) :
  gather ((col, values) :: columns) d = gather columns (put_all col d values).
Proof. reflexivity. Qed.

Lemma lookup2_gather_other (columns : list (pystr * list (pystr * pystr)))
    (d : table) (entity col : pystr) :
  col ∉ columns.*1 ->
  lookup2 (gather columns d) entity col = lookup2 d entity col.
Proof.
  revert d. induction columns as [|[c vs] columns IH]; intros d Hcol;
    [reflexivity|].
  rewrite gather_cons, IH, lookup2_put_all.
  - rewrite decide_False; [reflexivity|]. intros ->. apply Hcol. left.
  - intros Hin. apply Hcol. right. exact Hin.
Qed.

Lemma lookup2_gather (columns : list (pystr * list (pystr * pystr)))
    (d : table) (i : nat) (col : pystr) (vs : list (pystr * pystr))
    (entity : pystr) :
  NoDup columns.*1 ->
  columns !! i = Some (col, vs) ->
  lookup2 (gather columns d) entity col =
  match value_of vs entity with
  | Some v => Some v
  | None => lookup2 d entity col
  end.
Proof.
  revert d i. induction columns as [|[c0 v0] columns IH]; intros d i Hnd Hi;
    [discriminate|].
  cbn [fmap list_fmap fst] in Hnd. apply NoDup_cons in Hnd as [Hc0 Hnd].
  rewrite gather_cons. destruct i as [|i].
  - injection Hi as -> ->.
    rewrite lookup2_gather_other by exact Hc0.
    rewrite lookup2_put_all, decide_True by reflexivity. reflexivity.
  - rewrite (IH _ i Hnd Hi), lookup2_put_all.
    rewrite decide_False; [reflexivity|]. intros ->. apply Hc0.
    apply list_elem_of_fmap. exists (col, vs). split; [reflexivity|].
    apply list_elem_of_lookup. exists i. exact Hi.
Qed.

Lemma dom_gather (columns : list (pystr * list (pystr * pystr))) (d : table)
    (entity : pystr) :
  entity ∈ dom (gather columns d) <->
  entity ∈ dom d \/
  exists col vs, (col, vs) ∈ columns /\ is_Some (value_of vs entity).
Proof.
  revert d. induction columns as [|[c0 v0] columns IH]; intros d.
  - cbn. split; [auto|]. intros [H|(col & vs & Hin & _)]; [exact H|].
    inversion Hin.
  - rewrite gather_cons, IH, dom_put_all. split.
    + intros [[H|H]|(col & vs & Hin & Hv)].
      * left. exact H.
      * right. exists c0, v0. split; [left|exact H].
      * right. exists col, vs. split; [right; exact Hin|exact Hv].
    + intros [H|(col & vs & Hin & Hv)]; [left; left; exact H|].
      apply elem_of_cons in Hin as [[= -> ->]|Hin].
      * left. right. exact Hv.
      * right. exists col, vs. split; assumption.
Qed.

Lemma collect_gather (disk : pystr -> option pystr) (filenames : list pystr)
    (contribs : list (list (pystr * pystr) * list (pystr * pystr)))
    (conc_dict flux_dict : table) :
  well_formed_results disk filenames contribs ->
  collect disk filenames conc_dict flux_dict =
    inr (gather (zip (map column_name filenames) contribs.*1) conc_dict,
         gather (zip (map column_name filenames) contribs.*2) flux_dict).
Proof.
  intros H. revert conc_dict flux_dict.
  induction H as [|fn [concs fluxes] filenames contribs (text & Hdisk & Hvals) _ IH];
    intros conc_dict flux_dict; [reflexivity|].
  cbn [collect]. rewrite Hdisk, single_file_values, Hvals. apply IH.
Qed.

(** *** The order of the rows *)

Lemma str_leb_total (a b : pystr) : str_leb a b = true \/ str_leb b a = true.
Proof.
  revert b. induction a as [|x a IH]; intros b; [left; reflexivity|].
  destruct b as [|y b]; [right; reflexivity|]. simpl.
  destruct (Nat.ltb_spec (code x) (code y)) as [Hxy|Hxy]; [left; reflexivity|].
  destruct (Nat.ltb_spec (code y) (code x)) as [Hyx|Hyx]; [right; reflexivity|].
  apply IH.
Qed.

Global Instance str_le_total : Total str_le.
Proof. intros a b. apply str_leb_total. Qed.

Lemma sorted_keys_sorted {V} (d : gmap pystr V) : Sorted str_le (sorted_keys d).
Proof. apply Sorted_merge_sort. apply _. Qed.

Lemma sorted_keys_NoDup {V} (d : gmap pystr V) : NoDup (sorted_keys d).
Proof.
  unfold sorted_keys. rewrite merge_sort_Permutation. apply NoDup_elements.
Qed.

Lemma elem_of_sorted_keys {V} (d : gmap pystr V) (k : pystr) :
  k ∈ sorted_keys d <-> is_Some (d !! k).
Proof.
  unfold sorted_keys. rewrite merge_sort_Permutation, elem_of_elements.
  apply elem_of_dom.
Qed.

Lemma cell_lookup2 (d : table) (entity col : pystr) :
  cell d entity col = default na (lookup2 d entity col).
Proof. unfold cell, lookup2. destruct (d !! entity); reflexivity. Qed.

Lemma rows_of_gather (filenames : list pystr)
    (values : list (list (pystr * pystr))) :
  NoDup (map column_name filenames) ->
  length filenames = length values ->
  rows_as_contributed (gather (zip (map column_name filenames) values) ∅)
    filenames values.
Proof.
  intros Hnd Hlen. unfold rows_as_contributed.
  split; [apply sorted_keys_sorted|]. split; [apply sorted_keys_NoDup|]. split.
  - intros entity. rewrite elem_of_sorted_keys, <- elem_of_dom, dom_gather.
    rewrite dom_empty_L. split.
    + intros [H|(col & vs & Hin & Hv)]; [inversion H|].
      exists vs. split; [|exact Hv].
      apply (list_elem_of_fmap_2 snd) in Hin. rewrite snd_zip in Hin; [exact Hin|].
      rewrite length_map. lia.
    + intros (vs & Hin & Hv). right.
      apply list_elem_of_lookup in Hin as [i Hi].
      destruct (lookup_lt_is_Some_2 (map column_name filenames) i) as [col Hcol].
      { rewrite length_map, Hlen. apply lookup_lt_Some in Hi. exact Hi. }
      exists col, vs. split; [|exact Hv].
      apply list_elem_of_lookup. exists i.
      apply lookup_zip_with_Some. exists col, vs. auto.
  - intros i fn vs entity Hfn Hvs. rewrite cell_lookup2.
    rewrite (lookup2_gather _ _ i (column_name fn) vs).
    + destruct (value_of vs entity); [reflexivity|].
      unfold lookup2. rewrite lookup_empty. reflexivity.
    + rewrite fst_zip; [exact Hnd|]. rewrite length_map. lia.
    + apply lookup_zip_with_Some. exists (column_name fn), vs.
      split; [reflexivity|]. split; [|exact Hvs].
      rewrite list_lookup_fmap, Hfn. reflexivity.
Qed.

Lemma table_list_text (d : table) (filenames : list pystr) :
  join [nl] (table_list d (map column_name filenames)) = table_text d filenames.
Proof.
  unfold table_text, table_list, table_row. do 2 f_equal.
  apply map_ext. intros entity. rewrite map_map. reflexivity.
Qed.

(** C5, as amended: for result files with pairwise distinct base names,
    each readable and with two fields on the lines of its result blocks, the
    two tables have a header with one column for each file, named by its base
    name, in the order of the file names, and one row for each entity a file
    gives a value for, the rows in the order of the names; the cell of a file
    and an entity is the value of the file, and [na] when the file has none.
    (A file that is not activated has no value.) *)
Theorem C5_get_tables (disk : pystr -> option pystr) (filenames : list pystr)
    (contribs : list (list (pystr * pystr) * list (pystr * pystr))) :
  NoDup (map column_name filenames) ->
  well_formed_results disk filenames contribs ->
  exists conc_dict flux_dict : table,
    collect disk filenames ∅ ∅ = inr (conc_dict, flux_dict) /\
    get_tables disk filenames =
      inr (table_text conc_dict filenames, table_text flux_dict filenames) /\
    rows_as_contributed conc_dict filenames contribs.*1 /\
    rows_as_contributed flux_dict filenames contribs.*2.
Proof.
  intros Hnd Hwf. pose proof (Forall2_length _ _ _ Hwf) as Hlen.
  eexists _, _. split; [apply (collect_gather _ _ _ _ _ Hwf)|]. split.
  - unfold get_tables. rewrite (collect_gather _ _ _ _ _ Hwf).
    rewrite !table_list_text. reflexivity.
  - split; apply rows_of_gather; try exact Hnd; rewrite length_fmap; exact Hlen.
Qed.

Lemma C5_get_tables_witness :
  exists conc_dict flux_dict : table,
    collect disk_ab [str "runs/a.txt"; str "b.txt"] ∅ ∅ = inr (conc_dict, flux_dict) /\
    get_tables disk_ab [str "runs/a.txt"; str "b.txt"] =
      inr (table_text conc_dict [str "runs/a.txt"; str "b.txt"],
           table_text flux_dict [str "runs/a.txt"; str "b.txt"]) /\
    rows_as_contributed conc_dict [str "runs/a.txt"; str "b.txt"]
      [[(str "X", str "1.0")]; [(str "X", str "3.0")]] /\
    rows_as_contributed flux_dict [str "runs/a.txt"; str "b.txt"]
      [[(str "R1", str "2.0")]; []].
Proof.
  apply (C5_get_tables disk_ab [str "runs/a.txt"; str "b.txt"]
           [([(str "X", str "1.0")], [(str "R1", str "2.0")]);
            ([(str "X", str "3.0")], [])]).
  - apply (bool_decide_unpack _). vm_compute. exact I.
  - repeat constructor; eexists; split; reflexivity.
Defined.

(** The scenario of the specification. *)
Example get_tables_scenario :
  get_tables disk_ab [str "runs/a.txt"; str "b.txt"] =
    inr (join [nl] [[tab] ++ str "a" ++ [tab] ++ str "b";
                    str "X" ++ [tab] ++ str "1.0" ++ [tab] ++ str "3.0"],
         join [nl] [[tab] ++ str "a" ++ [tab] ++ str "b";
                    str "R1" ++ [tab] ++ str "2.0" ++ [tab] ++ str "na"]).
Proof. vm_compute. reflexivity. Qed.

(** C5, as stated, fails for two files of the same base name: the second
    file has no value for [X], and its column shows the value of the
    first. *)
Lemma C5_counterexample :
  let filenames := [str "run1/x.txt"; str "run2/x.txt"] in
  let contribs := [([(str "X", str "1.0")], [(str "R1", str "2.0")]); ([], [])] in
  well_formed_results disk_same_name filenames contribs /\
  get_tables disk_same_name filenames =
    inr (join [nl] [[tab] ++ str "x" ++ [tab] ++ str "x";
                    str "X" ++ [tab] ++ str "1.0" ++ [tab] ++ str "1.0"],
         join [nl] [[tab] ++ str "x" ++ [tab] ++ str "x";
                    str "R1" ++ [tab] ++ str "2.0" ++ [tab] ++ str "2.0"]) /\
  ~ (exists conc_dict flux_dict : table,
       collect disk_same_name filenames ∅ ∅ = inr (conc_dict, flux_dict) /\
       rows_as_contributed conc_dict filenames contribs.*1 /\
       rows_as_contributed flux_dict filenames contribs.*2).
Proof.
  intros filenames contribs. split; [|split].
  - repeat constructor; eexists; split; reflexivity.
  - vm_compute. reflexivity.
  - intros (conc_dict & flux_dict & Hc & (_ & _ & _ & Hcell) & _).
    specialize (Hcell 1 (str "run2/x.txt") [] (str "X") eq_refl eq_refl).
    rewrite (collect_gather _ _ contribs) in Hc.
    + injection Hc as <- _. vm_compute in Hcell. discriminate Hcell.
    + repeat constructor; eexists; split; reflexivity.
Qed.

(** ** The sweep summarizer *)

Lemma split_on_nonempty (c : ascii) (s : pystr) : split_on c s <> [].
Proof.
  destruct s as [|a s]; simpl; [discriminate|].
  destruct (Ascii.eqb a c); [discriminate|].
  destruct (split_on c s); discriminate.
Qed.

Lemma split_on_app (c : ascii) (a b : pystr) :
  split_on c (a ++ c :: b) = split_on c a ++ split_on c b.
Proof.
  induction a as [|x a IH]; simpl.
  - rewrite Ascii.eqb_refl. reflexivity.
  - destruct (Ascii.eqb x c); [rewrite IH; reflexivity|].
    rewrite IH. pose proof (split_on_nonempty c a) as Hne.
    destruct (split_on c a) as [|f fs]; [contradiction|]. reflexivity.
Qed.

Lemma split_on_absent (c : ascii) (s : pystr) : c ∉ s -> split_on c s = [s].
Proof.
  induction s as [|x s IH]; intros Hc; [reflexivity|]. simpl.
  destruct (Ascii.eqb_spec x c) as [->|Hx]; [exfalso; apply Hc; left|].
  rewrite IH; [reflexivity|]. intros Hin. apply Hc. right. exact Hin.
Qed.

Lemma join_cons (sep x : pystr) (l : list pystr) :
  l <> [] -> join sep (x :: l) = x ++ sep ++ join sep l.
Proof. destruct l; [contradiction|reflexivity]. Qed.

Lemma join_split_on (c : ascii) (s : pystr) : join [c] (split_on c s) = s.
Proof.
  induction s as [|x s IH]; [reflexivity|]. simpl.
  pose proof (split_on_nonempty c s) as Hne.
  destruct (Ascii.eqb_spec x c) as [->|Hx].
  - rewrite join_cons by exact Hne. rewrite IH. reflexivity.
  - destruct (split_on c s) as [|f fs]; [contradiction|].
    destruct fs as [|g fs]; simpl in *; rewrite <- IH; reflexivity.
Qed.

(** The name without [.txt] is taken apart from the right. *)
Lemma split_scan_row_column (scan row column : pystr) :
  "_"%char ∉ row -> "_"%char ∉ column ->
  rev (split_on "_" (scan ++ str "_" ++ row ++ str "_" ++ column)) =
    column :: row :: rev (split_on "_" scan).
Proof.
  intros Hrow Hcol. change (str "_") with ["_"%char]. cbn [app].
  rewrite split_on_app, split_on_app.
  rewrite (split_on_absent _ _ Hrow), (split_on_absent _ _ Hcol).
  rewrite !rev_app_distr. reflexivity.
Qed.

Lemma append_lines_first (results : results_dict) (scan line : pystr)
    (new : list pystr) :
  append_lines (<[scan := default [] (results !! scan) ++ [line]]> results)
    scan new =
  append_lines results scan (line :: new).
Proof.
  unfold append_lines. destruct new as [|l new]; [reflexivity|].
  rewrite lookup_insert_eq, insert_insert_eq. simpl.
  rewrite <- app_assoc. reflexivity.
Qed.

Lemma record_lines_marked (scan row column : pystr) (ls : list pystr)
    (results : results_dict) :
  Forall (fun line => has_marker line = true -> 2 <= length (split_on tab line)) ls ->
  record_lines scan row column results ls =
    inr (append_lines results scan
           (map (triple row column) (List.filter has_marker ls))).
Proof.
  intros H. revert results. induction H as [|line ls Hline _ IH]; intros results;
    [reflexivity|].
  cbn [record_lines List.filter]. unfold has_marker in *.
  destruct (contains objective_marker line); [|apply IH].
  specialize (Hline eq_refl). cbn [map]. unfold triple at 1.
  destruct (split_on tab line) as [|f0 [|field fields]]; simpl in Hline; try lia.
  rewrite IH, append_lines_first. reflexivity.
Qed.

Lemma record_file_convention (disk : pystr -> option pystr)
    (results : results_dict) (filename text scan row column : pystr) :
  disk filename = Some text ->
  py_replace (str ".txt") [] filename =
    scan ++ str "_" ++ row ++ str "_" ++ column ->
  "_"%char ∉ row -> "_"%char ∉ column ->
  marked_lines_have_value text ->
  record_file disk results filename =
    inr (append_lines results scan
           (map (triple row column) (List.filter has_marker (file_lines text)))).
Proof.
  intros Hdisk Hbase Hrow Hcol Hval. unfold record_file.
  rewrite Hdisk, Hbase, (split_scan_row_column _ _ _ Hrow Hcol).
  rewrite rev_involutive. change (str "_") with ["_"%char].
  rewrite join_split_on. apply record_lines_marked. exact Hval.
Qed.

(** *** The usual case: a name that ends in [.txt] and has no other [.txt] *)

Lemma starts_with_txt_app (s : pystr) :
  starts_with (str ".txt") (s ++ str ".txt") = true ->
  s = [] \/ starts_with (str ".txt") s = true.
Proof.
  destruct s as [|c1 [|c2 [|c3 [|c4 s]]]]; [left; reflexivity|..]; intros H;
    right; cbn in H |- *;
    repeat match type of H with
           | context [Ascii.eqb ?a ?b] =>
               destruct (Ascii.eqb_spec a b); subst; cbn in H |- *;
               try discriminate H
           end; try reflexivity; try discriminate.
Qed.

Lemma py_replace_txt (stem : pystr) :
  contains (str ".txt") stem = false ->
  py_replace (str ".txt") [] (stem ++ str ".txt") = stem.
Proof.
  unfold py_replace. induction stem as [|c stem IH]; intros Hno; [reflexivity|].
  cbn [contains] in Hno. apply orb_false_iff in Hno as [Hhere Hlater].
  change ((c :: stem) ++ str ".txt") with (c :: (stem ++ str ".txt")).
  cbn [replace_from].
  destruct (starts_with (str ".txt") (c :: stem ++ str ".txt")) eqn:Hs.
  - destruct (starts_with_txt_app (c :: stem) Hs) as [Hnil|Hst];
      [discriminate Hnil|congruence].
  - rewrite (IH Hlater). reflexivity.
Qed.

(** On a line where no tabulator comes before the marker, the value is the
    field that follows the marker. *)
Lemma triple_after_marker (row column pre rest : pystr) :
  tab ∉ pre ->
  triple row column (pre ++ objective_marker ++ tab :: rest) =
    join [tab] [row; column; strip (hd [] (split_on tab rest))].
Proof.
  intros Hpre. unfold triple. rewrite app_assoc, split_on_app.
  rewrite (split_on_absent tab (pre ++ objective_marker)).
  - pose proof (split_on_nonempty tab rest) as Hne.
    destruct (split_on tab rest) as [|f fs]; [contradiction|]. reflexivity.
  - intros Hin. apply elem_of_app in Hin as [Hin|Hin]; [exact (Hpre Hin)|].
    vm_compute in Hin.
    repeat (apply elem_of_cons in Hin as [Hin|Hin]; [discriminate Hin|]).
    inversion Hin.
Qed.

(** * Further properties *)

(** ** A match is a prefix of the text *)

Lemma rep_Some {R : Type} (g : bool) (cls : ascii -> bool)
    (k : pystr -> option R) (n : nat) (s : pystr) (r : R) :
  rep g cls k n s = Some r ->
  exists v s', s = v ++ s' /\ forallb cls v = true /\ n <= length v /\ k s' = Some r.
Proof.
  revert n. induction s as [|c s IH]; intros n.
  - simpl. destruct n; [|discriminate]. intros H.
    exists [], []. repeat split; [lia|exact H].
  - assert (Hstop : match n with 0 => k (c :: s) | S _ => None end = Some r ->
                    exists v s', c :: s = v ++ s' /\ forallb cls v = true /\
                                 n <= length v /\ k s' = Some r).
    { destruct n; [|discriminate]. intros H.
      exists [], (c :: s). repeat split; [lia|exact H]. }
    assert (Hmore : cls c = true -> rep g cls k (pred n) s = Some r ->
                    exists v s', c :: s = v ++ s' /\ forallb cls v = true /\
                                 n <= length v /\ k s' = Some r).
    { intros Hc H. destruct (IH _ H) as (v & s' & -> & Hv & Hn & Hk).
      exists (c :: v), s'. simpl. rewrite Hc, Hv. repeat split; [lia|exact Hk]. }
    simpl. destruct (cls c) eqn:Hc; [|exact Hstop]. destruct g.
    + destruct (rep true cls k (pred n) s) eqn:E; [|exact Hstop].
      intros [= ->]. apply Hmore; reflexivity.
    + destruct (match n with 0 => k (c :: s) | S _ => None end) eqn:E.
      * intros [= ->]. apply Hstop. reflexivity.
      * apply Hmore. reflexivity.
Qed.

Lemma match_at_suffix (p : pattern) (s : pystr) (opened caps caps' : list pystr)
    (rest : pystr) :
  match_at p s opened caps = Some (caps', rest) -> exists m, s = m ++ rest.
Proof.
  revert s opened caps. induction p as [|i p IH]; intros s opened caps.
  - simpl. intros [= _ ->]. exists []. reflexivity.
  - destruct i as [a|cls|g cls n| |]; cbn [match_at].
    + destruct s as [|c s]; [discriminate|].
      destruct (Ascii.eqb c a); [|discriminate].
      intros H. destruct (IH _ _ _ H) as [m ->]. exists (c :: m). reflexivity.
    + destruct s as [|c s]; [discriminate|].
      destruct (cls c); [|discriminate].
      intros H. destruct (IH _ _ _ H) as [m ->]. exists (c :: m). reflexivity.
    + intros H. apply rep_Some in H as (v & s' & -> & _ & _ & H).
      destruct (IH _ _ _ H) as [m ->]. exists (v ++ m). apply app_assoc.
    + apply IH.
    + destruct opened as [|start opened]; [discriminate|]. apply IH.
Qed.

Lemma re_match_suffix (p : pattern) (s : pystr) (caps : list pystr) (rest : pystr) :
  re_match p s = Some (caps, rest) -> exists m, s = m ++ rest.
Proof. apply match_at_suffix. Qed.

(** ** Exactly one match: only the match changes *)

Lemma subn_one_match (p : pattern) (t : template) (s : pystr) :
  snd (subn p t s) = 1 -> replaces_one p t s (fst (subn p t s)).
Proof.
  induction s as [|c s IH]; [discriminate|].
  rewrite subn_cons. unfold subn_step.
  assert (Hskip : snd (subn p t s) = 1 ->
                  replaces_one p t (c :: s) (c :: fst (subn p t s))).
  { intros H. destruct (IH H) as (pre & m & post & caps & Hs & Hm & Hre & Hout).
    exists (c :: pre), m, post, caps. rewrite Hs at 1. rewrite Hout.
    repeat split; assumption. }
  destruct (re_match p (c :: s)) as [[caps rest]|] eqn:Hre; [|exact Hskip].
  destruct (Nat.ltb_spec (length rest) (length (c :: s))) as [Hlt|_];
    [|exact Hskip].
  cbn [fst snd]. intros [= Hzero].
  destruct (re_match_suffix _ _ _ _ Hre) as [m Hm].
  exists [], m, rest, caps. rewrite (subn_zero _ _ _ Hzero).
  split; [exact Hm|]. split; [|split; [rewrite <- Hm; exact Hre|reflexivity]].
  intros ->. rewrite Hm in Hlt. simpl in Hlt. lia.
Qed.

Ltac one_match H :=
  unfold silently_replaces_one, run, bind, get_self; cbn beta iota;
  rewrite ?subn_count_matches, H; cbn;
  eexists; split; [reflexivity|];
  apply subn_one_match; rewrite subn_count_matches; exact H.

Lemma setMCAOptiParameters_one (self : Copasi) (objleft objright : Z) :
  count_matches MCAOpti_re (content self) = 1 ->
  silently_replaces_one (run (setMCAOptiParameters objleft objright) self) self
    MCAOpti_re (MCAOpti_repl objleft objright).
Proof. intros H. unfold setMCAOptiParameters. one_match H. Qed.

Lemma setOptiMinMax_one (self : Copasi) (minimize warn : bool) :
  count_matches OptiMinMax_re (content self) = 1 ->
  silently_replaces_one (run (setOptiMinMax minimize warn) self) self
    OptiMinMax_re (OptiMinMax_repl minimize).
Proof. intros H. unfold setOptiMinMax. one_match H. Qed.

Lemma setOptimizationTargetType_one (self : Copasi) (optiType long : pystr) :
  types !! optiType = Some long ->
  count_matches TargetType_re (content self) = 1 ->
  silently_replaces_one (run (setOptimizationTargetType optiType) self) self
    TargetType_re (TargetType_repl long).
Proof.
  intros Hty H. unfold setOptimizationTargetType, silently_replaces_one, run,
    bind, get_self. cbn beta iota. rewrite Hty.
  rewrite ?subn_count_matches, H. cbn. eexists. split; [reflexivity|].
  apply subn_one_match. rewrite subn_count_matches. exact H.
Qed.

Lemma setOptimizationMethod_one (self : Copasi) (method : pystr) (t : template) :
  (method = str "EP" /\ t = Method_EP) \/ (method = str "PS" /\ t = Method_PS) ->
  count_matches Method_re (content self) = 1 ->
  silently_replaces_one (run (setOptimizationMethod method) self) self Method_re t.
Proof.
  intros [[-> ->]|[-> ->]] H; unfold setOptimizationMethod, silently_replaces_one,
    run, bind, get_self, ret; cbn beta iota;
    change (pystr_eqb (str "EP") (str "EP")) with true;
    change (pystr_eqb (str "PS") (str "EP")) with false;
    change (pystr_eqb (str "PS") (str "PS")) with true; cbn beta iota;
    rewrite ?subn_count_matches, H; cbn; (eexists; split; [reflexivity|]);
    apply subn_one_match; rewrite subn_count_matches; exact H.
Qed.

Lemma setTaskToMCA_one (self : Copasi) :
  count_matches TaskToMCA_re (content self) = 1 ->
  silently_replaces_one (run setTaskToMCA self) self TaskToMCA_re TaskToMCA_repl.
Proof. intros H. unfold setTaskToMCA. one_match H. Qed.

Lemma setReportFileName_one (self : Copasi) (reportFile : pystr) (warn : bool) :
  count_matches ReportFileName_re (content self) = 1 ->
  silently_replaces_one (run (setReportFileName reportFile warn) self) self
    ReportFileName_re (ReportFileName_repl (_getValidFilename reportFile)).
Proof. intros H. unfold setReportFileName. one_match H. Qed.

Lemma setOptimizationItem_one (self : Copasi) (name lower start upper : pystr)
    (parameter : option pystr) :
  count_matches (OptimizationItem_re name parameter) (content self) = 1 ->
  silently_replaces_one
    (run (setOptimizationItem name lower start upper parameter) self) self
    (OptimizationItem_re name parameter)
    (OptimizationItem_repl name lower start upper parameter).
Proof. intros H. unfold setOptimizationItem. one_match H. Qed.

Lemma delOptimizationItem_one (self : Copasi) (name : pystr)
    (parameter : option pystr) :
  count_matches (delOptimizationItem_re name parameter) (content self) = 1 ->
  silently_replaces_one (run (delOptimizationItem name parameter) self) self
    (delOptimizationItem_re name parameter) [].
Proof. intros H. unfold delOptimizationItem. one_match H. Qed.

Lemma setParameter_one (self : Copasi) (reaction parameter value : pystr) :
  count_matches (Parameter_re reaction parameter) (content self) = 1 ->
  silently_replaces_one (run (setParameter reaction parameter value) self) self
    (Parameter_re reaction parameter) (Parameter_repl reaction parameter value).
Proof. intros H. unfold setParameter. one_match H. Qed.



(** ** Deleting an optimization item *)

(** The text matched by a pattern that ends in literals ends in them. *)
Lemma match_at_ends_with_lits (p : pattern) (l s : pystr)
    (opened caps caps' : list pystr) (rest : pystr) :
  match_at (p ++ map Lit l) s opened caps = Some (caps', rest) ->
  exists m, s = m ++ l ++ rest.
Proof.
  revert s opened caps. induction p as [|i p IH]; intros s opened caps.
  - cbn [app]. rewrite <- (app_nil_r (map Lit l)), match_at_lits.
    destruct (strip_prefix l s) as [u|] eqn:Hu; [|discriminate].
    cbn [match_at]. intros [= _ ->]. exists [].
    apply (strip_prefix_Some _ _ _ Hu).
  - destruct i as [a|cls|g cls n| |]; cbn [match_at app].
    + destruct s as [|c s]; [discriminate|].
      destruct (Ascii.eqb c a); [|discriminate].
      intros H. destruct (IH _ _ _ H) as [m ->]. exists (c :: m). reflexivity.
    + destruct s as [|c s]; [discriminate|].
      destruct (cls c); [|discriminate].
      intros H. destruct (IH _ _ _ H) as [m ->]. exists (c :: m). reflexivity.
    + intros H. apply rep_Some in H as (v & s' & -> & _ & _ & H).
      destruct (IH _ _ _ H) as [m ->]. exists (v ++ m). apply app_assoc.
    + apply IH.
    + destruct opened as [|start opened]; [discriminate|]. apply IH.
Qed.

Lemma delOptimizationItem_re_shape (name : pystr) (parameter : option pystr) :
  exists p, delOptimizationItem_re name parameter =
            spaces1 :: p ++ map Lit (str "</ParameterGroup>").
Proof.
  unfold delOptimizationItem_re, lits. destruct parameter; cbv beta iota;
    match goal with
    | |- exists p, [?a] ++ ?X = _ =>
        let H := fresh in
        assert (H : exists q, X = q ++ map Lit (str "</ParameterGroup>"))
          by (repeat rewrite app_assoc; eexists; reflexivity);
        destruct H as [q ->]; exists q; reflexivity
    end.
Qed.

(** An item that is there exactly once is deleted with its block, and with
    nothing else: the block begins with white space and ends with the end
    tag of the parameter group, and the content gets shorter by its length.
    The name and the parameter of the item are texts without special
    characters of [re]. *)
Theorem delOptimizationItem_removes_block (self : Copasi) (name : pystr)
    (parameter : option pystr) :
  regex_plain name -> regex_plain_opt parameter ->
  count_matches (delOptimizationItem_re name parameter) (content self) = 1 ->
  exists pre block post : pystr,
    content self = pre ++ block ++ post /\
    (exists c b, block = c :: b /\ is_space c = true) /\
    (exists b, block = b ++ str "</ParameterGroup>") /\
    run (delOptimizationItem name parameter) self =
      ([], inr (tt, with_content self (pre ++ post))) /\
    length (pre ++ post) + length block = length (content self).
Proof.
  intros _ _ H. destruct (delOptimizationItem_one self name parameter H)
    as (text & Hrun & pre & block & post & caps & Hold & Hne & Hre & Hnew).
  exists pre, block, post. split; [exact Hold|].
  destruct (delOptimizationItem_re_shape name parameter) as [p Hp].
  unfold re_match in Hre. rewrite Hp in Hre. split; [|split; [|split]].
  - cbn [match_at] in Hre. unfold spaces1 in Hre.
    apply rep_Some in Hre as (v & s' & Hv & Hsp & Hlen & _).
    destruct block as [|c b]; [contradiction|]. exists c, b.
    split; [reflexivity|]. destruct v as [|c' v]; [simpl in Hlen; lia|].
    injection Hv as -> _. simpl in Hsp. apply andb_true_iff in Hsp as [Hc _].
    exact Hc.
  - change (spaces1 :: p ++ map Lit (str "</ParameterGroup>"))
      with ((spaces1 :: p) ++ map Lit (str "</ParameterGroup>")) in Hre.
    apply match_at_ends_with_lits in Hre as [m Hm].
    exists m. rewrite app_assoc in Hm. apply app_inv_tail in Hm. exact Hm.
  - rewrite Hrun, Hnew. reflexivity.
  - rewrite Hold, !length_app. lia.
Qed.

Lemma delOptimizationItem_removes_block_witness :
  exists pre block post : pystr,
    content sample_doc = pre ++ block ++ post /\
    (exists c b, block = c :: b /\ is_space c = true) /\
    (exists b, block = b ++ str "</ParameterGroup>") /\
    run (delOptimizationItem (str "k1") None) sample_doc =
      ([], inr (tt, with_content sample_doc (pre ++ post))) /\
    length (pre ++ post) + length block = length (content sample_doc).
Proof.
  apply (delOptimizationItem_removes_block sample_doc (str "k1") None).
  - reflexivity.
  - exact I.
  - vm_compute. reflexivity.
Defined.

(** ** The report file name: the last call wins *)

Lemma subn_target_last_wins (w1 w2 s : pystr) :
  w1 <> [] -> forallb (not_char dq) w1 = true ->
  subn ReportFileName_re (ReportFileName_repl w2)
    (fst (subn ReportFileName_re (ReportFileName_repl w1) s)) =
  subn ReportFileName_re (ReportFileName_repl w2) s.
Proof.
  intros Hne Hnq. remember (length s) as n eqn:Hn. revert s Hn.
  induction n as [n IH] using lt_wf_ind. intros s Hn.
  destruct s as [|c s]; [reflexivity|].
  destruct (re_match ReportFileName_re (c :: s)) as [[caps r]|] eqn:Hm.
  - destruct (subn_target_hit w1 _ _ _ _ Hm) as [-> Hlt].
    destruct (subn_target_hit w2 _ _ _ _ Hm) as [-> _]. cbn [fst].
    assert (Hre : re_match ReportFileName_re
                    (target_prefix ++ w1 ++
                     dq :: fst (subn ReportFileName_re (ReportFileName_repl w1) r)) =
                  Some ([], fst (subn ReportFileName_re (ReportFileName_repl w1) r))).
    { rewrite re_match_target, strip_prefix_app, target_value_quoted by assumption.
      reflexivity. }
    change target_prefix with ("t"%char :: tail target_prefix) in Hre |- * at 1.
    cbn [app] in Hre |- *.
    destruct (subn_target_hit w2 _ _ _ _ Hre) as [-> _].
    rewrite (IH (length r)); [reflexivity|lia|reflexivity].
  - rewrite !(subn_target_fail _ _ _ Hm). cbn [fst].
    rewrite (subn_target_fail _ _ _ (target_fail_stable w1 _ _ Hm)).
    rewrite (IH (length s)); [reflexivity|simpl in Hn; lia|reflexivity].
Qed.

Lemma renamed_last_wins (name1 name2 text : pystr) :
  _getValidFilename name1 <> [] ->
  renamed name2 (renamed name1 text) = renamed name2 text.
Proof.
  intros Hne. unfold renamed.
  rewrite (subn_target_last_wins _ _ _ Hne (getValidFilename_no_quote _)).
  reflexivity.
Qed.

(** After a call with a name whose sanitized form is not empty, a second
    call gives what it gives on the document before the first: only the last
    report file name counts. The two names are ASCII texts. *)
Theorem setReportFileName_last_call_wins (self : Copasi) (name1 name2 : pystr)
    (warn1 warn2 : bool) :
  ascii_only name1 -> ascii_only name2 ->
  0 < count_matches ReportFileName_re (content self) ->
  _getValidFilename name1 <> [] ->
  exists (log1 log2 : list report) (self1 : Copasi),
    run (setReportFileName name1 warn1) self = (log1, inr (tt, self1)) /\
    run (setReportFileName name2 warn2) self1 =
      (log2, inr (tt, with_content self (renamed name2 (content self)))) /\
    Forall (fun r => r_fatal r = false) (log1 ++ log2).
Proof.
  intros _ _ Hpos Hne.
  destruct (setReportFileName_run self name1 warn1 Hpos) as (log1 & Hrun1 & Hlog1 & _).
  destruct (renamed_idempotent name1 (content self) Hne) as [_ Hcount].
  destruct (setReportFileName_run (with_content self (renamed name1 (content self)))
              name2 warn2) as (log2 & Hrun2 & Hlog2 & _).
  { cbn [content with_content]. lia. }
  exists log1, log2, (with_content self (renamed name1 (content self))).
  split; [exact Hrun1|]. split; [|apply Forall_app; split; assumption].
  rewrite Hrun2. cbn [content with_content].
  rewrite with_content_twice, (renamed_last_wins _ _ _ Hne). reflexivity.
Qed.

Lemma setReportFileName_last_call_wins_witness :
  exists (log1 log2 : list report) (self1 : Copasi),
    run (setReportFileName (str "first.txt") false) sample_doc = (log1, inr (tt, self1)) /\
    run (setReportFileName (str "second.txt") true) self1 =
      (log2, inr (tt, with_content sample_doc
                        (renamed (str "second.txt") (content sample_doc)))) /\
    Forall (fun r => r_fatal r = false) (log1 ++ log2).
Proof.
  apply (setReportFileName_last_call_wins sample_doc (str "first.txt")
           (str "second.txt") false true).
  - reflexivity.
  - reflexivity.
  - vm_compute. lia.
  - vm_compute. discriminate.
Defined.

(** ** The copies of [parallelCopasi.py] *)

Lemma getValidFilename_app (a b : pystr) :
  _getValidFilename (a ++ b) = _getValidFilename a ++ _getValidFilename b.
Proof. unfold _getValidFilename. apply List.filter_app. Qed.

Lemma getValidFilename_underscore (a b : pystr) :
  _getValidFilename (a ++ str "_" ++ b) <> [].
Proof.
  rewrite !getValidFilename_app.
  change (_getValidFilename (str "_")) with (str "_").
  destruct (_getValidFilename a); discriminate.
Qed.

Lemma copy_loop_run (writable : pystr -> bool) (basefile text0 : pystr)
    (n m : nat) (self : Copasi) :
  (forall f, writable f = true) ->
  0 < count_matches ReportFileName_re text0 ->
  (forall name, renamed name (content self) = renamed name text0) ->
  count_matches ReportFileName_re (content self) =
    count_matches ReportFileName_re text0 ->
  exists (log : list report) (text : pystr),
    run (copy_loop writable basefile m n) self =
      (log, inr (map (copy_of basefile text0) (seq m n), with_content self text)) /\
    Forall (fun r => r_fatal r = false) log.
Proof.
  intros Hw Hpos. revert m self. induction n as [|n IH]; intros m self Hren Hcount.
  - exists [], (content self). split; [|constructor].
    destruct self. reflexivity.
  - cbn [copy_loop seq map].
    set (outfilebase := basefile ++ str "_" ++ str_of_Z (Z.of_nat m + 1)).
    assert (Hne : _getValidFilename (outfilebase ++ str ".txt") <> []).
    { unfold outfilebase. rewrite <- !app_assoc. apply getValidFilename_underscore. }
    destruct (setReportFileName_run self (outfilebase ++ str ".txt") false)
      as (log1 & Hrun1 & Hlog1 & _); [lia|].
    destruct (renamed_idempotent (outfilebase ++ str ".txt") (content self) Hne)
      as [_ Hcount1].
    destruct (IH (S m) (with_content self
                          (renamed (outfilebase ++ str ".txt") (content self))))
      as (log2 & text & Hrun2 & Hlog2).
    { intros name. cbn [content with_content].
      rewrite (renamed_last_wins _ _ _ Hne). apply Hren. }
    { cbn [content with_content]. lia. }
    exists (log1 ++ log2), text. split; [|apply Forall_app; split; assumption].
    unfold run, bind in *. rewrite Hrun1. unfold saveCopasiFile, bind, get_self, ret.
    rewrite Hw. cbn [content with_content] in *. rewrite Hrun2.
    rewrite app_nil_r. cbn [app]. rewrite with_content_twice.
    unfold copy_of. fold outfilebase. rewrite Hren. rewrite !app_nil_r.
    reflexivity.
Qed.

(** ** Loading: fatal only for a file that cannot be read *)

Lemma new_Copasi_unreadable (disk : pystr -> option pystr) (filename : pystr) :
  disk (cps_name filename) = None ->
  new_Copasi disk filename =
    ([Report (cps_name filename)
        (str "An OS Error was raised while reading the input file.") true],
     inl (SysExit 1)).
Proof.
  intros Hdisk. unfold new_Copasi, __init__, openCopasiFile, cps_name in *.
  destruct (ends_with (str ".cps") filename); run_monad; rewrite Hdisk;
    reflexivity.
Qed.

Lemma init_with_version (disk : pystr -> option pystr) (path text : pystr)
    (caps : list pystr) :
  disk (cps_name path) = Some text ->
  re_search version_re text = Some caps ->
  new_Copasi disk path =
    (if bool_decide (nth 0 caps [] ∈ testedVersions) then []
     else [Report (cps_name path)
             (str "The Copasi file version (" ++ nth 0 caps [] ++
              str ") is not supported.") false],
     inr (MkCopasi (cps_name path) text (Some (nth 0 caps [])))).
Proof.
  intros Hdisk Hre.
  unfold new_Copasi, __init__, openCopasiFile, getVersion, checkVersion.
  unfold cps_name in *.
  destruct (ends_with (str ".cps") path); run_monad; rewrite Hdisk; simpl;
    rewrite Hre; simpl;
    destruct (bool_decide (nth 0 caps [] ∈ testedVersions)); reflexivity.
Qed.

Lemma new_Copasi_readable (disk : pystr -> option pystr) (path text : pystr) :
  disk (cps_name path) = Some text ->
  exists (log : list report) (self : Copasi),
    new_Copasi disk path = (log, inr self) /\
    Forall (fun r => r_fatal r = false) log /\
    filename self = cps_name path /\
    content self = text /\
    version self = (fun caps => nth 0 caps []) <$> re_search version_re text /\
    (log = [] <-> exists v, version self = Some v /\ v ∈ testedVersions).
Proof.
  intros Hdisk. destruct (re_search version_re text) as [caps|] eqn:Hre.
  - rewrite (init_with_version _ _ _ _ Hdisk Hre).
    eexists _, _. split; [reflexivity|]. cbn [version content filename fmap option_fmap option_map].
    case_bool_decide as Hv.
    + split; [constructor|]. do 3 (split; [reflexivity|]).
      split; [intros _; eexists; split; [reflexivity|exact Hv]|reflexivity].
    + split; [repeat constructor|]. do 3 (split; [reflexivity|]).
      split; [discriminate|]. intros (v & [= <-] & Hv'). contradiction.
  - rewrite (init_without_version _ _ _ Hdisk Hre).
    eexists _, _. split; [reflexivity|]. cbn [version content filename].
    split; [repeat constructor|]. do 3 (split; [reflexivity|]).
    split; [discriminate|]. intros (v & Hv' & _). discriminate Hv'.
Qed.

(** Loading stops the program exactly when the file cannot be read. *)
Theorem loading_fatal_iff_unreadable (disk : pystr -> option pystr) (path : pystr) :
  is_fatal (new_Copasi disk path) <-> disk (cps_name path) = None.
Proof.
  unfold is_fatal. destruct (disk (cps_name path)) as [text|] eqn:Hdisk.
  - destruct (new_Copasi_readable _ _ _ Hdisk) as (log & self & -> & _).
    split; discriminate.
  - rewrite (new_Copasi_unreadable _ _ Hdisk). split; reflexivity.
Qed.

(** A file that can be read is loaded whatever its version: the object has
    the name with [.cps], the text of the file and the version of the version
    comment, if there is one; something is logged, none of it fatal, unless
    the version is one of the two tested ones. *)
Theorem loading_logs_unless_version_tested (disk : pystr -> option pystr)
    (path text : pystr) :
  disk (cps_name path) = Some text ->
  exists (log : list report) (self : Copasi),
    new_Copasi disk path = (log, inr self) /\
    Forall (fun r => r_fatal r = false) log /\
    filename self = cps_name path /\
    content self = text /\
    version self = (fun caps => nth 0 caps []) <$> re_search version_re text /\
    (log = [] <-> exists v, version self = Some v /\ v ∈ testedVersions).
Proof. apply new_Copasi_readable. Qed.

Lemma loading_logs_unless_version_tested_witness :
  exists (log : list report) (self : Copasi),
    new_Copasi (fun _ => Some sample_text) (str "glycolysis") = (log, inr self) /\
    Forall (fun r => r_fatal r = false) log /\
    filename self = str "glycolysis.cps" /\
    content self = sample_text /\
    version self =
      (fun caps => nth 0 caps []) <$> re_search version_re sample_text /\
    (log = [] <-> exists v, version self = Some v /\ v ∈ testedVersions).
Proof.
  apply (loading_logs_unless_version_tested (fun _ => Some sample_text)
           (str "glycolysis") sample_text).
  reflexivity.
Defined.

(** [parallelCopasi.py]: when the model can be read and has a report target,
    and the copies can be written, the script writes [totNumber] copies; the
    [k]-th one differs from the model in its report targets only, which are
    the sanitized name of the copy with [.txt], whatever the copies before
    it were. None for a [totNumber] below one. The name of the model is an
    ASCII text. *)
Theorem parallelCopasi_py_copies (disk : pystr -> option pystr)
    (writable : pystr -> bool) (infile text : pystr) (totNumber : Z) :
  ascii_only infile ->
  disk (cps_name infile) = Some text ->
  (forall f, writable f = true) ->
  0 < count_matches ReportFileName_re text ->
  exists (log : list report) (self : Copasi),
    parallelCopasi_py disk writable infile totNumber =
      (log, inr (map (copy_of (py_replace (str ".cps") [] infile) text)
                     (seq 0 (Z.to_nat totNumber)), self)) /\
    Forall (fun r => r_fatal r = false) log.
Proof.
  intros _ Hdisk Hw Hpos. unfold parallelCopasi_py.
  destruct (new_Copasi_readable _ _ _ Hdisk) as (log & self & -> & Hlog & _ & Hc & _).
  destruct (copy_loop_run writable (py_replace (str ".cps") [] infile) text
              (Z.to_nat totNumber) 0 self Hw Hpos) as (log' & text' & Hrun & Hlog').
  { intros name. rewrite Hc. reflexivity. }
  { rewrite Hc. reflexivity. }
  unfold run in Hrun. rewrite Hrun. eexists _, _. split; [reflexivity|].
  apply Forall_app. split; assumption.
Qed.

Lemma parallelCopasi_py_copies_witness :
  exists (log : list report) (self : Copasi),
    parallelCopasi_py (fun _ => Some sample_text) (fun _ => true)
      (str "glycolysis.cps") 3 =
      (log, inr (map (copy_of (str "glycolysis") sample_text) [0; 1; 2], self)) /\
    Forall (fun r => r_fatal r = false) log.
Proof.
  apply (parallelCopasi_py_copies (fun _ => Some sample_text) (fun _ => true)
           (str "glycolysis.cps") sample_text 3).
  - reflexivity.
  - reflexivity.
  - reflexivity.
  - vm_compute. lia.
Defined.

(** ** Searching, and patterns with one group *)

Lemma re_search_cons (p : pattern) (c : ascii) (s : pystr) :
  re_search p (c :: s) =
  match re_match p (c :: s) with
  | Some (caps, _) => Some caps
  | None => re_search p s
  end.
Proof. reflexivity. Qed.

(** What [re.search] finds is a match somewhere in the text. *)
Lemma re_search_Some (p : pattern) (s : pystr) (caps : list pystr) :
  re_search p s = Some caps ->
  exists pre u rest, s = pre ++ u /\ re_match p u = Some (caps, rest).
Proof.
  induction s as [|c s IH].
  - simpl. destruct (re_match p []) as [[caps' rest]|] eqn:E; [|discriminate].
    intros [= ->]. exists [], [], rest. split; [reflexivity|exact E].
  - rewrite re_search_cons.
    destruct (re_match p (c :: s)) as [[caps' rest]|] eqn:E.
    + intros [= ->]. exists [], (c :: s), rest. split; [reflexivity|exact E].
    + intros H. destruct (IH H) as (pre & u & rest & -> & Hu).
      exists (c :: pre), u, rest. split; [reflexivity|exact Hu].
Qed.

Lemma re_match_quoted_group (l : pystr) (cls : ascii -> bool) (c : ascii)
    (s : pystr) :
  cls c = false ->
  re_match (quoted_group l cls c) s =
  match group_value l cls c s with
  | Some (v, r) => Some ([v], r)
  | None => None
  end.
Proof.
  intros Hc. unfold re_match, quoted_group, group_value. rewrite match_at_lits.
  destruct (strip_prefix l s) as [u|]; [|reflexivity].
  cbn [match_at]. rewrite rep_greedy_span.
  - pose proof (span_cls_app cls u) as Happ.
    destruct (span_cls cls u) as [v rest]. simpl in Happ.
    destruct (1 <=? length v); [|reflexivity].
    destruct rest as [|c' r]; [reflexivity|].
    destruct (Ascii.eqb c' c); [|reflexivity].
    rewrite Happ at 1 2. rewrite length_app.
    replace (length v + length (c' :: r) - length (c' :: r)) with (length v) by lia.
    rewrite firstn_app, firstn_all, Nat.sub_diag. simpl. rewrite app_nil_r.
    reflexivity.
  - intros a s' Ha. destruct (Ascii.eqb_spec a c) as [->|_]; [congruence|reflexivity].
Qed.

Lemma group_value_Some (l : pystr) (cls : ascii -> bool) (c : ascii)
    (s v r : pystr) :
  group_value l cls c s = Some (v, r) ->
  s = l ++ v ++ c :: r /\ v <> [] /\ forallb cls v = true.
Proof.
  unfold group_value. destruct (strip_prefix l s) as [u|] eqn:Hu; [|discriminate].
  apply strip_prefix_Some in Hu. subst s.
  pose proof (span_cls_app cls u) as Happ.
  pose proof (span_cls_all cls u) as Hall.
  destruct (span_cls cls u) as [v' rest]. simpl in Happ, Hall.
  destruct (Nat.leb_spec 1 (length v')) as [Hlen|]; [|discriminate].
  destruct rest as [|c' r']; [discriminate|].
  destruct (Ascii.eqb_spec c' c) as [->|]; [|discriminate].
  intros [= <- <-]. split; [rewrite Happ; reflexivity|]. split; [|exact Hall].
  intros ->. simpl in Hlen. lia.
Qed.

(** What such a pattern finds in a text stands there, between the literals
    and the closing character. *)
Lemma re_search_quoted_group (l : pystr) (cls : ascii -> bool) (c : ascii)
    (s : pystr) (caps : list pystr) :
  cls c = false ->
  re_search (quoted_group l cls c) s = Some caps ->
  exists pre v r,
    caps = [v] /\ s = pre ++ l ++ v ++ c :: r /\ v <> [] /\ forallb cls v = true.
Proof.
  intros Hc H. apply re_search_Some in H as (pre & u & rest & -> & Hu).
  rewrite (re_match_quoted_group _ _ _ _ Hc) in Hu.
  destruct (group_value l cls c u) as [[v r]|] eqn:Hv; [|discriminate].
  injection Hu as <- <-. apply group_value_Some in Hv as (-> & Hne & Hall).
  exists pre, v, r. auto.
Qed.

(** ** The title: the first line of the model decides *)

Lemma title_loop_first (pre post : list pystr) (line : pystr) (self : Copasi) :
  Forall (fun l => contains (str "<Model ") l = false) pre ->
  contains (str "<Model ") line = true ->
  title_loop (pre ++ line :: post) self =
  match re_search title_re line with
  | Some caps => ([], inr (nth 0 caps [], self))
  | None =>
      ([Report (filename self) (str "I could not find a title.") false],
       inr (str "!No title found!", self))
  end.
Proof.
  intros Hpre Hline. induction Hpre as [|l pre Hl _ IH].
  - cbn [app title_loop]. rewrite Hline.
    destruct (re_search title_re line); reflexivity.
  - cbn [app title_loop]. rewrite Hl. exact IH.
Qed.

(** [getTitle] reads the first line that contains [<Model ] and no other
    one. It returns the value of the first non-empty [name] attribute of that
    line, and nothing is logged; when the line has none it logs one problem,
    not fatal, and returns the placeholder. *)
Theorem getTitle_first_model_line (self : Copasi) (pre post : list pystr)
    (line : pystr) :
  lines (content self) = pre ++ line :: post ->
  Forall (fun l => contains (str "<Model ") l = false) pre ->
  contains (str "<Model ") line = true ->
  (exists title a b,
     run getTitle self = ([], inr (title, self)) /\
     line = a ++ qstr "name='" ++ title ++ dq :: b /\
     title <> [] /\ forallb (not_char dq) title = true) \/
  (re_search title_re line = None /\
   run getTitle self =
     ([Report (filename self) (str "I could not find a title.") false],
      inr (str "!No title found!", self))).
Proof.
  intros Hlines Hpre Hline. unfold run, getTitle, bind, get_self. cbn beta iota.
  rewrite Hlines, (title_loop_first _ _ _ _ Hpre Hline).
  destruct (re_search title_re line) as [caps|] eqn:Hre.
  - left. apply (re_search_quoted_group (qstr "name='") (not_char dq) dq) in Hre
      as (a & v & b & -> & Hl & Hne & Hall); [|reflexivity].
    exists v, a, b. cbn [nth]. auto.
  - right. split; reflexivity.
Qed.

Lemma getTitle_first_model_line_witness :
  (exists title a b,
     run getTitle sample_doc = ([], inr (title, sample_doc)) /\
     nth 3 sample_lines [] = a ++ qstr "name='" ++ title ++ dq :: b /\
     title <> [] /\ forallb (not_char dq) title = true) \/
  (re_search title_re (nth 3 sample_lines []) = None /\
   run getTitle sample_doc =
     ([Report (filename sample_doc) (str "I could not find a title.") false],
      inr (str "!No title found!", sample_doc))).
Proof.
  apply (getTitle_first_model_line sample_doc (firstn 3 sample_lines)
           (skipn 4 sample_lines) (nth 3 sample_lines [])).
  - vm_compute. reflexivity.
  - repeat constructor.
  - reflexivity.
Defined.

(** ** The type of the optimization *)

Lemma re_search_app_None (p : pattern) (pre u : pystr) :
  re_search p (pre ++ u) = None -> re_match p u = None.
Proof.
  induction pre as [|c pre IH]; intros H.
  - cbn [app] in H. destruct u as [|c u].
    + simpl in H. destruct (re_match p []) as [[? ?]|]; [discriminate|reflexivity].
    + rewrite re_search_cons in H.
      destruct (re_match p (c :: u)) as [[? ?]|]; [discriminate|reflexivity].
  - cbn [app] in H. rewrite re_search_cons in H.
    destruct (re_match p (c :: pre ++ u)) as [[? ?]|]; [discriminate|auto].
Qed.

Lemma group_value_app (l : pystr) (cls : ascii -> bool) (c : ascii)
    (v r : pystr) :
  cls c = false -> v <> [] -> forallb cls v = true ->
  group_value l cls c (l ++ v ++ c :: r) = Some (v, r).
Proof.
  intros Hc Hne Hall. unfold group_value.
  rewrite strip_prefix_app, (span_cls_stop cls v c r Hall Hc).
  destruct v as [|a v]; [congruence|]. cbn [length Nat.leb].
  rewrite Ascii.eqb_refl. reflexivity.
Qed.

(** [getMCAType] never logs and never changes the document. It returns
    [None] exactly when the text has no [caled phrase[] with a non-empty
    phrase free of brackets; otherwise the first such phrase decides: its
    code is returned when it is one of the three known phrases, and any
    other phrase raises a [KeyError], which the method does not catch. *)
Theorem getMCAType_outcomes (self : Copasi) :
  (run getMCAType self = ([], inr (None, self)) /\
   ~ exists pre phrase rest,
       content self = pre ++ str "caled " ++ phrase ++ "["%char :: rest /\
       phrase <> [] /\ forallb (not_char "[") phrase = true) \/
  (exists pre phrase rest,
     content self = pre ++ str "caled " ++ phrase ++ "["%char :: rest /\
     phrase <> [] /\ forallb (not_char "[") phrase = true /\
     run getMCAType self =
       match outcomes !! phrase with
       | Some code => ([], inr (Some code, self))
       | None => ([], inl (Raise KeyError))
       end).
Proof.
  unfold run, getMCAType, bind, get_self. cbn beta iota.
  destruct (re_search MCAType_re (content self)) as [caps|] eqn:Hre.
  - right.
    apply (re_search_quoted_group (str "caled ") (not_char "[") "[") in Hre
      as (pre & v & r & -> & Hc & Hne & Hall); [|reflexivity].
    exists pre, v, r. cbn [nth]. repeat (split; [assumption|]).
    destruct (outcomes !! v); reflexivity.
  - left. split; [reflexivity|].
    intros (pre & v & r & Hc & Hne & Hall). rewrite Hc in Hre.
    apply re_search_app_None in Hre.
    change MCAType_re with (quoted_group (str "caled ") (not_char "[") "[") in Hre.
    rewrite re_match_quoted_group, group_value_app in Hre by auto.
    discriminate.
Qed.

(** ** The reactions *)

Lemma is_digit_not_dq (c : ascii) : is_digit c = true -> Ascii.eqb c dq = false.
Proof.
  destruct (Ascii.eqb_spec c dq) as [->|]; [discriminate|reflexivity].
Qed.

Lemma re_match_reaction (s : pystr) :
  re_match reaction_re s =
  match strip_prefix (qstr "key='Reaction_") s with
  | Some u =>
      let '(d, r) := span_cls is_digit u in
      if 1 <=? length d then
        match group_value (qstr "' name='") (not_char dq) dq r with
        | Some (v, r') => Some ([v], r')
        | None => None
        end
      else None
  | None => None
  end.
Proof.
  unfold re_match, reaction_re, qlits. rewrite match_at_lits.
  destruct (strip_prefix (qstr "key='Reaction_") s) as [u|]; [|reflexivity].
  cbn [app match_at]. rewrite rep_greedy_span.
  - destruct (span_cls is_digit u) as [d r].
    destruct (1 <=? length d); [|reflexivity].
    apply (re_match_quoted_group (qstr "' name='") (not_char dq) dq r).
    reflexivity.
  - intros c s' Hc.
    change (match_at (map Lit (qstr "' name='") ++ _) (c :: s') [] [])
      with (if Ascii.eqb c dq then
              match_at (map Lit (qstr " name='") ++
                        [GOpen; Rep true (not_char dq) 1; GClose; Lit dq]) s' [] []
            else None).
    rewrite (is_digit_not_dq c Hc). reflexivity.
Qed.

Lemma re_search_reaction (line : pystr) (caps : list pystr) :
  re_search reaction_re line = Some caps ->
  exists name, caps = [name] /\ declares_reaction line name.
Proof.
  intros H. apply re_search_Some in H as (a & u & rest & -> & Hu).
  rewrite re_match_reaction in Hu.
  destruct (strip_prefix (qstr "key='Reaction_") u) as [w|] eqn:Hw; [|discriminate].
  apply strip_prefix_Some in Hw. subst u.
  pose proof (span_cls_app is_digit w) as Happ.
  pose proof (span_cls_all is_digit w) as Hall.
  destruct (span_cls is_digit w) as [d r]. simpl in Happ, Hall.
  destruct (Nat.leb_spec 1 (length d)) as [Hlen|]; [|discriminate].
  destruct (group_value (qstr "' name='") (not_char dq) dq r) as [[v r']|] eqn:Hv;
    [|discriminate].
  injection Hu as <- <-. apply group_value_Some in Hv as (-> & Hne & Hq).
  exists v. split; [reflexivity|]. exists a, d, r'. rewrite Happ.
  split; [reflexivity|]. split; [intros ->; simpl in Hlen; lia|]. auto.
Qed.

Lemma declares_reaction_found (line name : pystr) :
  declares_reaction line name -> re_search reaction_re line <> None.
Proof.
  intros (a & d & b & -> & Hd & Hdig & Hne & Hq) H.
  apply re_search_app_None in H. rewrite re_match_reaction in H.
  rewrite strip_prefix_app in H.
  change (qstr "' name='") with (dq :: qstr " name='") in H at 1.
  cbn [app] in H. rewrite (span_cls_stop is_digit d dq _ Hdig eq_refl) in H.
  destruct d as [|c d]; [congruence|]. cbn [length Nat.leb] in H.
  change (dq :: qstr " name='" ++ name ++ dq :: b)
    with (qstr "' name='" ++ name ++ dq :: b) in H.
  rewrite group_value_app in H by auto. discriminate.
Qed.

Lemma reactions_loop_found (ls : list pystr) (acc : list pystr) (self : Copasi) :
  Forall (fun l => exists name, declares_reaction l name)
         (List.filter (contains (str "<Reaction")) ls) ->
  exists names,
    reactions_loop ls acc self = ([], inr (acc ++ names, self)) /\
    Forall2 declares_reaction (List.filter (contains (str "<Reaction")) ls) names.
Proof.
  revert acc. induction ls as [|l ls IH]; intros acc Hall.
  - exists []. rewrite app_nil_r. split; [reflexivity|constructor].
  - cbn [reactions_loop List.filter] in *.
    destruct (contains (str "<Reaction") l).
    + inversion Hall as [|? ? [name Hname] Hall']; subst.
      destruct (re_search reaction_re l) as [caps|] eqn:Hre.
      * apply re_search_reaction in Hre as (name' & -> & Hname').
        destruct (IH (acc ++ [name']) Hall') as (names & Hrun & Hnames).
        exists (name' :: names). cbn [nth]. rewrite Hrun, <- app_assoc.
        split; [reflexivity|]. constructor; assumption.
      * exfalso. exact (declares_reaction_found _ _ Hname Hre).
    + apply IH. exact Hall.
Qed.

Lemma reactions_loop_lost (ls : list pystr) (acc : list pystr) (self : Copasi) :
  Exists (fun l => ~ exists name, declares_reaction l name)
         (List.filter (contains (str "<Reaction")) ls) ->
  exists text,
    reactions_loop ls acc self = ([Report (filename self) text true], inl (SysExit 1)).
Proof.
  revert acc. induction ls as [|l ls IH]; intros acc Hex.
  - inversion Hex.
  - cbn [reactions_loop List.filter] in *.
    destruct (contains (str "<Reaction") l).
    + destruct (re_search reaction_re l) as [caps|] eqn:Hre.
      * apply re_search_reaction in Hre as (name' & -> & Hname').
        inversion Hex as [? ? Hno|? ? Hex']; subst.
        -- exfalso. apply Hno. exists name'. exact Hname'.
        -- apply IH. exact Hex'.
      * eexists. reflexivity.
    + apply IH. exact Hex.
Qed.

(** [getReactions] looks at the lines that contain [<Reaction]. When every
    one of them declares a reaction, it returns the declared names, one for
    each of these lines and in their order, logs nothing and leaves the
    document as it is. When one of them declares none, the program stops
    with one report. *)
Theorem getReactions_outcomes (self : Copasi) :
  (Forall (fun l => exists name, declares_reaction l name)
          (reaction_lines (content self)) /\
   exists names,
     run getReactions self = ([], inr (names, self)) /\
     Forall2 declares_reaction (reaction_lines (content self)) names) \/
  (Exists (fun l => ~ exists name, declares_reaction l name)
          (reaction_lines (content self)) /\
   exists text,
     run getReactions self = ([Report (filename self) text true], inl (SysExit 1))).
Proof.
  unfold run, getReactions, bind, get_self, reaction_lines. cbn beta iota.
  set (rl := List.filter _ _).
  assert (Hdec : forall l, {exists name, declares_reaction l name} +
                           {~ exists name, declares_reaction l name}).
  { intros l. destruct (re_search reaction_re l) as [caps|] eqn:Hre.
    - left. apply re_search_reaction in Hre as (name & _ & Hname). eauto.
    - right. intros [name Hname]. exact (declares_reaction_found _ _ Hname Hre). }
  destruct (List.Forall_Exists_dec _ Hdec rl) as [Hall|Hex].
  - left. split; [exact Hall|].
    destruct (reactions_loop_found _ [] self Hall) as (names & Hrun & Hnames).
    exists names. rewrite Hrun. split; [reflexivity|exact Hnames].
  - right. split; [exact Hex|].
    destruct (reactions_loop_lost _ [] self Hex) as (text & Hrun).
    exists text. rewrite Hrun. reflexivity.
Qed.

(** ** The compartments: the last declaration of a key wins *)

Lemma compartments_fold (ls : list pystr) :
  foldl compartment_step ∅ ls =
  foldl (fun m d => <[d.1 := d.2]> m) ∅ (omap compartment_decl ls).
Proof.
  induction ls as [|l ls IH] using rev_ind; [reflexivity|].
  rewrite foldl_app, omap_app, foldl_app, IH.
  change (omap compartment_decl [l])
    with (match compartment_decl l with Some d => [d] | None => [] end).
  assert (Hl : forall m, compartment_step m l =
                match compartment_decl l with
                | Some d => <[d.1 := d.2]> m
                | None => m
                end).
  { intros m. unfold compartment_step, compartment_decl.
    destruct (contains (str "<Compartment") l); [|reflexivity].
    destruct (re_search compartment_re l); reflexivity. }
  cbn [foldl]. rewrite Hl. destruct (compartment_decl l); reflexivity.
Qed.

Lemma fold_insert_last (ds : list (pystr * pystr)) (key : pystr) :
  foldl (fun m d => <[d.1 := d.2]> m) (∅ : gmap pystr pystr) ds !! key =
  snd <$> last (List.filter (fun d => bool_decide (d.1 = key)) ds).
Proof.
  induction ds as [|d ds IH] using rev_ind; [reflexivity|].
  rewrite foldl_app, List.filter_app. cbn [foldl List.filter].
  case_bool_decide as Hk.
  - rewrite last_snoc, Hk, lookup_insert_eq. reflexivity.
  - rewrite app_nil_r, lookup_insert_ne by exact Hk. exact IH.
Qed.

(** [getCompartments] logs nothing and leaves the document as it is; the
    map it returns gives every key the name of the last line that declares
    it, and has no other key. *)
Theorem getCompartments_last_declaration (self : Copasi) :
  exists compartments,
    run getCompartments self = ([], inr (compartments, self)) /\
    forall key,
      compartments !! key =
      snd <$> last (List.filter (fun d => bool_decide (d.1 = key))
                                (compartment_decls (content self))).
Proof.
  exists (compartments_of (content self)). split; [reflexivity|].
  intros key. unfold compartments_of, compartment_decls.
  rewrite compartments_fold. apply fold_insert_last.
Qed.

(** ** The metabolites: when the call fails *)

Lemma for_each_metabolites (b : bool) (comps : gmap pystr pystr)
    (ls : list pystr) (st : gmap pystr pystr * list pystr) :
  match for_each (metabolite_step b comps) st ls with
  | inl e =>
      e = KeyError /\ b = true /\
      exists line caps,
        line ∈ ls /\ contains (str "<Metabolite") line = true /\
        re_search metabolite_re line = Some caps /\
        comps !! nth 2 caps [] = None
  | inr _ =>
      b = true ->
      forall line caps,
        line ∈ ls -> contains (str "<Metabolite") line = true ->
        re_search metabolite_re line = Some caps ->
        is_Some (comps !! nth 2 caps [])
  end.
Proof.
  revert st. induction ls as [|l ls IH]; intros st.
  - cbn [for_each]. intros _ line caps Hin. inversion Hin.
  - cbn [for_each].
    destruct (metabolite_step b comps st l) as [e|st'] eqn:Hstep.
    + unfold metabolite_step in Hstep. destruct st as [buf ms].
      destruct (contains (str "<Metabolite") l) eqn:Hc.
      * destruct (re_search metabolite_re l) as [caps|] eqn:Hre; [|discriminate].
        destruct b; [|discriminate].
        destruct (comps !! nth 2 caps []) eqn:Hk; [discriminate|].
        injection Hstep as <-. split; [reflexivity|]. split; [reflexivity|].
        exists l, caps. split; [left|]. auto.
      * destruct (contains (str "<StateTemplateVariable") l); [|discriminate].
        destruct (re_search reference_re l) as [caps|]; [|discriminate].
        destruct (buf !! nth 0 caps []); discriminate.
    + specialize (IH st').
      destruct (for_each (metabolite_step b comps) st' ls) as [e|st''].
      * destruct IH as (He & Hb & line & caps & Hin & H).
        split; [exact He|]. split; [exact Hb|].
        exists line, caps. split; [right; exact Hin|exact H].
      * intros Hb line caps Hin Hc Hre.
        apply elem_of_cons in Hin as [->|Hin]; [|exact (IH Hb line caps Hin Hc Hre)].
        unfold metabolite_step in Hstep. destruct st as [buf ms].
        rewrite Hc, Hre, Hb in Hstep.
        destruct (comps !! nth 2 caps []); [eexists; reflexivity|discriminate].
Qed.

(** [getMetabolites] never logs, never stops the program and never changes
    the document. It returns a list unless the file declares more than one
    compartment and some dynamic metabolite in a compartment that is not
    declared; then, and only then, it raises a [KeyError]. *)
Theorem getMetabolites_outcomes (self : Copasi) :
  (compartments_known (content self) /\
   exists names, run getMetabolites self = ([], inr (names, self))) \/
  (~ compartments_known (content self) /\
   1 < size (compartments_of (content self)) /\
   run getMetabolites self = ([], inl (Raise KeyError))).
Proof.
  unfold run, getMetabolites, bind, get_self, metabolites_of. cbn beta iota.
  pose proof (for_each_metabolites
                (1 <? size (compartments_of (content self)))
                (compartments_of (content self))
                (lines (content self)) (∅, [])) as H.
  destruct (for_each _ _ _) as [e|[buf names]].
  - right. destruct H as (-> & Hb & line & caps & Hin & Hc & Hre & Hk).
    apply Nat.ltb_lt in Hb. split; [|split; [exact Hb|reflexivity]].
    intros Hknown. destruct (Hknown Hb line caps Hin Hc Hre) as [x Hx].
    congruence.
  - left. split; [|exists names; reflexivity].
    intros Hb. apply H. apply Nat.ltb_lt. exact Hb.
Qed.

(** ** Saving a document and loading it again *)

Lemma starts_with_true (p s : pystr) :
  starts_with p s = true <-> exists t, s = p ++ t.
Proof.
  revert s. induction p as [|a p IH]; intros s.
  - split; [intros _; exists s; reflexivity|reflexivity].
  - destruct s as [|c s]; cbn [starts_with].
    + split; [discriminate|]. intros [t Ht]. discriminate Ht.
    + rewrite andb_true_iff, IH. split.
      * intros [Hc [t ->]]. apply Ascii.eqb_eq in Hc. subst c. exists t. reflexivity.
      * intros [t Ht]. injection Ht as -> ->. split; [apply Ascii.eqb_refl|eauto].
Qed.

Lemma ends_with_true (suffix s : pystr) :
  ends_with suffix s = true <-> exists a, s = a ++ suffix.
Proof.
  unfold ends_with. rewrite starts_with_true. split.
  - intros [t Ht]. exists (rev t). rewrite <- (rev_involutive s), Ht, rev_app_distr,
      rev_involutive. reflexivity.
  - intros [a ->]. exists (rev a). apply rev_app_distr.
Qed.

Lemma getValidFilename_cps (name : pystr) :
  ends_with (str ".cps") name = true ->
  cps_name (_getValidFilename name) = _getValidFilename name.
Proof.
  intros H. apply ends_with_true in H as [a ->]. unfold cps_name.
  rewrite getValidFilename_app.
  change (_getValidFilename (str ".cps")) with (str ".cps").
  replace (ends_with (str ".cps") (_getValidFilename a ++ str ".cps")) with true;
    [reflexivity|].
  symmetry. apply ends_with_true. eauto.
Qed.

Lemma new_Copasi_ext (disk1 disk2 : pystr -> option pystr) (path : pystr) :
  disk1 (cps_name path) = disk2 (cps_name path) ->
  new_Copasi disk1 path = new_Copasi disk2 path.
Proof.
  intros H. unfold new_Copasi, __init__, openCopasiFile, cps_name in *.
  destruct (ends_with (str ".cps") path); run_monad; rewrite H; reflexivity.
Qed.

Lemma cps_name_other (name : pystr) :
  ends_with (str ".cps") name = false -> cps_name name <> name.
Proof.
  intros H. unfold cps_name. rewrite H. intros E.
  apply (f_equal (@length ascii)) in E. rewrite length_app in E. simpl in E. lia.
Qed.

Lemma universal_newlines_id (text : pystr) :
  "013"%char ∉ text -> universal_newlines text = text.
Proof.
  induction text as [|c text IH]; intros H; [reflexivity|].
  cbn [universal_newlines].
  destruct (Ascii.eqb_spec c "013") as [->|_]; [exfalso; apply H; left|].
  rewrite IH; [reflexivity|]. intros Hin. apply H. right. exact Hin.
Qed.

(** [saveCopasiFile] writes the text of the document under the sanitized
    name and returns this name, in silence. A document saved under an ASCII
    name that ends in [.cps] is loaded again from the returned name, with the
    text as a file opened in text mode gives it: every carriage return of the
    content, alone or before a newline, is read as a newline (a content
    without carriage returns is read as it was written, Lemma
    [universal_newlines_id]). *)
Theorem save_then_load (disk : pystr -> option pystr) (writable : pystr -> bool)
    (self : Copasi) (name : pystr) :
  ascii_only name ->
  writable (_getValidFilename name) = true ->
  ends_with (str ".cps") name = true ->
  let saved := _getValidFilename name in
  run (saveCopasiFile writable name) self = ([], inr ((saved, content self), self)) /\
  exists log doc,
    new_Copasi (write_file disk saved (content self)) saved = (log, inr doc) /\
    filename doc = saved /\
    content doc = universal_newlines (content self) /\
    Forall (fun r => r_fatal r = false) log.
Proof.
  intros _ Hw Hcps saved. split.
  - unfold run, saveCopasiFile, bind, get_self. cbn beta iota zeta.
    rewrite Hw. reflexivity.
  - pose proof (getValidFilename_cps name Hcps) as Hname. fold saved in Hname.
    destruct (new_Copasi_readable (write_file disk saved (content self)) saved
                (universal_newlines (content self)))
      as (log & doc & Hrun & Hlog & Hf & Hc & _).
    { rewrite Hname. unfold write_file. rewrite bool_decide_eq_true_2; reflexivity. }
    exists log, doc. rewrite Hname in Hf. auto.
Qed.

Lemma save_then_load_witness :
  let saved := _getValidFilename (str "my model.cps") in
  run (saveCopasiFile (fun _ => true) (str "my model.cps")) sample_doc =
    ([], inr ((saved, content sample_doc), sample_doc)) /\
  exists log doc,
    new_Copasi (write_file (fun _ => None) saved (content sample_doc)) saved =
      (log, inr doc) /\
    filename doc = saved /\
    content doc = universal_newlines (content sample_doc) /\
    Forall (fun r => r_fatal r = false) log.
Proof.
  apply (save_then_load (fun _ => None) (fun _ => true) sample_doc
           (str "my model.cps")); reflexivity.
Defined.

(** When the sanitized name does not end in [.cps], loading the name that
    [saveCopasiFile] returned opens another file, the one with [.cps]
    appended: the load does what it did before the document was saved. The
    name is an ASCII text. *)
Theorem save_without_suffix_is_not_loaded (disk : pystr -> option pystr)
    (writable : pystr -> bool) (self : Copasi) (name : pystr) :
  ascii_only name ->
  writable (_getValidFilename name) = true ->
  ends_with (str ".cps") (_getValidFilename name) = false ->
  let saved := _getValidFilename name in
  let disk' := write_file disk saved (content self) in
  run (saveCopasiFile writable name) self = ([], inr ((saved, content self), self)) /\
  new_Copasi disk' saved = new_Copasi disk saved.
Proof.
  intros _ Hw Hcps saved disk'. split.
  - unfold run, saveCopasiFile, bind, get_self. cbn beta iota zeta.
    rewrite Hw. reflexivity.
  - apply new_Copasi_ext. unfold disk', write_file.
    rewrite bool_decide_eq_false_2; [reflexivity|]. apply cps_name_other. exact Hcps.
Qed.

Lemma save_without_suffix_is_not_loaded_witness :
  let saved := _getValidFilename (str "copy.CPS") in
  let disk' := write_file (fun _ => None) saved (content sample_doc) in
  run (saveCopasiFile (fun _ => true) (str "copy.CPS")) sample_doc =
    ([], inr ((saved, content sample_doc), sample_doc)) /\
  new_Copasi disk' saved = new_Copasi (fun _ => None) saved.
Proof.
  apply (save_without_suffix_is_not_loaded (fun _ => None) (fun _ => true)
           sample_doc (str "copy.CPS")); reflexivity.
Defined.

(** ** The result aggregator: files of the same name, and failures *)

Lemma lookup2_gather_silent (columns : list (pystr * list (pystr * pystr)))
    (d : table) (entity col : pystr) :
  Forall (fun c => c.1 = col -> value_of c.2 entity = None) columns ->
  lookup2 (gather columns d) entity col = lookup2 d entity col.
Proof.
  intros H. revert d. induction H as [|[c vs] columns Hc _ IH]; intros d;
    [reflexivity|].
  rewrite gather_cons, IH, lookup2_put_all.
  destruct (decide (c = col)) as [E|]; [|reflexivity].
  cbn [fst snd] in Hc. rewrite (Hc E). reflexivity.
Qed.

Lemma gather_app (c1 c2 : list (pystr * list (pystr * pystr))) (d : table) :
  gather (c1 ++ c2) d = gather c2 (gather c1 d).
Proof. unfold gather. apply foldl_app. Qed.

Lemma lookup2_gather_last (pre post : list (pystr * list (pystr * pystr)))
    (col : pystr) (vs : list (pystr * pystr)) (d : table) (entity v : pystr) :
  value_of vs entity = Some v ->
  Forall (fun c => c.1 = col -> value_of c.2 entity = None) post ->
  lookup2 (gather (pre ++ (col, vs) :: post) d) entity col = Some v.
Proof.
  intros Hv Hpost.
  rewrite gather_app, gather_cons, (lookup2_gather_silent _ _ _ _ Hpost),
    lookup2_put_all, decide_True, Hv by reflexivity.
  reflexivity.
Qed.

Lemma collect_sides (disk : pystr -> option pystr) (filenames : list pystr)
    (contribs : list (list (pystr * pystr) * list (pystr * pystr)))
    (flux : bool) :
  well_formed_results disk filenames contribs ->
  exists tables,
    collect disk filenames ∅ ∅ = inr tables /\
    side flux tables =
      gather (zip (map column_name filenames) (map (side flux) contribs)) ∅.
Proof.
  intros Hwf. eexists. split; [apply (collect_gather _ _ _ _ _ Hwf)|].
  destruct flux; reflexivity.
Qed.

(** Files of the same base name share a column name, and the columns of
    that name share their cells: for an entity, all of them show the value of
    the last of these files that has one. Here the file [fn] has the value
    [v], and no file of its base name after it has a value for the entity. *)
Theorem same_name_files_show_last_value (disk : pystr -> option pystr)
    (pre post : list pystr) (fn : pystr)
    (cpre cpost : list (list (pystr * pystr) * list (pystr * pystr)))
    (c : list (pystr * pystr) * list (pystr * pystr))
    (flux : bool) (entity v : pystr) :
  well_formed_results disk (pre ++ fn :: post) (cpre ++ c :: cpost) ->
  length pre = length cpre ->
  value_of (side flux c) entity = Some v ->
  Forall2 (fun fn' c' => column_name fn' = column_name fn ->
                         value_of (side flux c') entity = None) post cpost ->
  exists tables,
    collect disk (pre ++ fn :: post) ∅ ∅ = inr tables /\
    forall fn', column_name fn' = column_name fn ->
      cell (side flux tables) entity (column_name fn') = v.
Proof.
  intros Hwf Hlen Hv Hpost.
  destruct (collect_sides _ _ _ flux Hwf) as (tables & Hrun & Hside).
  exists tables. split; [exact Hrun|]. intros fn' ->.
  rewrite cell_lookup2, Hside, !map_app. cbn [map].
  rewrite zip_with_app by (rewrite !length_map; exact Hlen). cbn [zip_with].
  rewrite (lookup2_gather_last _ _ _ _ _ _ v Hv); [reflexivity|].
  clear -Hpost. induction Hpost as [|fn' c' post cpost H _ IH]; [constructor|].
  cbn [map zip_with]. constructor; [exact H|exact IH].
Qed.

Lemma same_name_files_show_last_value_witness :
  exists tables,
    collect disk_rerun ([] ++ str "run1/x.txt" :: [str "run2/x.txt"]) ∅ ∅ =
      inr tables /\
    forall fn', column_name fn' = column_name (str "run1/x.txt") ->
      cell (side true tables) (str "R1") (column_name fn') = str "2.0".
Proof.
  apply (same_name_files_show_last_value disk_rerun [] [str "run2/x.txt"]
           (str "run1/x.txt") []
           [([(str "X", str "3.0")], [])]
           ([(str "X", str "1.0")], [(str "R1", str "2.0")])
           true (str "R1") (str "2.0")).
  - repeat constructor; eexists; split; reflexivity.
  - reflexivity.
  - reflexivity.
  - repeat constructor.
Defined.

Lemma scan_values_error (active : mode) (ls : list pystr) (e : exception) :
  scan_values active ls = inl e -> e = IndexError.
Proof.
  revert active. induction ls as [|raw ls IH]; intros active; [discriminate|].
  cbn [scan_values]. destruct active.
  - destruct (starts_with conc_header (strip raw)); [apply IH|].
    destruct (starts_with flux_header (strip raw)); apply IH.
  - destruct (strip raw) as [|a l]; [apply IH|].
    destruct (split_on tab (a :: l)) as [|name [|conc fields]];
      try (intros [= <-]; reflexivity).
    specialize (IH Conc). destruct (scan_values Conc ls) as [e'|[concs fluxes]];
      [|discriminate].
    intros [= <-]. apply IH. reflexivity.
  - destruct (strip raw) as [|a l]; [discriminate|].
    destruct (split_on tab (a :: l)) as [|name [|flux fields]];
      try (intros [= <-]; reflexivity).
    specialize (IH Flux). destruct (scan_values Flux ls) as [e'|[concs fluxes]];
      [|discriminate].
    intros [= <-]. apply IH. reflexivity.
Qed.

Lemma file_values_error (f : pystr) (e : exception) :
  file_values f = inl e -> e = IndexError.
Proof.
  unfold file_values.
  destruct (negb (starts_with steady_marker f)); [discriminate|].
  apply scan_values_error.
Qed.

Lemma collect_outcomes (disk : pystr -> option pystr) (filenames : list pystr)
    (conc_dict flux_dict : table) :
  match collect disk filenames conc_dict flux_dict with
  | inr _ => exists contribs, well_formed_results disk filenames contribs
  | inl e =>
      exists pre fn post contribs,
        filenames = pre ++ fn :: post /\
        well_formed_results disk pre contribs /\
        ((disk fn = None /\ e = OSError) \/
         (exists text, disk fn = Some text /\
                       file_values text = inl IndexError /\ e = IndexError))
  end.
Proof.
  revert conc_dict flux_dict.
  induction filenames as [|fn rest IH]; intros conc_dict flux_dict.
  - exists []. constructor.
  - cbn [collect]. destruct (disk fn) as [text|] eqn:Hdisk.
    + rewrite single_file_values.
      destruct (file_values text) as [e|[concs fluxes]] eqn:Hvals.
      * exists [], fn, rest, []. split; [reflexivity|]. split; [constructor|].
        right. exists text. pose proof (file_values_error _ _ Hvals) as ->. auto.
      * specialize (IH (put_all (column_name fn) conc_dict concs)
                       (put_all (column_name fn) flux_dict fluxes)).
        destruct (collect disk rest _ _) as [e|tables].
        -- destruct IH as (pre & fn' & post & contribs & -> & Hwf & He).
           exists (fn :: pre), fn', post, ((concs, fluxes) :: contribs).
           split; [reflexivity|]. split; [|exact He].
           constructor; [exists text; auto|exact Hwf].
        -- destruct IH as (contribs & Hwf).
           exists ((concs, fluxes) :: contribs).
           constructor; [exists text; auto|exact Hwf].
    + exists [], fn, rest, []. split; [reflexivity|]. split; [constructor|].
      left. auto.
Qed.

(** [get_tables] returns its two tables exactly when every file can be
    read and has two fields on every line of its result blocks. Otherwise it
    raises for the first file that fails, whatever the files after it are: an
    [OSError] when the file cannot be read, an [IndexError] when a line of
    a block has a single field. *)
Theorem get_tables_outcomes (disk : pystr -> option pystr)
    (filenames : list pystr) :
  match get_tables disk filenames with
  | inr _ => exists contribs, well_formed_results disk filenames contribs
  | inl e =>
      (~ exists contribs, well_formed_results disk filenames contribs) /\
      exists pre fn post contribs,
        filenames = pre ++ fn :: post /\
        well_formed_results disk pre contribs /\
        ((disk fn = None /\ e = OSError) \/
         (exists text, disk fn = Some text /\
                       file_values text = inl IndexError /\ e = IndexError))
  end.
Proof.
  unfold get_tables. pose proof (collect_outcomes disk filenames ∅ ∅) as H.
  destruct (collect disk filenames ∅ ∅) as [e|[conc_dict flux_dict]] eqn:Hrun;
    [|exact H].
  split; [|exact H]. intros [contribs Hwf].
  rewrite (collect_gather _ _ _ _ _ Hwf) in Hrun. discriminate Hrun.
Qed.

(** ** The units of a result file *)

Lemma re_search_quoted_group_cases (l : pystr) (cls : ascii -> bool) (c : ascii)
    (s : pystr) :
  cls c = false ->
  (re_search (quoted_group l cls c) s = None /\
   ~ exists pre v r,
       s = pre ++ l ++ v ++ c :: r /\ v <> [] /\ forallb cls v = true) \/
  (exists pre v r,
     re_search (quoted_group l cls c) s = Some [v] /\
     s = pre ++ l ++ v ++ c :: r /\ v <> [] /\ forallb cls v = true).
Proof.
  intros Hc. destruct (re_search (quoted_group l cls c) s) as [caps|] eqn:Hre.
  - right. apply re_search_quoted_group in Hre
      as (pre & v & r & -> & Hs & Hne & Hall); [|exact Hc].
    exists pre, v, r. auto.
  - left. split; [reflexivity|]. intros (pre & v & r & Hs & Hne & Hall).
    rewrite Hs in Hre. apply re_search_app_None in Hre.
    rewrite re_match_quoted_group, group_value_app in Hre by auto.
    discriminate.
Qed.

Lemma unit_heading (header : pystr) (f : pystr) :
  (re_search (quoted_group (header ++ str " (") (not_char ")") ")") f = None /\
   ~ exists u, has_unit header f u) \/
  (exists u,
     re_search (quoted_group (header ++ str " (") (not_char ")") ")") f = Some [u] /\
     has_unit header f u).
Proof.
  destruct (re_search_quoted_group_cases (header ++ str " (") (not_char ")") ")" f
              eq_refl) as [[Hre Hno]|(pre & v & r & Hre & Hs & Hne & Hall)].
  - left. split; [exact Hre|]. intros (u & pre & rest & Hs & Hne & Hall).
    apply Hno. exists pre, u, rest. rewrite <- app_assoc. auto.
  - right. exists v. split; [exact Hre|]. exists pre, r.
    rewrite <- app_assoc in Hs. auto.
Qed.

(** [get_units] gives each of the two headings a unit that stands in
    brackets after a heading of its table in the text, and the bare word
    exactly when no heading of the table in the text has a unit. *)
Theorem get_units_outcomes (f : pystr) :
  ((~ (exists u, has_unit conc_header f u) /\
    (get_units f).1 = str "Concentration") \/
   (exists u, has_unit conc_header f u /\
              (get_units f).1 = str "Concentration (" ++ u ++ str ")")) /\
  ((~ (exists u, has_unit flux_header f u) /\
    (get_units f).2 = str "Flux") \/
   (exists u, has_unit flux_header f u /\
              (get_units f).2 = str "Flux (" ++ u ++ str ")")).
Proof.
  unfold get_units. cbn [fst snd].
  change conc_unit_re
    with (quoted_group (conc_header ++ str " (") (not_char ")") ")").
  change flux_unit_re
    with (quoted_group (flux_header ++ str " (") (not_char ")") ")").
  split.
  - destruct (unit_heading conc_header f) as [[-> Hno]|(u & -> & Hu)];
      [left|right; exists u]; auto.
  - destruct (unit_heading flux_header f) as [[-> Hno]|(u & -> & Hu)];
      [left|right; exists u]; auto.
Qed.

(** ** A whole run of the sweep summarizer *)

Lemma record_files_app (disk : pystr -> option pystr) (results : results_dict)
    (a b : list pystr) :
  record_files disk results (a ++ b) =
  match record_files disk results a with
  | inl e => inl e
  | inr results' => record_files disk results' b
  end.
Proof.
  revert results. induction a as [|fn a IH]; intros results; [reflexivity|].
  cbn [app record_files]. destruct (record_file disk results fn); [reflexivity|].
  apply IH.
Qed.

Lemma record_files_convention (disk : pystr -> option pystr)
    (files : list sweep_file) (results : results_dict) :
  Forall (follows_convention disk) files ->
  record_files disk results (map sf_name files) =
    inr (foldl (fun r f => append_lines r (sf_scan f) (lines_of_file f))
               results files).
Proof.
  intros H. revert results.
  induction H as [|f files (Hdisk & Hbase & Hrow & Hcol & Hval) _ IH];
    intros results; [reflexivity|].
  cbn [map record_files foldl].
  rewrite (record_file_convention _ _ _ (sf_text f) (sf_scan f) (sf_row f)
             (sf_column f)) by assumption.
  apply IH.
Qed.

Lemma lookup_append_lines (results : results_dict) (scan s : pystr)
    (new : list pystr) :
  append_lines results scan new !! s =
  if bool_decide (scan = s) then
    match new with
    | [] => results !! s
    | _ => Some (default [] (results !! s) ++ new)
    end
  else results !! s.
Proof.
  unfold append_lines. destruct new as [|l new].
  - destruct (bool_decide (scan = s)); reflexivity.
  - case_bool_decide as Hs.
    + subst s. rewrite lookup_insert_eq. reflexivity.
    + rewrite lookup_insert_ne by exact Hs. reflexivity.
Qed.

Lemma lookup_summaries (files : list sweep_file) (results : results_dict)
    (s : pystr) :
  foldl (fun r f => append_lines r (sf_scan f) (lines_of_file f)) results files !! s =
  match summary_lines s files with
  | [] => results !! s
  | new => Some (default [] (results !! s) ++ new)
  end.
Proof.
  revert results. induction files as [|f files IH]; intros results; [reflexivity|].
  cbn [foldl]. rewrite IH, lookup_append_lines.
  unfold summary_lines. cbn [map concat]. fold (summary_lines s files).
  unfold lines_for. destruct (bool_decide (sf_scan f = s)); [|reflexivity].
  destruct (lines_of_file f) as [|l ls]; [reflexivity|].
  destruct (summary_lines s files) as [|l' ls']; cbn [app default].
  - rewrite app_nil_r. reflexivity.
  - unfold id. rewrite <- app_assoc. reflexivity.
Qed.

Lemma elem_of_write_summaries (final : results_dict) (name text : pystr) :
  (name, text) ∈ write_summaries final <->
  exists s ls, final !! s = Some ls /\
               name = s ++ str "_summary.txt" /\ text = join [nl] ls.
Proof.
  unfold write_summaries. rewrite list_elem_of_fmap. split.
  - intros (s & [= -> ->] & Hs). apply elem_of_sorted_keys in Hs as [ls Hls].
    exists s, ls. rewrite Hls. auto.
  - intros (s & ls & Hls & -> & ->). exists s. rewrite Hls.
    split; [reflexivity|]. apply elem_of_sorted_keys. eexists. exact Hls.
Qed.

(** A run over files that follow the naming convention writes one summary
    for each scan id some file has a marked line for, under the name of the
    scan with [_summary.txt], and nothing else. The summary of a scan has the
    lines of its files, file after file in the order of the arguments, and
    the lines of a file in their order. *)
Theorem sweep_summaries (disk : pystr -> option pystr) (files : list sweep_file) :
  files <> [] ->
  Forall (follows_convention disk) files ->
  exists writes,
    extractMCAOptimizationResults disk (map sf_name files) = inr writes /\
    forall name text,
      (name, text) ∈ writes <->
      exists s, name = s ++ str "_summary.txt" /\
                summary_lines s files <> [] /\
                text = join [nl] (summary_lines s files).
Proof.
  intros Hne Hconv. unfold extractMCAOptimizationResults.
  destruct (map sf_name files) as [|a args] eqn:Hargs;
    [destruct files; [contradiction|discriminate]|].
  rewrite <- Hargs, (record_files_convention _ _ _ Hconv).
  eexists. split; [reflexivity|]. intros name text.
  rewrite elem_of_write_summaries. split.
  - intros (s & ls & Hls & -> & ->). exists s. split; [reflexivity|].
    rewrite lookup_summaries, lookup_empty in Hls.
    destruct (summary_lines s files) as [|l new]; [discriminate|].
    injection Hls as <-. split; [discriminate|reflexivity].
  - intros (s & -> & Hlines & ->). exists s, (summary_lines s files).
    split; [|auto]. rewrite lookup_summaries, lookup_empty.
    destruct (summary_lines s files) as [|l new]; [contradiction|reflexivity].
Qed.

Lemma follows_convention_4_6 : follows_convention disk_sweep sweep_4_6.
Proof.
  split; [reflexivity|]. split; [reflexivity|].
  split; [|split].
  - intros H. repeat (apply elem_of_cons in H as [H|H]; [discriminate H|]).
    inversion H.
  - intros H. repeat (apply elem_of_cons in H as [H|H]; [discriminate H|]).
    inversion H.
  - unfold marked_lines_have_value. vm_compute file_lines.
    repeat (apply List.Forall_cons;
            [intros H; vm_compute in H; try discriminate H; vm_compute; lia|]).
    apply List.Forall_nil.
Defined.

Lemma follows_convention_4_7 : follows_convention disk_sweep sweep_4_7.
Proof.
  split; [reflexivity|]. split; [reflexivity|].
  split; [|split].
  - intros H. repeat (apply elem_of_cons in H as [H|H]; [discriminate H|]).
    inversion H.
  - intros H. repeat (apply elem_of_cons in H as [H|H]; [discriminate H|]).
    inversion H.
  - unfold marked_lines_have_value. vm_compute file_lines.
    repeat (apply List.Forall_cons;
            [intros H; vm_compute in H; try discriminate H; vm_compute; lia|]).
    apply List.Forall_nil.
Defined.

Lemma sweep_summaries_witness :
  exists writes,
    extractMCAOptimizationResults disk_sweep
      (map sf_name [sweep_4_6; sweep_4_7]) = inr writes /\
    forall name text,
      (name, text) ∈ writes <->
      exists s, name = s ++ str "_summary.txt" /\
                summary_lines s [sweep_4_6; sweep_4_7] <> [] /\
                text = join [nl] (summary_lines s [sweep_4_6; sweep_4_7]).
Proof.
  apply (sweep_summaries disk_sweep [sweep_4_6; sweep_4_7]).
  - discriminate.
  - apply List.Forall_cons; [exact follows_convention_4_6|].
    apply List.Forall_cons; [exact follows_convention_4_7|].
    apply List.Forall_nil.
Defined.

(** A file name that has no underscore once [.txt] is taken out stops the
    whole run with an [IndexError], also when the file has no marked line,
    whatever the files after it are; no summary is written, not even for the
    files read before it. *)
Theorem name_without_underscore_aborts (disk : pystr -> option pystr)
    (files : list sweep_file) (fn text : pystr) (rest : list pystr) :
  Forall (follows_convention disk) files ->
  disk fn = Some text ->
  "_"%char ∉ py_replace (str ".txt") [] fn ->
  extractMCAOptimizationResults disk (map sf_name files ++ fn :: rest) =
    inl (Raise IndexError).
Proof.
  intros Hconv Hdisk Hno. unfold extractMCAOptimizationResults.
  destruct (map sf_name files ++ fn :: rest) as [|a args] eqn:Hargs;
    [destruct (map sf_name files); discriminate|].
  rewrite <- Hargs, record_files_app, (record_files_convention _ _ _ Hconv).
  cbn [record_files]. unfold record_file.
  rewrite Hdisk, (split_on_absent _ _ Hno). reflexivity.
Qed.

Lemma name_without_underscore_aborts_witness :
  extractMCAOptimizationResults
    (fun fn => if pystr_eqb fn (str "results.txt") then Some [] else disk_sweep fn)
    (map sf_name [sweep_4_6] ++ str "results.txt" :: [str "myscan_4_7.txt"]) =
    inl (Raise IndexError).
Proof.
  apply (name_without_underscore_aborts _ [sweep_4_6] (str "results.txt") []).
  - apply List.Forall_cons; [|apply List.Forall_nil].
    destruct follows_convention_4_6 as (_ & H). split; [reflexivity|exact H].
  - reflexivity.
  - intros H. vm_compute in H.
    repeat (apply elem_of_cons in H as [H|H]; [discriminate H|]).
    inversion H.
Defined.

(** *** The sweep summarizer: the claim about a run *)

Lemma file_lines_newline (l rest : pystr) :
  nl ∉ l -> file_lines (l ++ nl :: rest) = (l ++ [nl]) :: file_lines rest.
Proof.
  induction l as [|c l IH]; intros Hl.
  - cbn [app file_lines]. rewrite Ascii.eqb_refl. reflexivity.
  - cbn [app file_lines].
    destruct (Ascii.eqb_spec c nl) as [->|_]; [exfalso; apply Hl; left|].
    rewrite IH; [reflexivity|]. intros Hin. apply Hl. right. exact Hin.
Qed.

Lemma file_lines_last (l : pystr) :
  nl ∉ l -> file_lines l = match l with [] => [] | _ => [l] end.
Proof.
  induction l as [|c l IH]; intros Hl; [reflexivity|].
  cbn [file_lines].
  destruct (Ascii.eqb_spec c nl) as [->|_]; [exfalso; apply Hl; left|].
  rewrite IH by (intros Hin; apply Hl; right; exact Hin).
  destruct l; reflexivity.
Qed.

Lemma file_lines_text (ls : list pystr) (last : pystr) :
  Forall (fun l => nl ∉ l) ls -> nl ∉ last ->
  file_lines (text_of_lines ls last) =
  map (fun l => l ++ [nl]) ls ++ match last with [] => [] | _ => [last] end.
Proof.
  intros Hls Hlast. unfold text_of_lines.
  induction Hls as [|l ls Hl _ IH]; [apply file_lines_last; exact Hlast|].
  cbn [map concat app]. rewrite <- !app_assoc. cbn [app].
  rewrite (file_lines_newline _ _ Hl), IH. reflexivity.
Qed.

Lemma well_formed_follows (disk : pystr -> option pystr) (f : sweep_file) :
  well_formed_sweep disk f -> follows_convention disk f.
Proof.
  intros (Hdisk & (Hname & Htxt & Hrow & Hcol) & Hval).
  split; [exact Hdisk|]. split; [|auto].
  rewrite Hname, !app_assoc, py_replace_txt by (rewrite <- !app_assoc; exact Htxt).
  rewrite <- !app_assoc. reflexivity.
Qed.

(** C8, as amended. The files are there, their names are
    [scan_row_column.txt] with [row] and [column] free of underscores and no
    other [.txt] in the name, and each of their marked lines has a field after
    a tabulator. Then each file adds, for each of its lines with the marker
    and in their order, one line [row, column, value] at the end of the list
    of its scan, nothing being dropped or merged; [value] is the field after
    the first tabulator of the line, which is the field that follows the
    marker when no tabulator comes before the marker; the lines of a file are
    the pieces of its text that end with a newline, and what follows the last
    newline; and the run writes one summary for each scan id with a marked
    line, in the order of the scan ids, with the lines of the files of the
    scan, file after file in the order of the arguments. *)
Theorem C8_sweep_summary (disk : pystr -> option pystr) (files : list sweep_file) :
  files <> [] ->
  Forall (well_formed_sweep disk) files ->
  (forall (f : sweep_file) (results : results_dict),
     f ∈ files ->
     record_file disk results (sf_name f) =
       inr (append_lines results (sf_scan f)
              (map (triple (sf_row f) (sf_column f))
                   (List.filter has_marker (file_lines (sf_text f)))))) /\
  (forall row column pre rest : pystr,
     tab ∉ pre ->
     triple row column (pre ++ objective_marker ++ tab :: rest) =
       join [tab] [row; column; strip (hd [] (split_on tab rest))]) /\
  (forall (ls : list pystr) (last : pystr),
     Forall (fun l => nl ∉ l) ls -> nl ∉ last ->
     file_lines (text_of_lines ls last) =
       map (fun l => l ++ [nl]) ls ++ match last with [] => [] | _ => [last] end) /\
  (exists scans : list pystr,
     extractMCAOptimizationResults disk (map sf_name files) =
       inr (map (fun s => (s ++ str "_summary.txt",
                           join [nl] (summary_lines s files))) scans) /\
     Sorted str_le scans /\ NoDup scans /\
     forall s, s ∈ scans <-> summary_lines s files <> []).
Proof.
  intros Hne Hwf.
  assert (Hconv : Forall (follows_convention disk) files).
  { eapply Forall_impl; [exact Hwf|]. apply well_formed_follows. }
  split; [|split; [|split]].
  - intros f results Hin. rewrite Forall_forall in Hconv.
    destruct (Hconv f Hin) as (Hdisk & Hbase & Hrow & Hcol & Hval).
    apply (record_file_convention _ _ _ (sf_text f)); assumption.
  - intros row column pre rest. apply triple_after_marker.
  - apply file_lines_text.
  - unfold extractMCAOptimizationResults.
    destruct (map sf_name files) as [|a args] eqn:Hargs;
      [destruct files; [contradiction|discriminate]|].
    rewrite <- Hargs, (record_files_convention _ _ _ Hconv).
    set (final := foldl _ _ _).
    assert (Hfinal : forall s, default [] (final !! s) = summary_lines s files).
    { intros s. unfold final. rewrite lookup_summaries, lookup_empty.
      destruct (summary_lines s files); reflexivity. }
    exists (sorted_keys final). split; [|split; [|split]].
    + unfold write_summaries. f_equal. apply map_ext. intros s.
      rewrite Hfinal. reflexivity.
    + apply sorted_keys_sorted.
    + apply sorted_keys_NoDup.
    + intros s. rewrite elem_of_sorted_keys, <- Hfinal.
      unfold final. rewrite lookup_summaries, lookup_empty.
      destruct (summary_lines s files) as [|l new]; split.
      * intros [x Hx]. discriminate Hx.
      * intros H. contradiction.
      * intros _. discriminate.
      * intros _. eexists. reflexivity.
Qed.

Lemma well_formed_sweep_4_6 : well_formed_sweep disk_sweep sweep_4_6.
Proof.
  split; [reflexivity|]. split.
  - split; [reflexivity|]. split; [reflexivity|]. split.
    + intros H. repeat (apply elem_of_cons in H as [H|H]; [discriminate H|]).
      inversion H.
    + intros H. repeat (apply elem_of_cons in H as [H|H]; [discriminate H|]).
      inversion H.
  - unfold marked_lines_have_value. vm_compute file_lines.
    repeat (apply List.Forall_cons;
            [intros H; vm_compute in H; try discriminate H; vm_compute; lia|]).
    apply List.Forall_nil.
Defined.

Lemma well_formed_sweep_4_7 : well_formed_sweep disk_sweep sweep_4_7.
Proof.
  split; [reflexivity|]. split.
  - split; [reflexivity|]. split; [reflexivity|]. split.
    + intros H. repeat (apply elem_of_cons in H as [H|H]; [discriminate H|]).
      inversion H.
    + intros H. repeat (apply elem_of_cons in H as [H|H]; [discriminate H|]).
      inversion H.
  - unfold marked_lines_have_value. vm_compute file_lines.
    repeat (apply List.Forall_cons;
            [intros H; vm_compute in H; try discriminate H; vm_compute; lia|]).
    apply List.Forall_nil.
Defined.

Lemma well_formed_sweep_R1_R2 : well_formed_sweep disk_sweep sweep_R1_R2.
Proof.
  split; [reflexivity|]. split.
  - split; [reflexivity|]. split; [reflexivity|]. split.
    + intros H. repeat (apply elem_of_cons in H as [H|H]; [discriminate H|]).
      inversion H.
    + intros H. repeat (apply elem_of_cons in H as [H|H]; [discriminate H|]).
      inversion H.
  - unfold marked_lines_have_value. vm_compute file_lines.
    repeat (apply List.Forall_cons;
            [intros H; vm_compute in H; try discriminate H; vm_compute; lia|]).
    apply List.Forall_nil.
Defined.

Lemma C8_sweep_summary_witness :
  let files := [sweep_4_6; sweep_R1_R2; sweep_4_7] in
  (forall (f : sweep_file) (results : results_dict),
     f ∈ files ->
     record_file disk_sweep results (sf_name f) =
       inr (append_lines results (sf_scan f)
              (map (triple (sf_row f) (sf_column f))
                   (List.filter has_marker (file_lines (sf_text f)))))) /\
  (forall row column pre rest : pystr,
     tab ∉ pre ->
     triple row column (pre ++ objective_marker ++ tab :: rest) =
       join [tab] [row; column; strip (hd [] (split_on tab rest))]) /\
  (forall (ls : list pystr) (last : pystr),
     Forall (fun l => nl ∉ l) ls -> nl ∉ last ->
     file_lines (text_of_lines ls last) =
       map (fun l => l ++ [nl]) ls ++ match last with [] => [] | _ => [last] end) /\
  (exists scans : list pystr,
     extractMCAOptimizationResults disk_sweep (map sf_name files) =
       inr (map (fun s => (s ++ str "_summary.txt",
                           join [nl] (summary_lines s files))) scans) /\
     Sorted str_le scans /\ NoDup scans /\
     forall s, s ∈ scans <-> summary_lines s files <> []).
Proof.
  apply (C8_sweep_summary disk_sweep [sweep_4_6; sweep_R1_R2; sweep_4_7]).
  - discriminate.
  - apply List.Forall_cons; [exact well_formed_sweep_4_6|].
    apply List.Forall_cons; [exact well_formed_sweep_R1_R2|].
    apply List.Forall_cons; [exact well_formed_sweep_4_7|].
    apply List.Forall_nil.
Defined.

(** C8, as stated, fails in two ways. The name [a.txt_b_1_2.txt] is
    [scan_row_column.txt] with the scan id [a.txt_b], and its line is
    recorded under [a_b]: every [.txt] is taken out of the name, not the one
    at its end only. And on a line with a tabulator before the marker the
    value recorded is not the field after the marker: here it is the marker
    itself. *)
Lemma C8_counterexample :
  str "a.txt_b_1_2.txt" =
    str "a.txt_b" ++ str "_" ++ str "1" ++ str "_" ++ str "2" ++ str ".txt" /\
  extractMCAOptimizationResults
    (fun _ => Some (objective_line "0.5")) [str "a.txt_b_1_2.txt"] =
    inr [(str "a_b_summary.txt", join [tab] [str "1"; str "2"; str "0.5"])] /\
  extractMCAOptimizationResults
    (fun _ => Some (objective_line "0.5")) [str "a.txt_b_1_2.txt"] <>
    inr [(str "a.txt_b_summary.txt", join [tab] [str "1"; str "2"; str "0.5"])] /\
  extractMCAOptimizationResults
    (fun _ => Some (str "run" ++ [tab] ++ objective_marker ++ [tab] ++
                    str "0.5" ++ [nl]))
    [str "s_1_2.txt"] =
    inr [(str "s_summary.txt",
          join [tab] [str "1"; str "2"; objective_marker])] /\
  extractMCAOptimizationResults
    (fun _ => Some (str "run" ++ [tab] ++ objective_marker ++ [tab] ++
                    str "0.5" ++ [nl]))
    [str "s_1_2.txt"] <>
    inr [(str "s_summary.txt", join [tab] [str "1"; str "2"; str "0.5"])].
Proof.
  vm_compute. repeat split; try reflexivity; intros H; discriminate H.
Qed.

(** The scenario of the specification, and a file with two marked lines. *)
Example sweep_scenario :
  extractMCAOptimizationResults disk_sweep
    [str "myscan_4_6.txt"; str "a_long_scan_R1_R2.txt"; str "myscan_4_7.txt"] =
  inr [(str "a_long_scan_summary.txt",
        join [nl] [join [tab] [str "R1"; str "R2"; str "1e-05"];
                   join [tab] [str "R1"; str "R2"; str "1e-05"]]);
       (str "myscan_summary.txt",
        join [nl] [join [tab] [str "4"; str "6"; str "0.123"];
                   join [tab] [str "4"; str "7"; str "0.123"]])].
Proof. vm_compute. reflexivity. Qed.

(** ** The version of a document *)

Lemma firstn_prefix {A : Type} (a r : list A) :
  firstn (length (a ++ r) - length r) (a ++ r) = a.
Proof.
  rewrite length_app. replace (length a + length r - length r) with (length a) by lia.
  rewrite firstn_app, firstn_all, Nat.sub_diag. simpl. apply app_nil_r.
Qed.

Lemma match_at_lits_end (l s : pystr) (opened caps : list pystr) :
  match_at (map Lit l) s opened caps =
  match strip_prefix l s with
  | Some u => Some (caps, u)
  | None => None
  end.
Proof.
  rewrite <- (app_nil_r (map Lit l)), match_at_lits.
  destruct (strip_prefix l s); reflexivity.
Qed.

Lemma re_match_version (s : pystr) (caps : list pystr) (rest : pystr) :
  re_match version_re s = Some (caps, rest) ->
  exists v b x y,
    caps = [v ++ str " (Build " ++ b ++ str ")"] /\
    s = str "<!-- generated with COPASI " ++
        (v ++ str " (Build " ++ b ++ str ")") ++
        str " (http://www" ++ x :: str "copasi" ++ y :: str "org)" ++ rest /\
    v <> [] /\ forallb (fun c => is_digit c || is_char "." c) v = true /\
    b <> [] /\ forallb is_digit b = true /\
    not_nl x = true /\ not_nl y = true.
Proof.
  unfold re_match, version_re, lits. rewrite match_at_lits.
  destruct (strip_prefix _ s) as [u|] eqn:Hu; [|discriminate].
  apply strip_prefix_Some in Hu. subst s.
  cbn [app match_at]. rewrite rep_greedy_span.
  2:{ intros c s' Hc. rewrite match_at_lits. cbn.
      destruct (Ascii.eqb_spec c " ") as [->|]; [discriminate Hc|reflexivity]. }
  pose proof (span_cls_app (fun c => is_digit c || is_char "." c) u) as Hv.
  pose proof (span_cls_all (fun c => is_digit c || is_char "." c) u) as Hvall.
  destruct (span_cls _ u) as [v r]. cbn [fst snd] in Hv, Hvall.
  destruct (Nat.leb_spec 1 (length v)) as [Hvlen|]; [|discriminate].
  rewrite match_at_lits.
  destruct (strip_prefix _ r) as [r2|] eqn:Hr; [|discriminate].
  apply strip_prefix_Some in Hr. subst r.
  cbn [app match_at]. rewrite rep_greedy_span.
  2:{ intros c s' Hc. cbn.
      destruct (Ascii.eqb_spec c ")") as [->|]; [discriminate Hc|reflexivity]. }
  pose proof (span_cls_app is_digit r2) as Hb.
  pose proof (span_cls_all is_digit r2) as Hball.
  destruct (span_cls is_digit r2) as [b r3]. cbn [fst snd] in Hb, Hball.
  destruct (Nat.leb_spec 1 (length b)) as [Hblen|]; [|discriminate].
  destruct r3 as [|c r4]; [discriminate|]. cbn [match_at].
  destruct (Ascii.eqb_spec c ")") as [->|]; [|discriminate].
  rewrite match_at_lits.
  destruct (strip_prefix _ r4) as [r5|] eqn:Hr4; [|discriminate].
  apply strip_prefix_Some in Hr4. subst r4.
  destruct r5 as [|x r5]; [discriminate|]. cbn [app match_at].
  destruct (not_nl x) eqn:Hx; [|discriminate].
  rewrite match_at_lits.
  destruct (strip_prefix _ r5) as [r6|] eqn:Hr5; [|discriminate].
  apply strip_prefix_Some in Hr5. subst r5.
  destruct r6 as [|y r6]; [discriminate|]. cbn [app match_at].
  destruct (not_nl y) eqn:Hy; [|discriminate].
  rewrite match_at_lits_end.
  destruct (strip_prefix _ r6) as [r7|] eqn:Hr6; [|discriminate].
  apply strip_prefix_Some in Hr6. subst r6.
  intros [= <- <-]. exists v, b, x, y.
  assert (Hu : u = (v ++ str " (Build " ++ b ++ str ")") ++
                   str " (http://www" ++ x :: str "copasi" ++ y :: str "org)" ++ r7).
  { rewrite Hv, Hb. rewrite <- !app_assoc. reflexivity. }
  split.
  - cbn [app]. rewrite Hu at 1 2. f_equal.
    apply (firstn_prefix (v ++ str " (Build " ++ b ++ str ")")).
  - split; [rewrite Hu; reflexivity|].
    split; [intros ->; simpl in Hvlen; lia|]. split; [exact Hvall|].
    split; [intros ->; simpl in Hblen; lia|]. auto.
Qed.

Lemma re_match_version_comment (v b : pystr) (x y : ascii) (rest : pystr) :
  v <> [] -> forallb (fun c => is_digit c || is_char "." c) v = true ->
  b <> [] -> forallb is_digit b = true ->
  not_nl x = true -> not_nl y = true ->
  re_match version_re
    (str "<!-- generated with COPASI " ++
     (v ++ str " (Build " ++ b ++ str ")") ++
     str " (http://www" ++ x :: str "copasi" ++ y :: str "org)" ++ rest) <> None.
Proof.
  intros Hv Hvall Hb Hball Hx Hy.
  unfold re_match, version_re, lits. rewrite match_at_lits, strip_prefix_app.
  cbn [app match_at]. rewrite rep_greedy_span.
  2:{ intros c s' Hc. rewrite match_at_lits. cbn.
      destruct (Ascii.eqb_spec c " ") as [->|]; [discriminate Hc|reflexivity]. }
  rewrite <- !app_assoc.
  change (str " (Build " ++ b ++ str ")" ++ ?r)
    with (" "%char :: (str "(Build " ++ b ++ str ")" ++ r)).
  rewrite (span_cls_stop _ v " " _ Hvall eq_refl).
  destruct v as [|c0 v]; [congruence|]. cbn [length Nat.leb].
  change (" "%char :: (str "(Build " ++ b ++ str ")" ++ ?r))
    with (str " (Build " ++ b ++ str ")" ++ r).
  rewrite match_at_lits, strip_prefix_app.
  cbn [app match_at]. rewrite rep_greedy_span.
  2:{ intros c s' Hc. cbn.
      destruct (Ascii.eqb_spec c ")") as [->|]; [discriminate Hc|reflexivity]. }
  change (str ")" ++ ?r) with (")"%char :: r).
  rewrite (span_cls_stop is_digit b ")" _ Hball eq_refl).
  destruct b as [|c1 b]; [congruence|]. cbn [length Nat.leb match_at].
  rewrite Ascii.eqb_refl, match_at_lits, strip_prefix_app.
  cbn [app match_at]. rewrite Hx, match_at_lits, strip_prefix_app.
  cbn [app match_at]. rewrite Hy, match_at_lits_end, strip_prefix_app.
  discriminate.
Qed.

(** [getVersion] never stops the program and never changes the document.
    It returns no version, with one report, exactly when the text has no
    version comment; otherwise it returns, in silence, the version of a
    version comment of the text: digits and dots, then the build number in
    brackets. *)
Theorem getVersion_outcomes (self : Copasi) :
  ((~ exists version, version_comment (content self) version) /\
   run getVersion self =
     ([Report (filename self)
         (str "The version of the Copasi file could not be determined.") false],
      inr (None, self))) \/
  (exists version,
     version_comment (content self) version /\
     run getVersion self = ([], inr (Some version, self))).
Proof.
  unfold run, getVersion, bind, get_self. cbn beta iota zeta.
  destruct (re_search version_re (content self)) as [caps|] eqn:Hre.
  - right. apply re_search_Some in Hre as (pre & u & rest & Hc & Hu).
    apply re_match_version in Hu
      as (v & b & x & y & -> & -> & Hv & Hvall & Hb & Hball & Hx & Hy).
    eexists. split; [|reflexivity].
    exists pre, v, b, x, y, rest. rewrite Hc. cbn [nth]. auto 10.
  - left. split; [|reflexivity].
    intros (version & pre & v & b & x & y & rest & Hc & -> & Hv & Hvall & Hb &
            Hball & Hx & Hy).
    rewrite Hc in Hre. apply re_search_app_None in Hre.
    exact (re_match_version_comment v b x y rest Hv Hvall Hb Hball Hx Hy Hre).
Qed.

(** ** A later call of a setter undoes an earlier one *)

Lemma subn_fail (p : pattern) (t : template) (c : ascii) (s : pystr) :
  re_match p (c :: s) = None ->
  subn p t (c :: s) = (c :: fst (subn p t s), snd (subn p t s)).
Proof. intros H. rewrite subn_cons. unfold subn_step. rewrite H. reflexivity. Qed.

Section LastWins.
Variables (p : pattern) (w1 : pystr).
Hypothesis p_progress :
  forall s caps rest, re_match p s = Some (caps, rest) -> length rest < length s.
Hypothesis w1_matches : forall x, exists caps, re_match p (w1 ++ x) = Some (caps, x).
Hypothesis fail_stable :
  forall c s, re_match p (c :: s) = None ->
              re_match p (c :: fst (subn p [TText w1] s)) = None.

Lemma subn_hit (t : template) (c : ascii) (s : pystr) (caps : list pystr)
    (rest : pystr) :
  re_match p (c :: s) = Some (caps, rest) ->
  subn p t (c :: s) = (expand t caps ++ fst (subn p t rest), S (snd (subn p t rest))).
Proof.
  intros H. rewrite subn_cons. unfold subn_step. rewrite H.
  apply p_progress in H. apply Nat.ltb_lt in H. rewrite H. reflexivity.
Qed.

Lemma subn_last_wins (w2 : pystr) (s : pystr) :
  subn p [TText w2] (fst (subn p [TText w1] s)) = subn p [TText w2] s.
Proof.
  remember (length s) as n eqn:Hn. revert s Hn.
  induction n as [n IH] using lt_wf_ind. intros s Hn.
  destruct s as [|c s]; [reflexivity|].
  destruct (re_match p (c :: s)) as [[caps r]|] eqn:Hm.
  - pose proof (p_progress _ _ _ Hm) as Hlt.
    rewrite !(subn_hit _ _ _ _ _ Hm). cbn [fst expand map concat].
    rewrite !app_nil_r.
    destruct (w1_matches (fst (subn p [TText w1] r))) as [caps' Hw].
    destruct (w1 ++ fst (subn p [TText w1] r)) as [|c' s'] eqn:Hs.
    { apply p_progress in Hw. simpl in Hw. lia. }
    rewrite (subn_hit _ _ _ _ _ Hw). cbn [expand map concat].
    rewrite !app_nil_r, (IH (length r)); [reflexivity|lia|reflexivity].
  - rewrite !(subn_fail _ _ _ _ Hm). cbn [fst].
    rewrite (subn_fail _ _ _ _ (fail_stable _ _ Hm)).
    rewrite (IH (length s)); [reflexivity|simpl in Hn; lia|reflexivity].
Qed.
End LastWins.

(** *** The targets *)

Lemma re_match_MCAOpti (s : pystr) :
  re_match MCAOpti_re s =
  match bracketed s with
  | Some r =>
      match bracketed r with
      | Some r' => Some ([], r')
      | None => None
      end
  | None => None
  end.
Proof.
  unfold re_match, MCAOpti_re, bracketed.
  destruct s as [|c u]; [reflexivity|]. cbn [match_at].
  destruct (Ascii.eqb c "["); [|reflexivity].
  rewrite rep_greedy_span.
  2:{ intros a s' Ha. cbn [match_at].
      destruct (Ascii.eqb_spec a "]") as [->|]; [discriminate Ha|reflexivity]. }
  destruct (span_cls is_digit u) as [d r]. cbn [Nat.leb].
  destruct r as [|c' r']; [reflexivity|]. cbn [match_at].
  destruct (Ascii.eqb c' "]"); [|reflexivity].
  destruct r' as [|c2 u2]; [reflexivity|].
  destruct (Ascii.eqb c2 "["); [|reflexivity].
  rewrite rep_greedy_span.
  2:{ intros a s' Ha. cbn [match_at].
      destruct (Ascii.eqb_spec a "]") as [->|]; [discriminate Ha|reflexivity]. }
  destruct (span_cls is_digit u2) as [d2 r2]. cbn [Nat.leb].
  destruct r2 as [|c3 r3]; [reflexivity|]. cbn [match_at].
  destruct (Ascii.eqb c3 "]"); reflexivity.
Qed.

Lemma bracketed_Some (s r : pystr) :
  bracketed s = Some r ->
  exists d, s = "["%char :: d ++ "]"%char :: r /\ forallb is_digit d = true.
Proof.
  unfold bracketed. destruct s as [|c u]; [discriminate|].
  destruct (Ascii.eqb_spec c "[") as [->|]; [|discriminate].
  pose proof (span_cls_app is_digit u) as Happ.
  pose proof (span_cls_all is_digit u) as Hall.
  destruct (span_cls is_digit u) as [d r0]. cbn [fst snd] in *.
  destruct r0 as [|c' r']; [discriminate|].
  destruct (Ascii.eqb_spec c' "]") as [->|]; [|discriminate].
  intros [= <-]. exists d. rewrite Happ. auto.
Qed.

Lemma bracketed_digits (d r : pystr) :
  forallb is_digit d = true ->
  bracketed ("["%char :: d ++ "]"%char :: r) = Some r.
Proof.
  intros Hd. unfold bracketed. cbn [Ascii.eqb Bool.eqb].
  rewrite (span_cls_stop is_digit d "]" r Hd eq_refl). reflexivity.
Qed.

Lemma bracketed_shorter (s r : pystr) :
  bracketed s = Some r -> length r < length s.
Proof.
  intros H. apply bracketed_Some in H as (d & -> & _).
  simpl. rewrite length_app. simpl. lia.
Qed.

Lemma MCAOpti_progress (s : pystr) (caps : list pystr) (rest : pystr) :
  re_match MCAOpti_re s = Some (caps, rest) -> length rest < length s.
Proof.
  rewrite re_match_MCAOpti.
  destruct (bracketed s) as [r|] eqn:H1; [|discriminate].
  destruct (bracketed r) as [r'|] eqn:H2; [|discriminate].
  intros [= _ <-]. apply bracketed_shorter in H1, H2. lia.
Qed.

Lemma string_of_uint_digits (d : Decimal.uint) :
  forallb is_digit (str (NilZero.string_of_uint d)) = true.
Proof.
  assert (H : forallb is_digit (str (NilEmpty.string_of_uint d)) = true).
  { unfold str.
    induction d; [reflexivity|cbn [NilEmpty.string_of_uint list_ascii_of_string forallb];
                    rewrite IHd; reflexivity..]. }
  destruct d; [reflexivity|exact H..].
Qed.

Lemma str_of_Z_digits (n : Z) : (0 <= n)%Z -> forallb is_digit (str_of_Z n) = true.
Proof.
  intros Hn. unfold str_of_Z. destruct n as [|q|q]; [reflexivity| |lia].
  apply string_of_uint_digits.
Qed.

Section Targets.
Variables objleft objright : Z.
Local Abbreviation new := (retargeted objleft objright).

Lemma retargeted_cons (c : ascii) (s : pystr) :
  re_match MCAOpti_re (c :: s) = None -> new (c :: s) = c :: new s.
Proof. intros H. unfold retargeted. rewrite (subn_fail _ _ _ _ H). reflexivity. Qed.

Lemma no_target_at (c : ascii) (s : pystr) :
  Ascii.eqb c "[" = false -> re_match MCAOpti_re (c :: s) = None.
Proof. intros H. rewrite re_match_MCAOpti. unfold bracketed. rewrite H. reflexivity. Qed.

(** The head of a text is the head of its image. *)
Lemma retargeted_head (c : ascii) (s : pystr) : exists x, new (c :: s) = c :: x.
Proof.
  destruct (re_match MCAOpti_re (c :: s)) as [[caps r]|] eqn:Hm.
  - unfold retargeted. rewrite subn_cons. unfold subn_step. rewrite Hm.
    pose proof (MCAOpti_progress _ _ _ Hm) as Hlt. apply Nat.ltb_lt in Hlt.
    rewrite Hlt. rewrite re_match_MCAOpti in Hm. unfold bracketed at 1 in Hm.
    destruct (Ascii.eqb_spec c "[") as [->|]; [|discriminate].
    eexists. reflexivity.
  - eexists. apply retargeted_cons. exact Hm.
Qed.

Lemma retargeted_digits (d r : pystr) :
  forallb is_digit d = true -> new (d ++ r) = d ++ new r.
Proof.
  induction d as [|a d IH]; intros Hd; [reflexivity|].
  cbn [forallb] in Hd. apply andb_true_iff in Hd as [Ha Hd].
  cbn [app]. rewrite retargeted_cons, (IH Hd); [reflexivity|].
  apply no_target_at.
  destruct (Ascii.eqb_spec a "[") as [->|]; [discriminate Ha|reflexivity].
Qed.

Lemma bracketed_stable_None (x : pystr) :
  bracketed x = None -> bracketed (new x) = None.
Proof.
  destruct x as [|c u]; [reflexivity|]. intros H.
  assert (Hm : re_match MCAOpti_re (c :: u) = None).
  { rewrite re_match_MCAOpti, H. reflexivity. }
  rewrite (retargeted_cons _ _ Hm). unfold bracketed in H |- *.
  destruct (Ascii.eqb c "["); [|reflexivity].
  pose proof (span_cls_app is_digit u) as Happ.
  pose proof (span_cls_all is_digit u) as Hall.
  pose proof (span_cls_rest is_digit u) as Hrest.
  destruct (span_cls is_digit u) as [d r]. cbn [fst snd] in *.
  rewrite Happ, (retargeted_digits _ _ Hall).
  destruct r as [|a r'].
  - change (new []) with (@nil ascii). rewrite app_nil_r.
    pose proof (span_cls_app is_digit d) as Happ'.
    pose proof (span_cls_rest is_digit d) as Hrest'.
    destruct (span_cls is_digit d) as [d' r'']. cbn [fst snd] in *.
    destruct r'' as [|a' r3]; [reflexivity|].
    exfalso. rewrite Happ' in Hall. rewrite forallb_app in Hall.
    apply andb_true_iff in Hall as [_ Hall]. cbn [forallb] in Hall.
    rewrite Hrest' in Hall. discriminate Hall.
  - destruct (retargeted_head a r') as [x ->].
    rewrite (span_cls_stop is_digit d a x Hall Hrest).
    destruct (Ascii.eqb a "]"); [discriminate H|reflexivity].
Qed.

Lemma bracketed_stable_Some (x r : pystr) :
  bracketed x = Some r -> bracketed r = None ->
  bracketed (new x) = Some (new r).
Proof.
  intros Hx Hr.
  assert (Hm : re_match MCAOpti_re x = None).
  { rewrite re_match_MCAOpti, Hx, Hr. reflexivity. }
  apply bracketed_Some in Hx as (d & -> & Hd).
  rewrite (retargeted_cons _ _ Hm), (retargeted_digits _ _ Hd).
  rewrite (retargeted_cons "]" r) by (apply no_target_at; reflexivity).
  apply bracketed_digits. exact Hd.
Qed.

Lemma MCAOpti_fail_stable (c : ascii) (s : pystr) :
  re_match MCAOpti_re (c :: s) = None ->
  re_match MCAOpti_re (c :: new s) = None.
Proof.
  intros Hm. rewrite <- (retargeted_cons _ _ Hm).
  rewrite re_match_MCAOpti in Hm |- *.
  destruct (bracketed (c :: s)) as [r|] eqn:Hx.
  - destruct (bracketed r) as [r'|] eqn:Hr; [discriminate|].
    rewrite (bracketed_stable_Some _ _ Hx Hr), (bracketed_stable_None _ Hr).
    reflexivity.
  - rewrite (bracketed_stable_None _ Hx). reflexivity.
Qed.

Lemma MCAOpti_repl_matches (x : pystr) :
  (0 <= objleft)%Z -> (0 <= objright)%Z ->
  exists caps,
    re_match MCAOpti_re
      ((str "[" ++ str_of_Z objleft ++ str "][" ++ str_of_Z objright ++ str "]") ++ x) =
    Some (caps, x).
Proof.
  intros Hl Hr. exists []. rewrite re_match_MCAOpti.
  rewrite <- !app_assoc.
  change (str "[" ++ str_of_Z objleft ++ str "][" ++ str_of_Z objright ++ str "]" ++ x)
    with ("["%char :: str_of_Z objleft ++
          "]"%char :: "["%char :: str_of_Z objright ++ "]"%char :: x).
  rewrite (bracketed_digits _ _ (str_of_Z_digits _ Hl)).
  rewrite (bracketed_digits _ _ (str_of_Z_digits _ Hr)). reflexivity.
Qed.
End Targets.

Lemma retargeted_last_wins (l1 r1 l2 r2 : Z) (text : pystr) :
  (0 <= l1)%Z -> (0 <= r1)%Z ->
  subn MCAOpti_re (MCAOpti_repl l2 r2) (retargeted l1 r1 text) =
  subn MCAOpti_re (MCAOpti_repl l2 r2) text.
Proof.
  intros Hl Hr. unfold retargeted, MCAOpti_repl.
  apply subn_last_wins.
  - apply MCAOpti_progress.
  - intros x. apply MCAOpti_repl_matches; assumption.
  - apply MCAOpti_fail_stable.
Qed.



(** *** Patterns of a literal, a delimited value and a literal *)

Lemma re_match_delimited (l : pystr) (c : ascii) (sfx s : pystr) :
  re_match (delimited_re l c sfx) s =
  match delimited l c sfx s with
  | Some r => Some ([], r)
  | None => None
  end.
Proof.
  unfold re_match, delimited_re, delimited. rewrite match_at_lits.
  destruct (strip_prefix l s) as [u|]; [|reflexivity].
  cbn [app match_at]. rewrite rep_greedy_span.
  2:{ intros a s' Ha. unfold not_char in Ha. apply negb_true_iff in Ha.
      rewrite Ha. reflexivity. }
  destruct (span_cls (not_char c) u) as [v r].
  destruct (1 <=? length v); [|reflexivity].
  destruct r as [|c' r']; [reflexivity|].
  destruct (Ascii.eqb c' c); [|reflexivity].
  rewrite match_at_lits_end. destruct (strip_prefix sfx r'); reflexivity.
Qed.

Lemma delimited_Some (l : pystr) (c : ascii) (sfx s r : pystr) :
  delimited l c sfx s = Some r ->
  exists v, s = l ++ v ++ c :: sfx ++ r /\ v <> [] /\
            forallb (not_char c) v = true.
Proof.
  unfold delimited. destruct (strip_prefix l s) as [u|] eqn:Hu; [|discriminate].
  apply strip_prefix_Some in Hu. subst s.
  pose proof (span_cls_app (not_char c) u) as Happ.
  pose proof (span_cls_all (not_char c) u) as Hall.
  destruct (span_cls (not_char c) u) as [v r0]. cbn [fst snd] in *.
  destruct (Nat.leb_spec 1 (length v)) as [Hlen|]; [|discriminate].
  destruct r0 as [|c' r']; [discriminate|].
  destruct (Ascii.eqb_spec c' c) as [->|]; [|discriminate].
  intros Hs. apply strip_prefix_Some in Hs. subst r'.
  exists v. rewrite Happ. split; [reflexivity|]. split; [|exact Hall].
  intros ->. simpl in Hlen. lia.
Qed.

Lemma delimited_value (l : pystr) (c : ascii) (sfx v r : pystr) :
  v <> [] -> forallb (not_char c) v = true ->
  delimited l c sfx (l ++ v ++ c :: sfx ++ r) = Some r.
Proof.
  intros Hne Hv. unfold delimited. rewrite strip_prefix_app.
  rewrite (span_cls_stop _ v c _ Hv)
    by (unfold not_char; rewrite Ascii.eqb_refl; reflexivity).
  destruct v as [|a v]; [congruence|]. cbn [length Nat.leb].
  rewrite Ascii.eqb_refl. apply strip_prefix_app.
Qed.

Lemma not_char_in (a : ascii) (s : pystr) :
  forallb (not_char a) s = true -> a ∉ s.
Proof.
  induction s as [|x s IH]; intros H Hin; [inversion Hin|].
  cbn [forallb] in H. apply andb_true_iff in H as [Hx Hs].
  apply elem_of_cons in Hin as [->|Hin]; [|exact (IH Hs Hin)].
  unfold not_char in Hx. rewrite Ascii.eqb_refl in Hx. discriminate Hx.
Qed.

(** A literal without [c] at the head of a text that has [c] after a run
    without it lies in the run. *)
Lemma prefix_in_run (l u v r : pystr) (c : ascii) :
  forallb (not_char c) l = true -> forallb (not_char c) v = true ->
  l ++ u = v ++ c :: r ->
  exists v', v = l ++ v' /\ u = v' ++ c :: r.
Proof.
  revert v. induction l as [|a l IH]; intros v Hl Hv E.
  - exists v. split; [reflexivity|exact E].
  - cbn [forallb] in Hl. apply andb_true_iff in Hl as [Ha Hl].
    destruct v as [|b v]; cbn [app] in E.
    + injection E as -> _. unfold not_char in Ha.
      rewrite Ascii.eqb_refl in Ha. discriminate Ha.
    + injection E as -> E. cbn [forallb] in Hv.
      apply andb_true_iff in Hv as [_ Hv].
      destruct (IH v Hl Hv E) as (v' & -> & ->). exists v'. auto.
Qed.

Section Delimited.
Variables (h : ascii) (l' : pystr) (c : ascii) (sfx : pystr) (w' : pystr).
Local Abbreviation l := (h :: l').
Local Abbreviation P := (delimited_re (h :: l') c sfx).
Local Abbreviation new := (fun s => fst (subn P [TText (h :: w')] s)).
Hypothesis head_once : forallb (not_char h) l' = true.
Hypothesis head_not_c : Ascii.eqb c h = false.
Hypothesis head_not_sfx : forallb (not_char h) sfx = true.
Hypothesis c_not_l : forallb (not_char c) l = true.

Lemma delimited_progress (s : pystr) (caps : list pystr) (rest : pystr) :
  re_match P s = Some (caps, rest) -> length rest < length s.
Proof.
  rewrite re_match_delimited.
  destruct (delimited l c sfx s) as [r|] eqn:H; [|discriminate].
  intros [= _ <-]. apply delimited_Some in H as (v & -> & _).
  simpl. rewrite !length_app. simpl. rewrite length_app. lia.
Qed.

Lemma delimited_no_match_at (a : ascii) (s : pystr) :
  Ascii.eqb a h = false -> re_match P (a :: s) = None.
Proof.
  intros H. rewrite re_match_delimited. unfold delimited.
  cbn [strip_prefix]. rewrite H. reflexivity.
Qed.

Lemma delimited_new_cons (a : ascii) (s : pystr) :
  re_match P (a :: s) = None -> new (a :: s) = a :: new s.
Proof. intros H. cbn beta. rewrite (subn_fail _ _ _ _ H). reflexivity. Qed.

Lemma delimited_new_head (a : ascii) (s : pystr) : exists x, new (a :: s) = a :: x.
Proof.
  destruct (re_match P (a :: s)) as [[caps r]|] eqn:Hm.
  - cbn beta. rewrite (subn_hit _ delimited_progress _ _ _ _ _ Hm).
    rewrite re_match_delimited in Hm. unfold delimited in Hm.
    cbn [strip_prefix] in Hm.
    destruct (Ascii.eqb_spec a h) as [->|]; [|discriminate].
    eexists. reflexivity.
  - eexists. apply delimited_new_cons. exact Hm.
Qed.

Lemma delimited_new_free (q s : pystr) :
  forallb (not_char h) q = true -> new (q ++ s) = q ++ new s.
Proof.
  induction q as [|a q IH]; intros Hq; [reflexivity|].
  cbn [forallb] in Hq. apply andb_true_iff in Hq as [Ha Hq].
  cbn [app]. rewrite delimited_new_cons.
  - cbn beta in IH |- *. rewrite (IH Hq). reflexivity.
  - apply delimited_no_match_at. unfold not_char in Ha.
    apply negb_true_iff in Ha. exact Ha.
Qed.

Lemma starts_with_new (q s : pystr) :
  forallb (not_char h) q = true ->
  starts_with q (new s) = true -> starts_with q s = true.
Proof.
  revert s. induction q as [|a q IH]; intros s Hq; [reflexivity|].
  cbn [forallb] in Hq. apply andb_true_iff in Hq as [Ha Hq].
  unfold not_char in Ha. apply negb_true_iff in Ha.
  destruct s as [|b s]; [intros H; exact H|].
  destruct (re_match P (b :: s)) as [[caps r]|] eqn:Hm.
  - cbn beta. rewrite (subn_hit _ delimited_progress _ _ _ _ _ Hm).
    cbn [fst expand map concat app starts_with].
    intros H. apply andb_true_iff in H as [E _]. apply Ascii.eqb_eq in E.
    subst a. rewrite Ascii.eqb_refl in Ha. discriminate Ha.
  - rewrite (delimited_new_cons _ _ Hm). cbn [starts_with].
    intros H. apply andb_true_iff in H as [-> H]. apply (IH _ Hq H).
Qed.

Lemma strip_prefix_new_None (q s : pystr) :
  forallb (not_char h) q = true ->
  strip_prefix q s = None -> strip_prefix q (new s) = None.
Proof.
  intros Hq H. apply strip_prefix_None in H. apply strip_prefix_None.
  destruct (starts_with q (new s)) eqn:E; [|reflexivity].
  apply (starts_with_new _ _ Hq) in E. congruence.
Qed.

Lemma delimited_needs_c (s : pystr) :
  forallb (not_char c) s = true -> new s = s.
Proof.
  induction s as [|a s IH]; intros Hs; [reflexivity|].
  rewrite delimited_new_cons.
  - cbn [forallb] in Hs. apply andb_true_iff in Hs as [_ Hs].
    cbn beta in IH |- *. rewrite (IH Hs). reflexivity.
  - rewrite re_match_delimited.
    destruct (delimited l c sfx (a :: s)) as [r|] eqn:H; [|reflexivity].
    apply delimited_Some in H as (v & E & _). exfalso.
    apply (not_char_in _ _ Hs). rewrite E.
    change (h :: l' ++ v ++ c :: sfx ++ r) with ((h :: l') ++ v ++ c :: sfx ++ r).
    apply elem_of_app. right. apply elem_of_app. right. left.
Qed.

(** No match begins in a run without [c] that ends where a match fails. *)
Lemma delimited_inner_fail (v r : pystr) :
  forallb (not_char c) v = true -> strip_prefix sfx r = None ->
  re_match P (v ++ c :: r) = None.
Proof.
  intros Hv Hr. rewrite re_match_delimited. unfold delimited.
  destruct (strip_prefix l (v ++ c :: r)) as [u|] eqn:Hu; [|reflexivity].
  apply strip_prefix_Some in Hu. symmetry in Hu.
  apply (prefix_in_run _ _ _ _ _ c_not_l Hv) in Hu as (v' & -> & ->).
  rewrite forallb_app in Hv. apply andb_true_iff in Hv as [_ Hv'].
  rewrite (span_cls_stop _ v' c r Hv')
    by (unfold not_char; rewrite Ascii.eqb_refl; reflexivity).
  destruct (1 <=? length v'); [|reflexivity].
  rewrite Ascii.eqb_refl, Hr. reflexivity.
Qed.

Lemma delimited_new_run (v r : pystr) :
  forallb (not_char c) v = true -> strip_prefix sfx r = None ->
  new (v ++ c :: r) = v ++ c :: new r.
Proof.
  intros Hv Hr. induction v as [|a v IH].
  - cbn [app]. apply delimited_new_cons. apply delimited_no_match_at.
    exact head_not_c.
  - cbn [app]. rewrite delimited_new_cons.
    + cbn [forallb] in Hv. apply andb_true_iff in Hv as [_ Hv'].
      cbn beta in IH |- *. rewrite (IH Hv'). reflexivity.
    + apply (delimited_inner_fail (a :: v) r Hv Hr).
Qed.

Lemma delimited_fail_stable (a : ascii) (s : pystr) :
  re_match P (a :: s) = None -> re_match P (a :: new s) = None.
Proof.
  rewrite !re_match_delimited. unfold delimited. cbn [strip_prefix].
  destruct (Ascii.eqb a h); [|reflexivity].
  destruct (strip_prefix l' s) as [u|] eqn:Hu.
  - apply strip_prefix_Some in Hu. subst s.
    rewrite (delimited_new_free _ _ head_once), strip_prefix_app.
    pose proof (span_cls_app (not_char c) u) as Happ.
    pose proof (span_cls_all (not_char c) u) as Hall.
    pose proof (span_cls_rest (not_char c) u) as Hrest.
    destruct (span_cls (not_char c) u) as [v r]. cbn [fst snd] in *.
    destruct r as [|c' r'].
    + rewrite app_nil_r in Happ. subst u. intros _.
      rewrite (delimited_needs_c _ Hall).
      pose proof (span_cls_app (not_char c) v) as Happ'.
      pose proof (span_cls_rest (not_char c) v) as Hrest'.
      destruct (span_cls (not_char c) v) as [v2 r2]. cbn [fst snd] in *.
      destruct r2 as [|c2 r2]; [destruct (1 <=? length v2); reflexivity|].
      exfalso. rewrite Happ', forallb_app in Hall.
      apply andb_true_iff in Hall as [_ Hall]. cbn [forallb] in Hall.
      rewrite Hrest' in Hall. discriminate Hall.
    + assert (c' = c) as ->.
      { unfold not_char in Hrest. apply negb_false_iff in Hrest.
        apply Ascii.eqb_eq in Hrest. exact Hrest. }
      rewrite Ascii.eqb_refl. subst u.
      destruct (strip_prefix sfx r') as [x|] eqn:Hs.
      * destruct (Nat.leb_spec 1 (length v)) as [Hlen|Hlen]; [discriminate|].
        intros _. destruct v as [|b v]; [|simpl in Hlen; lia].
        cbn [app]. destruct (delimited_new_head c r') as [x' ->].
        cbn [span_cls]. unfold not_char at 1. rewrite Ascii.eqb_refl.
        reflexivity.
      * intros _. rewrite (delimited_new_run _ _ Hall Hs).
        rewrite (span_cls_stop _ v c _ Hall)
          by (unfold not_char; rewrite Ascii.eqb_refl; reflexivity).
        rewrite Ascii.eqb_refl, (strip_prefix_new_None _ _ head_not_sfx Hs).
        destruct (1 <=? length v); reflexivity.
  - intros _. rewrite (strip_prefix_new_None _ _ head_once Hu). reflexivity.
Qed.

(** When the replacement is itself a match, a later replacement finds what
    it finds in the text before the first one. *)
Lemma delimited_last_wins (v w2 s : pystr) :
  w' = l' ++ v ++ c :: sfx -> v <> [] -> forallb (not_char c) v = true ->
  subn P [TText w2] (new s) = subn P [TText w2] s.
Proof.
  intros Hw Hne Hv. apply subn_last_wins.
  - apply delimited_progress.
  - intros x. exists []. rewrite re_match_delimited, Hw.
    assert (E : (h :: l' ++ v ++ c :: sfx) ++ x = (h :: l') ++ v ++ c :: sfx ++ x).
    { cbn [app]. rewrite <- !app_assoc. reflexivity. }
    rewrite E, (delimited_value _ _ _ _ _ Hne Hv). reflexivity.
  - apply delimited_fail_stable.
Qed.
End Delimited.

(** *** The task *)

Lemma TaskToMCA_idempotent (s : pystr) :
  subn TaskToMCA_re TaskToMCA_repl (fst (subn TaskToMCA_re TaskToMCA_repl s)) =
  subn TaskToMCA_re TaskToMCA_repl s.
Proof.
  apply (delimited_last_wins "<"
           (tail (qstr "<Parameter name='Subtask' type='cn' value='CN=Root,Vector=TaskList["))
           "]" (qstr "'/>")
           (tail (qstr "<Parameter name='Subtask' type='cn' value='CN=Root,Vector=TaskList[Metabolic Control Analysis]'/>"))
           eq_refl eq_refl eq_refl eq_refl
           (str "Metabolic Control Analysis")); reflexivity || discriminate.
Qed.

(** [setTaskToMCA] is idempotent: after a call that found the task, a
    second call finds it as often, reports what the first reported and leaves
    the content as the first left it. *)
Theorem setTaskToMCA_idempotent (self : Copasi) :
  0 < count_matches TaskToMCA_re (content self) ->
  exists (log : list report) (self1 : Copasi),
    run setTaskToMCA self = (log, inr (tt, self1)) /\
    Forall (fun r => r_fatal r = false) log /\
    run setTaskToMCA self1 = (log, inr (tt, self1)).
Proof.
  intros Hpos. unfold count_matches in Hpos.
  rewrite (subn_count _ [] TaskToMCA_repl) in Hpos.
  exists (if 1 <? snd (subn TaskToMCA_re TaskToMCA_repl (content self))
          then [Report (filename self)
                  (str "The optimization target was changed to MCA more than once.")
                  false]
          else []),
         (with_content self (fst (subn TaskToMCA_re TaskToMCA_repl (content self)))).
  assert (Hrun : forall self',
            0 < snd (subn TaskToMCA_re TaskToMCA_repl (content self')) ->
            run setTaskToMCA self' =
              (if 1 <? snd (subn TaskToMCA_re TaskToMCA_repl (content self'))
               then [Report (filename self')
                       (str "The optimization target was changed to MCA more than once.")
                       false]
               else [],
               inr (tt, with_content self'
                          (fst (subn TaskToMCA_re TaskToMCA_repl (content self')))))).
  { intros self' Hpos'.
    unfold run, setTaskToMCA, bind, get_self, set_content, _errorReport, ret.
    cbn beta iota zeta. fold TaskToMCA_repl.
    destruct (Nat.eqb_spec (snd (subn TaskToMCA_re TaskToMCA_repl (content self'))) 0)
      as [E|_]; [lia|].
    destruct (1 <? snd (subn TaskToMCA_re TaskToMCA_repl (content self')));
      reflexivity. }
  split; [exact (Hrun self Hpos)|]. split.
  - destruct (1 <? _); repeat constructor.
  - rewrite Hrun; cbn [content with_content filename];
      rewrite TaskToMCA_idempotent; [|exact Hpos].
    rewrite with_content_twice. reflexivity.
Qed.

Lemma setTaskToMCA_idempotent_witness :
  exists (log : list report) (self1 : Copasi),
    run setTaskToMCA sample_doc = (log, inr (tt, self1)) /\
    Forall (fun r => r_fatal r = false) log /\
    run setTaskToMCA self1 = (log, inr (tt, self1)).
Proof.
  apply (setTaskToMCA_idempotent sample_doc). vm_compute. lia.
Defined.
